(** * beeswax-node-client: a shallow embedding of the client and its macros

    The development has two models, each following the TypeScript source.

    - A sequential model of the Resource Client and of the Macro
      Orchestrator ([BeeswaxClient.request], [BaseResource], the resource
      subclasses, [CampaignMacros]).  An [async] function is a computation
      in a state-and-exception monad; [await] is sequencing; a rejected
      promise is a thrown value.  The remote API is an arbitrary stream of
      replies to the successive calls of the axios instance.

    - An event model of the Session Manager ([authenticate],
      [performAuthentication], the 401 response interceptor), in which the
      synchronous segments of the async functions are the atomic steps and
      promise reactions sit in a FIFO microtask queue.

    Writes to the console and the [DEBUG_BEESWAX] traces have no effect on
    the results and are left out.  The resources are those of the current
    [src/resources/index.ts] (with the field-name mapping) and the client
    is the current [src/BeeswaxClient.ts] (with the v2 line-item helper). *)

From Stdlib Require Import List String Ascii ZArith Lia Bool Arith.
Import ListNotations.
Open Scope string_scope.
Set Warnings "-register-all".

(* ================================================================= *)
(** * Part I: definitions *)
(* ================================================================= *)

(** ** JavaScript values *)

(** Host objects that the modelled code can reach: the members of
    [Object.prototype] (found by a property read with a computed key on an
    object literal) and the multipart form built by [uploadCreativeAsset]. *)
Inductive host : Type :=
| ObjectPrototypeMember (name : string)
| FormData
| FormDataHeaders.

(** The type [number] of JavaScript numbers is a parameter: the code only
    uses integer literals, truthiness, [*] and [String(n)], which the class
    [JsRuntime] below provides. *)
Inductive value (number : Type) : Type :=
| VUndefined
| VNull
| VBool (b : bool)
| VNum (n : number)
| VStr (s : string)
| VArr (items : list (value number))
| VObj (fields : list (string * value number))
| VHost (h : host).

Arguments VUndefined {number}.
Arguments VNull {number}.
Arguments VBool {number} b.
Arguments VNum {number} n.
Arguments VStr {number} s.
Arguments VArr {number} items.
Arguments VObj {number} fields.
Arguments VHost {number} h.

(** An axios response: HTTP status, parsed body, headers. *)
Record response (number : Type) : Type := mkResponse {
  status : Z;
  data : value number;
  headers : value number
}.
Arguments mkResponse {number}.
Arguments status {number}.
Arguments data {number}.
Arguments headers {number}.

(** What a [throw] or a rejected promise carries:
    [JsError m] is [new Error(m)] (or a [TypeError] raised by the runtime),
    [AxiosError m r] the rejection of an axios call (with the response when
    the server answered), [ThrownValue v] a thrown plain value, as in
    [throw error.response.data]. *)
Inductive thrown (number : Type) : Type :=
| JsError (message : string)
| AxiosError (message : string) (resp : option (response number))
| ThrownValue (v : value number).

Arguments JsError {number} message.
Arguments AxiosError {number} message resp.
Arguments ThrownValue {number} v.

(** Library functions that are not part of the repository. *)
Class JsRuntime (number : Type) : Type := {
  num_of_Z : Z -> number;                       (* an integer literal *)
  num_mul : number -> number -> number;         (* the [*] operator *)
  num_falsy : number -> bool;                   (* [0], [-0] and [NaN] *)
  String_of : value number -> string;           (* [String(v)], v not a string *)
  JSON_stringify : value number -> string;      (* [JSON.stringify(v)] *)
  JSON_stringify_axios : string -> option (response number) -> string;
  toString_of : value number -> string;         (* [v.toString()], v not a string *)
  times_coerced : value number -> value number -> number;
                                                (* [a * b], a or b not a number *)
  parseInt : value number -> number;            (* [parseInt(v, 10)] *)
  call_method : host -> value number -> value number + string
                                                (* [f.call(o)] for a function
                                                   member [f] of [Object.prototype]:
                                                   its result, or the message of
                                                   the error it throws *)
}.

(** Letter case.  Strings are UTF-8 byte strings and only the ASCII
    letters are folded.  The folded strings are only compared with ASCII
    words (the keys of the type map, the member names of
    [Object.prototype], the method name [GET]), and no character outside
    ASCII folds to a letter of these words, so the comparisons agree with
    those of [toLowerCase] and [toUpperCase]. *)
Definition lower_ascii (c : ascii) : ascii :=
  let n := nat_of_ascii c in
  if (65 <=? n)%nat && (n <=? 90)%nat then ascii_of_nat (n + 32) else c.

Definition upper_ascii (c : ascii) : ascii :=
  let n := nat_of_ascii c in
  if (97 <=? n)%nat && (n <=? 122)%nat then ascii_of_nat (n - 32) else c.

Fixpoint toLowerCase (s : string) : string :=
  match s with
  | EmptyString => EmptyString
  | String c s' => String (lower_ascii c) (toLowerCase s')
  end.

Fixpoint toUpperCase (s : string) : string :=
  match s with
  | EmptyString => EmptyString
  | String c s' => String (upper_ascii c) (toUpperCase s')
  end.

(** [includes needle s]: [needle] occurs in [s]. *)
Fixpoint includes (needle s : string) : bool :=
  String.prefix needle s ||
  match s with
  | EmptyString => false
  | String _ s' => includes needle s'
  end.

(** The line terminators that [.] does not match: LF, CR and, in UTF-8,
    U+2028 and U+2029. *)
Definition line_separator : string :=
  String (ascii_of_nat 226) (String (ascii_of_nat 128) (String (ascii_of_nat 168) EmptyString)).

Definition paragraph_separator : string :=
  String (ascii_of_nat 226) (String (ascii_of_nat 128) (String (ascii_of_nat 169) EmptyString)).

(** The part of [s] before its first line terminator. *)
Fixpoint first_line (s : string) : string :=
  match s with
  | EmptyString => EmptyString
  | String c s' =>
      if (nat_of_ascii c =? 10)%nat || (nat_of_ascii c =? 13)%nat
         || String.prefix line_separator s || String.prefix paragraph_separator s
      then EmptyString else String c (first_line s')
  end.

Fixpoint drop_string (n : nat) (s : string) : string :=
  match n, s with
  | O, _ => s
  | S n', String _ s' => drop_string n' s'
  | S _, EmptyString => EmptyString
  end.

(** [new RegExp(a + ".*" + b).test(s)] for literal [a] and [b] without line
    breaks: some occurrence of [a] is followed, on the same line, by [b]. *)
Fixpoint regexp_dotstar_test (a b s : string) : bool :=
  (String.prefix a s && includes b (first_line (drop_string (String.length a) s))) ||
  match s with
  | EmptyString => false
  | String _ s' => regexp_dotstar_test a b s'
  end.

Section JsValues.
Context {number : Type} `{JsRuntime number}.

#[local] Abbreviation value := (value number).
#[local] Abbreviation thrown := (thrown number).

(** Object literals and own properties.  An object is the list of its own
    enumerable properties in insertion order, without repeated keys. *)
Fixpoint own (fields : list (string * value)) (k : string) : option value :=
  match fields with
  | [] => None
  | (k', v) :: rest => if String.eqb k' k then Some v else own rest k
  end.

(** [o[k] = v] *)
Fixpoint set_field (fields : list (string * value)) (k : string) (v : value)
  : list (string * value) :=
  match fields with
  | [] => [(k, v)]
  | (k', v') :: rest =>
      if String.eqb k' k then (k, v) :: rest else (k', v') :: set_field rest k v
  end.

(** [delete o[k]] *)
Fixpoint delete_field (fields : list (string * value)) (k : string)
  : list (string * value) :=
  match fields with
  | [] => []
  | (k', v') :: rest =>
      if String.eqb k' k then delete_field rest k else (k', v') :: delete_field rest k
  end.

(** [{...a, ...b}] on property lists *)
Definition assign (a b : list (string * value)) : list (string * value) :=
  fold_left (fun acc kv => set_field acc (fst kv) (snd kv)) b a.

(** An object literal [{k1: v1, ...}]. *)
Definition obj (fields : list (string * value)) : value :=
  VObj (assign [] fields).

(** The own enumerable properties copied by a spread [...v] inside an
    object literal; the API types make [v] an object, [undefined] or
    [null], and the last two spread nothing. *)
Definition spread (v : value) : list (string * value) :=
  match v with
  | VObj fields => fields
  | _ => []
  end.

Definition num (z : Z) : value := VNum (num_of_Z z).

Fixpoint digits_index (s : string) (acc : nat) : option nat :=
  match s with
  | EmptyString => Some acc
  | String c s' =>
      let n := nat_of_ascii c in
      if (48 <=? n)%nat && (n <=? 57)%nat
      then digits_index s' (10 * acc + (n - 48))
      else None
  end.

Definition array_index (k : string) : option nat :=
  match k with
  | EmptyString => None
  | _ => digits_index k 0
  end.

Definition string_of_ascii (c : ascii) : string := String c EmptyString.

(** [v.k] on a value that is neither [undefined] nor [null]: own
    properties of plain objects, [length] and indices of arrays and
    strings.  The keys read this way in the source are fixed names of
    the API schema, none of them a member of a prototype. *)
Definition prop (v : value) (k : string) : value :=
  match v with
  | VObj fields => match own fields k with Some x => x | None => VUndefined end
  | VArr items =>
      if String.eqb k "length" then num (Z.of_nat (List.length items))
      else match array_index k with
           | Some i => nth i items VUndefined
           | None => VUndefined
           end
  | VStr s =>
      if String.eqb k "length" then num (Z.of_nat (String.length s))
      else match array_index k with
           | Some i => match String.get i s with
                       | Some c => VStr (string_of_ascii c)
                       | None => VUndefined
                       end
           | None => VUndefined
           end
  | _ => VUndefined
  end.

Definition nullish (v : value) : bool :=
  match v with
  | VUndefined | VNull => true
  | _ => false
  end.

(** [v?.k] *)
Definition opt_prop (v : value) (k : string) : value :=
  if nullish v then VUndefined else prop v k.

(** [v?.[0]] *)
Definition opt_first (v : value) : value := opt_prop v "0".

(** Truthiness. *)
Definition truthy (v : value) : bool :=
  match v with
  | VUndefined | VNull => false
  | VBool b => b
  | VNum n => negb (num_falsy n)
  | VStr s => negb (String.eqb s "")
  | VArr _ | VObj _ | VHost _ => true
  end.

(** [a || b] *)
Definition or_else (a b : value) : value := if truthy a then a else b.

Definition is_undefined (v : value) : bool :=
  match v with
  | VUndefined => true
  | _ => false
  end.

(** [v === false] *)
Definition is_false (v : value) : bool :=
  match v with
  | VBool false => true
  | _ => false
  end.

(** The string [String(v)] evaluates to when the conversion completes
    (see [string_of] for the conversions that throw). *)
Definition js_String (v : value) : string :=
  match v with
  | VStr s => s
  | _ => String_of v
  end.

(** [a * b] *)
Definition times (a b : value) : value :=
  match a, b with
  | VNum x, VNum y => VNum (num_mul x y)
  | _, _ => VNum (times_coerced a b)
  end.

(** The names of the members of [Object.prototype]. *)
Definition Object_prototype_names : list string :=
  [ "constructor"; "__proto__"; "hasOwnProperty"; "isPrototypeOf";
    "propertyIsEnumerable"; "toLocaleString"; "toString"; "valueOf";
    "__defineGetter__"; "__defineSetter__"; "__lookupGetter__";
    "__lookupSetter__" ].

(** [o[k]] for an object literal [o] and a computed key [k]: an own
    property, else the member of [Object.prototype] of that name, else
    [undefined]. *)
Definition lookup (fields : list (string * value)) (k : string) : value :=
  match own fields k with
  | Some v => v
  | None =>
      if existsb (String.eqb k) Object_prototype_names
      then VHost (ObjectPrototypeMember k)
      else VUndefined
  end.

(** [isPOJO] of [src/utils/helpers.ts]:
    [!!(value && value.constructor === Object)].  A plain object passes
    unless an own property shadows [constructor]; [Object.prototype]
    itself passes. *)
Definition isPOJO (v : value) : bool :=
  match v with
  | VObj fields => match own fields "constructor" with
                   | None => true
                   | Some (VHost (ObjectPrototypeMember name)) =>
                       String.eqb name "constructor"
                   | Some _ => false
                   end
  | VHost (ObjectPrototypeMember name) => String.eqb name "__proto__"
  | _ => false
  end.

(** [Object.keys(v).length === 0] *)
Definition no_keys (v : value) : bool :=
  match v with
  | VObj [] | VArr [] | VStr "" => true
  | VObj _ | VArr _ | VStr _ => false
  | _ => true
  end.

(** ** Conversions that can throw *)

Definition is_object (v : value) : bool :=
  match v with
  | VArr _ | VObj _ | VHost _ => true
  | _ => false
  end.

(** The functions among the values are the members of
    [Object.prototype], except [__proto__], which is an object.  A parsed
    JSON body holds none. *)
Definition callable (v : value) : option host :=
  match v with
  | VHost (ObjectPrototypeMember name) =>
      if existsb (String.eqb name) Object_prototype_names
         && negb (String.eqb name "__proto__")
      then Some (ObjectPrototypeMember name)
      else None
  | _ => None
  end.

(** The message of the [TypeError] of a failed conversion. *)
Definition cannot_convert : string := "Cannot convert object to primitive value".

(** One step of [OrdinaryToPrimitive]: the method [m] of [o] is called
    when it is a function, and its result is taken when it is not an
    object. *)
Definition call_for_primitive (m o : value) (otherwise : value + string)
  : value + string :=
  match callable m with
  | Some h => match call_method h o with
              | inl r => if is_object r then otherwise else inl r
              | inr e => inr e
              end
  | None => otherwise
  end.

(** [OrdinaryToPrimitive(o, string)] for the plain object [o] with the
    own properties [fields]: [toString], then [valueOf].  Without own
    property the methods are those of [Object.prototype]: [toString]
    returns a string and [valueOf] returns [o] itself.  An own [toString]
    that is not a function (as in the parsed body [{"toString": 1}])
    leaves [valueOf], and a [TypeError] when that gives no primitive. *)
Definition to_primitive (o : value) (fields : list (string * value))
  : value + string :=
  let by_valueOf :=
    match own fields "valueOf" with
    | Some m => call_for_primitive m o (inr cannot_convert)
    | None => inr cannot_convert
    end in
  match own fields "toString" with
  | Some m => call_for_primitive m o by_valueOf
  | None => inl (VStr (String_of o))
  end.

(** [String(v)], and [v] inside a template literal: the string, or the
    message of the error thrown by the conversion.  An array is joined,
    which converts each element that is neither [undefined] nor [null]. *)
Fixpoint string_of (v : value) : string + string :=
  match v with
  | VStr s => inl s
  | VObj fields =>
      match to_primitive v fields with
      | inl r => inl (js_String r)
      | inr e => inr e
      end
  | VArr items =>
      match (fix first_error (l : list value) : option string :=
               match l with
               | [] => None
               | x :: rest =>
                   if nullish x then first_error rest
                   else match string_of x with
                        | inr e => Some e
                        | inl _ => first_error rest
                        end
               end) items with
      | Some e => inr e
      | None => inl (String_of v)
      end
  | _ => inl (String_of v)
  end.

(** The conversion of [v] to a string completes. *)
Definition converts (v : value) : bool :=
  match string_of v with
  | inl _ => true
  | inr _ => false
  end.

(** [v.toString()]: the property [toString] is read (an own property
    shadows the inherited method) and called. *)
Definition method_toString (v : value) : value + string :=
  match v with
  | VUndefined | VNull =>
      inr "Cannot read properties of undefined (reading 'toString')"
  | VStr s => inl (VStr s)
  | VObj fields =>
      match own fields "toString" with
      | Some m => match callable m with
                  | Some h => call_method h v
                  | None => inr "error.toString is not a function"
                  end
      | None => inl (VStr (toString_of v))
      end
  | VArr _ =>
      match string_of v with
      | inl _ => inl (VStr (toString_of v))
      | inr e => inr e
      end
  | _ => inl (VStr (toString_of v))
  end.

(** Readers on a caught error. *)
Definition error_message (e : thrown) : value :=
  match e with
  | JsError m => VStr m
  | AxiosError m _ => VStr m
  | ThrownValue v => opt_prop v "message"
  end.

(** [error.response?.data].  A caught value is never [undefined] or
    [null]: axios rejects with [Error] objects and the code throws
    [Error] objects or truthy response bodies. *)
Definition error_response_data (e : thrown) : value :=
  match e with
  | JsError _ => VUndefined
  | AxiosError _ (Some r) => data r
  | AxiosError _ None => VUndefined
  | ThrownValue v => opt_prop (opt_prop v "response") "data"
  end.

(** [JSON.stringify(error)]: an [Error] has no enumerable property. *)
Definition stringify_error (e : thrown) : string :=
  match e with
  | JsError _ => "{}"
  | AxiosError m r => JSON_stringify_axios m r
  | ThrownValue v => JSON_stringify v
  end.

(** [error.toString()]: the text of an [Error], the method of a thrown
    value. *)
Definition error_toString (e : thrown) : value + string :=
  match e with
  | JsError m => inl (VStr ("Error: " ++ m))
  | AxiosError m _ => inl (VStr ("AxiosError: " ++ m))
  | ThrownValue v => method_toString v
  end.

End JsValues.

(** ** The monad of asynchronous computations *)

(** One call of the axios instance (or of the global [axios]). *)
Record call (number : Type) : Type := mkCall {
  c_method : string;
  c_url : string;
  c_params : value number;     (* query string *)
  c_data : value number;       (* request payload *)
  c_headers : value number
}.
Arguments mkCall {number}.
Arguments c_method {number}.
Arguments c_url {number}.
Arguments c_params {number}.
Arguments c_data {number}.
Arguments c_headers {number}.

(** How an axios promise settles: with a response, with an [AxiosError]
    (carrying the response when the server answered), or with another
    [Error], such as the one [authenticate] raises inside the response
    interceptor. *)
Inductive reply (number : Type) : Type :=
| Fulfils (r : response number)
| Rejects (message : string) (resp : option (response number))
| RejectsError (message : string).
Arguments Fulfils {number} r.
Arguments Rejects {number} message resp.
Arguments RejectsError {number} message.

(** The world outside the client: the reply to the n-th network call, the
    number of calls made so far and the calls themselves, oldest first. *)
Record world (number : Type) : Type := mkWorld {
  replies : nat -> reply number;
  cursor : nat;
  sent : list (call number)
}.
Arguments mkWorld {number}.
Arguments replies {number}.
Arguments cursor {number}.
Arguments sent {number}.

(** How an awaited promise settles. *)
Inductive settled (number : Type) (A : Type) : Type :=
| Resolved (a : A)
| Rejected (e : thrown number).
Arguments Resolved {number A} a.
Arguments Rejected {number A} e.

Definition M (number : Type) (A : Type) : Type :=
  world number -> settled number A * world number.

Section Monad.
Context {number : Type}.

Definition ret {A} (a : A) : M number A := fun w => (Resolved a, w).

Definition bind {A B} (m : M number A) (k : A -> M number B) : M number B :=
  fun w => match m w with
           | (Resolved a, w') => k a w'
           | (Rejected e, w') => (Rejected e, w')
           end.

Definition throw {A} (e : thrown number) : M number A :=
  fun w => (Rejected e, w).

(** [try { m } catch (e) { handler e }] *)
Definition try_catch {A} (m : M number A) (handler : thrown number -> M number A)
  : M number A :=
  fun w => match m w with
           | (Resolved a, w') => (Resolved a, w')
           | (Rejected e, w') => handler e w'
           end.

(** The next network call: it is recorded and settles as the world says. *)
Definition axios (c : call number) : M number (response number) :=
  fun w =>
    let w' := mkWorld (replies w) (S (cursor w)) (sent w ++ [c]) in
    match replies w (cursor w) with
    | Fulfils r => (Resolved r, w')
    | Rejects m r => (Rejected (AxiosError m r), w')
    | RejectsError m => (Rejected (JsError m), w')
    end.

(** [delay(ms)] of [src/utils/helpers.ts] resolves after a timer and has
    no other effect. *)
Definition delay (ms : Z) : M number unit := ret tt.
End Monad.

Notation "x <- m ;; k" := (bind m (fun x => k))
  (at level 61, m at next level, right associativity).
Notation "m ;;; k" := (bind m (fun _ => k))
  (at level 61, right associativity).

Section JsEffects.
Context {number : Type} `{JsRuntime number}.
#[local] Abbreviation value := (value number).

(** [v.k] where [v] may be [undefined] or [null]: a [TypeError]. *)
Definition getp (v : value) (k : string) : M number value :=
  if nullish v then throw (JsError ("Cannot read properties of undefined (reading '" ++ k ++ "')"))
  else ret (prop v k).

(** The elements visited by [for (const x of v)] and by a spread
    [...v] in a call: arrays (and the characters of a string); anything
    else is not iterable. *)
Definition iterate (v : value) : M number (list value) :=
  match v with
  | VArr items => ret items
  | VStr s => ret (map (fun c => VStr (string_of_ascii c)) (list_ascii_of_string s))
  | _ => throw (JsError "object is not iterable")
  end.

(** A step of the runtime that returns, or throws an error with the
    given message. *)
Definition completed {A} (r : A + string) : M number A :=
  match r with
  | inl a => ret a
  | inr message => throw (JsError message)
  end.

(** [String(v)] and [`${v}`] as steps of a computation. *)
Definition to_String (v : value) : M number string := completed (string_of v).

(** [v.length] of a value that is not nullish, as a count. *)
Definition length_of (v : value) : option nat :=
  match v with
  | VArr items => Some (List.length items)
  | VStr s => Some (String.length s)
  | _ => None
  end.
End JsEffects.

(** ** BeeswaxClient.request *)

Record req_options (number : Type) : Type := mkOptions {
  o_body : value number;
  o_params : value number;
  o_headers : value number
}.
Arguments mkOptions {number}.
Arguments o_body {number}.
Arguments o_params {number}.
Arguments o_headers {number}.

Module BeeswaxClient.
Section Request.
Context {number : Type} `{JsRuntime number}.
#[local] Abbreviation value := (value number).

(** [{ body }] *)
Definition with_body (body : value) : req_options number :=
  mkOptions body VUndefined VUndefined.

(** [request(method, endpoint, options)]: a GET carries the body as query
    parameters; a body that declares [success === false] is thrown as an
    [Error]; a failure that carries a response body throws that body. *)
Definition request (method endpoint : string) (options : req_options number)
  : M number value :=
  let config :=
    if String.eqb (toUpperCase method) "GET"
    then mkCall method endpoint (or_else (o_body options) (o_params options))
                VUndefined (o_headers options)
    else mkCall method endpoint (o_params options) (o_body options)
                (o_headers options) in
  try_catch
    (response <- axios config ;;
     success <- getp (data response) "success" ;;
     if is_false success
     then throw (JsError (JSON_stringify (data response)))
     else ret (data response))
    (fun error =>
       if truthy (error_response_data error)
       then throw (ThrownValue (error_response_data error))
       else throw error).
End Request.
End BeeswaxClient.

(** ** BaseResource *)

Record resource : Type := mkResource {
  endpoint : string;
  idField : string
}.

Module BaseResource.
Section Methods.
Context {number : Type} `{JsRuntime number}.
#[local] Abbreviation value := (value number).
Variable this : resource.

Definition find (id : value) : M number value :=
  let body := obj [(idField this, id)] in
  response <- BeeswaxClient.request "GET" (endpoint this) (BeeswaxClient.with_body body) ;;
  ret (obj [("success", VBool true);
            ("payload", opt_first (prop response "payload"))]).

Definition query (body : value) : M number value :=
  response <- BeeswaxClient.request "GET" (endpoint this)
                (BeeswaxClient.with_body (or_else body (obj []))) ;;
  ret (obj [("success", VBool true);
            ("payload", or_else (prop response "payload") (VArr []))]).

Definition batchSize : nat := 50.

(** The [while (true)] loop of [queryAll]; [fuel] bounds the number of
    pages requested, [None] is returned when it runs out.  [offset] is
    the integer held by the variable of that name. *)
Fixpoint queryAll_loop (fuel : nat) (body : value) (offset : Z) (results : list value)
  : M number (option value) :=
  match fuel with
  | O => ret None
  | S fuel' =>
      let queryBody :=
        VObj (assign (spread body)
                [("rows", num (Z.of_nat batchSize));
                 ("offset", num offset);
                 ("sort_by", VStr (idField this))]) in
      response <- BeeswaxClient.request "GET" (endpoint this)
                    (BeeswaxClient.with_body queryBody) ;;
      let batch := or_else (prop response "payload") (VArr []) in
      items <- iterate batch ;;
      let results' := (results ++ items)%list in
      match length_of batch with
      | Some n =>
          if (n <? batchSize)%nat
          then ret (Some (obj [("success", VBool true); ("payload", VArr results')]))
          else queryAll_loop fuel' body (offset + Z.of_nat batchSize) results'
      | None => queryAll_loop fuel' body (offset + Z.of_nat batchSize) results'
      end
  end.

Definition queryAll (fuel : nat) (body : value) : M number (option value) :=
  queryAll_loop fuel body 0 [].

Definition bad_body : value :=
  obj [("success", VBool false); ("code", num 400);
       ("message", VStr "Body must be non-empty object")].

Definition create (body : value) : M number value :=
  if negb (isPOJO body) || no_keys body then ret bad_body
  else
    response <- BeeswaxClient.request "POST" (endpoint this ++ "/strict")
                  (BeeswaxClient.with_body body) ;;
    if truthy (prop response "success")
       && truthy (opt_prop (prop response "payload") "id")
    then find (prop (prop response "payload") "id")
    else ret response.

(** [messages.some(msg => new RegExp(...).test(msg))]: [some] exists on
    arrays only, the pattern is tested on [String(msg)]. *)
Definition isNotFoundError (error : thrown number) (action : string) : bool :=
  let e := match error with
           | ThrownValue v => opt_prop v "error"
           | _ => VUndefined
           end in
  let messages :=
    or_else (opt_prop (opt_first (opt_prop e "payload")) "message") (VArr []) in
  match messages with
  | VArr msgs =>
      existsb (fun msg =>
                 regexp_dotstar_test "Could not load object" ("to " ++ action)
                   (js_String msg)) msgs
  | _ => false
  end.

Definition not_found : value :=
  obj [("success", VBool false); ("code", num 400); ("message", VStr "Not found")].

Definition edit (id : value) (body : value) (failOnNotFound : bool) : M number value :=
  if negb (isPOJO body) || no_keys body then ret bad_body
  else
    let updateBody := VObj (set_field (spread body) (idField this) id) in
    try_catch
      (BeeswaxClient.request "PUT" (endpoint this ++ "/strict")
         (BeeswaxClient.with_body updateBody) ;;;
       find id)
      (fun error =>
         let notFound := isNotFoundError error "update" in
         if notFound && negb failOnNotFound then ret not_found
         else throw error).

Definition delete (id : value) (failOnNotFound : bool) : M number value :=
  let body := obj [(idField this, id)] in
  try_catch
    (response <- BeeswaxClient.request "DELETE" (endpoint this ++ "/strict")
                   (BeeswaxClient.with_body body) ;;
     ret (obj [("success", VBool true);
               ("payload", opt_first (prop response "payload"))]))
    (fun error =>
       let notFound := isNotFoundError error "delete" in
       if notFound && negb failOnNotFound then ret not_found
       else throw error).
End Methods.
End BaseResource.

(** ** The resources of [src/resources/index.ts] *)

Definition advertisers : resource := mkResource "/rest/advertiser" "advertiser_id".
Definition campaigns : resource := mkResource "/rest/campaign" "campaign_id".
Definition lineItems : resource := mkResource "/rest/line_item" "line_item_id".
Definition creatives : resource := mkResource "/rest/creative" "creative_id".
Definition creativeLineItems : resource := mkResource "/rest/creative_line_item" "cli_id".
Definition targetingTemplates : resource :=
  mkResource "/rest/targeting_template" "targeting_template_id".
Definition creativeAssets : resource := mkResource "/rest/creative_asset" "creative_asset_id".
Definition segments : resource := mkResource "/rest/segment" "segment_id".
Definition reports : resource := mkResource "/rest/report" "report_id".

Module CampaignResource.
Section Methods.
Context {number : Type} `{JsRuntime number}.
#[local] Abbreviation value := (value number).

(** The legacy names [campaign_name] and [campaign_budget] are the ones
    sent; the aliases [name] and [budget] are deleted. *)
Definition map_names (body : value) (campaignData : list (string * value))
  : list (string * value) :=
  let campaignData :=
    if truthy (or_else (prop body "name") (prop body "campaign_name"))
    then delete_field
           (set_field campaignData "campaign_name"
              (or_else (prop body "campaign_name") (prop body "name")))
           "name"
    else campaignData in
  if negb (is_undefined (prop body "budget"))
     || negb (is_undefined (prop body "campaign_budget"))
  then delete_field
         (set_field campaignData "campaign_budget"
            (if negb (is_undefined (prop body "campaign_budget"))
             then prop body "campaign_budget" else prop body "budget"))
         "budget"
  else campaignData.

Definition normalize (body : value) : value :=
  let campaignData :=
    assign (spread body)
      [("budget_type",
        if negb (is_undefined (prop body "budget_type"))
        then prop body "budget_type" else num 2)] in
  VObj (map_names body campaignData).

Definition create (body : value) : M number value :=
  _ <- getp body "budget_type" ;;
  BaseResource.create campaigns (normalize body).

Definition edit (id : value) (body : value) (failOnNotFound : bool) : M number value :=
  _ <- getp body "name" ;;
  BaseResource.edit campaigns id (VObj (map_names body (spread body))) failOnNotFound.
End Methods.
End CampaignResource.

Module LineItemResource.
Section Methods.
Context {number : Type} `{JsRuntime number}.
#[local] Abbreviation value := (value number).

Definition field (fields : list (string * value)) (k : string) : value :=
  prop (VObj fields) k.

(** The body sent to the v2 endpoint. *)
Definition normalize (body : value) : value :=
  let d := spread body in
  let d := if truthy (prop body "line_item_name") && negb (truthy (field d "name"))
           then delete_field (set_field d "name" (prop body "line_item_name"))
                  "line_item_name"
           else d in
  let d := if truthy (prop body "line_item_type") && negb (truthy (field d "type"))
           then delete_field (set_field d "type" (prop body "line_item_type"))
                  "line_item_type"
           else d in
  let d := if negb (is_undefined (prop body "line_item_budget"))
              && negb (truthy (field d "budget"))
           then delete_field (set_field d "budget" (prop body "line_item_budget"))
                  "line_item_budget"
           else d in
  let d := if negb (truthy (field d "type"))
           then set_field d "type" (VStr "banner") else d in
  let d := set_field d "id" VNull in
  let d := delete_field d "line_item_id" in
  let d := if negb (truthy (field d "spend_budget"))
           then set_field d "spend_budget"
                  (obj [("lifetime", VNull); ("daily", VNull);
                        ("include_fees", VBool true)])
           else d in
  let d := if negb (truthy (field d "frequency_caps"))
           then set_field d "frequency_caps" VNull else d in
  VObj d.

Definition create (body : value) : M number value :=
  _ <- getp body "line_item_name" ;;
  response <- BeeswaxClient.request "POST" "/rest/v2/line-items"
                (BeeswaxClient.with_body (normalize body)) ;;
  if truthy response && truthy (prop response "id")
  then ret (obj [("success", VBool true);
                 ("payload",
                  VObj (set_field (spread response) "line_item_id"
                          (prop response "id")))])
  else if truthy response && negb (is_undefined (prop response "success"))
  then ret response
  else ret (obj [("success", VBool false);
                 ("message", VStr "Unexpected response format");
                 ("errors", VArr [VStr (JSON_stringify response)])]).
End Methods.
End LineItemResource.

Module CreativeResource.
Section Methods.
Context {number : Type} `{JsRuntime number}.
#[local] Abbreviation value := (value number).

Definition typeMap : list (string * value) :=
  [("display", num 0); ("banner", num 0); ("video", num 1); ("native", num 2)].

(** The conversion applied to the creative type before it is stored. *)
Definition convert_type (typeValue : value) : value :=
  match typeValue with
  | VStr s =>
      if negb (is_undefined (lookup typeMap (toLowerCase s)))
      then lookup typeMap (toLowerCase s)
      else typeValue
  | _ => typeValue
  end.

Definition normalize (body : value) : value :=
  let d := spread body in
  let d := if truthy (or_else (prop body "name") (prop body "creative_name"))
           then delete_field
                  (set_field d "creative_name"
                     (or_else (prop body "creative_name") (prop body "name")))
                  "name"
           else d in
  let typeValue := if negb (is_undefined (prop body "creative_type"))
                   then prop body "creative_type" else prop body "type" in
  let d := if negb (is_undefined typeValue)
           then delete_field (set_field d "creative_type" (convert_type typeValue))
                  "type"
           else d in
  let d := if truthy (or_else (prop body "attributes") (prop body "creative_attributes"))
           then delete_field
                  (set_field d "creative_attributes"
                     (or_else (prop body "creative_attributes") (prop body "attributes")))
                  "attributes"
           else d in
  VObj d.

Definition create (body : value) : M number value :=
  _ <- getp body "name" ;;
  BaseResource.create creatives (normalize body).
End Methods.
End CreativeResource.

Module TargetingTemplateResource.
Section Methods.
Context {number : Type} `{JsRuntime number}.
#[local] Abbreviation value := (value number).

Definition deprecation : string :=
  "Targeting templates are deprecated. Please use targeting expressions API directly.".

Definition create (_body : value) : M number value :=
  ret (obj [("success", VBool false);
            ("message", VStr deprecation);
            ("code", num 410)]).

Definition query (body : value) : M number value :=
  try_catch
    (BaseResource.query targetingTemplates body)
    (fun _error =>
       ret (obj [("success", VBool true);
                 ("payload", VArr []);
                 ("message", VStr deprecation)])).
End Methods.
End TargetingTemplateResource.

(** ** Loops *)

Section Loops.
Context {number : Type}.

(** [for (const x of xs) { state = body(state, x) }] with [await]s in the
    body; a [continue] is an early [ret] of the state. *)
Fixpoint for_each {A S : Type} (xs : list A) (state : S) (body : S -> A -> M number S)
  : M number S :=
  match xs with
  | [] => ret state
  | x :: rest => state' <- body state x ;; for_each rest state' body
  end.
End Loops.

(** ** The helpers of BeeswaxClient *)

(** [s.split('/')] last element. *)
Fixpoint last_segment_from (s acc : string) : string :=
  match s with
  | EmptyString => acc
  | String c s' =>
      if (nat_of_ascii c =? 47)%nat then last_segment_from s' EmptyString
      else last_segment_from s' (acc ++ String c EmptyString)
  end.

Definition last_segment (s : string) : string := last_segment_from s EmptyString.

Module BeeswaxClientHelpers.
Section Methods.
Context {number : Type} `{JsRuntime number}.
#[local] Abbreviation value := (value number).

Definition field (fields : list (string * value)) (k : string) : value :=
  prop (VObj fields) k.

Definition uploadCreativeAsset (params : value) : M number value :=
  sourceUrl <- getp params "sourceUrl" ;;
  if negb (truthy sourceUrl)
  then throw (JsError "uploadCreativeAsset params requires a sourceUrl property.")
  else
    let assetDef :=
      assign [] [("advertiser_id", prop params "advertiser_id");
                 ("creative_asset_name", prop params "creative_asset_name");
                 ("notes", prop params "notes");
                 ("active", if negb (is_undefined (prop params "active"))
                            then prop params "active" else VBool true)] in
    assetDef <- (if negb (truthy (field assetDef "creative_asset_name"))
                 then match sourceUrl with
                      | VStr url =>
                          ret (set_field assetDef "creative_asset_name"
                                 (VStr (last_segment url)))
                      | _ => throw (JsError "params.sourceUrl.split is not a function")
                      end
                 else ret assetDef) ;;
    assetDef <- (if negb (truthy (prop params "size_in_bytes"))
                 then try_catch
                        (headResponse <- axios (mkCall "HEAD" (js_String sourceUrl)
                                                  VUndefined VUndefined VUndefined) ;;
                         contentLength <- getp (headers headResponse) "content-length" ;;
                         ret (set_field assetDef "size_in_bytes"
                                (VNum (parseInt (or_else contentLength (VStr "0"))))))
                        (fun _error => ret assetDef)
                 else ret (set_field assetDef "size_in_bytes"
                             (prop params "size_in_bytes"))) ;;
    createResponse <- BeeswaxClient.request "POST" "/rest/creative_asset"
                        (BeeswaxClient.with_body (VObj assetDef)) ;;
    if negb (truthy (opt_prop (prop createResponse "payload") "id"))
    then throw (JsError "Failed to create creative asset")
    else
      let assetId := prop (prop createResponse "payload") "id" in
      _fileStream <- axios (mkCall "GET" (js_String sourceUrl)
                              VUndefined VUndefined VUndefined) ;;
      BeeswaxClient.request "POST" ("/rest/creative_asset/upload/" ++ js_String assetId)
        (mkOptions (VHost FormData) VUndefined (VHost FormDataHeaders)) ;;;
      assetResponse <- BaseResource.find creativeAssets assetId ;;
      if negb (truthy (prop assetResponse "payload"))
      then throw (JsError "Failed to retrieve uploaded creative asset")
      else ret (prop assetResponse "payload").

Definition excludeFields : list string :=
  ["campaign_id"; "name"; "line_item_name"; "type"; "guaranteed";
   "currency"; "budget_type"; "spend_budget"; "bidding"; "cpm_bid";
   "frequency_caps"; "start_date"; "end_date"; "active"; "budget";
   "line_item_budget"].

Definition default_bidding (cpm_bid : value) : value :=
  obj [("strategy", VStr "CPM");
       ("values", obj [("cpm_bid", or_else cpm_bid (num 3))]);
       ("pacing", VStr "none");
       ("custom", VBool false);
       ("bid_shading_control", VStr "normal")].

Definition default_spend_budget (budget : value) : value :=
  obj [("lifetime", VStr (js_String budget)); ("include_fees", VBool true)].

(** [createLineItem(params)]: the line item inherits currency and dates
    from its campaign, which must exist. *)
Definition createLineItem (params : value) : M number value :=
  campaign_id <- getp params "campaign_id" ;;
  campaignResponse <- BaseResource.find campaigns campaign_id ;;
  if negb (truthy (prop campaignResponse "success"))
     || negb (truthy (prop campaignResponse "payload"))
  then throw (JsError "Campaign not found")
  else
    let campaign := prop campaignResponse "payload" in
    let lineItemData :=
      assign []
        [("advertiser_id", prop campaign "advertiser_id");
         ("campaign_id", campaign_id);
         ("name", or_else (prop params "name") (prop params "line_item_name"));
         ("type", or_else (prop params "type") (VStr "banner"));
         ("guaranteed", if negb (is_undefined (prop params "guaranteed"))
                        then prop params "guaranteed" else VBool false);
         ("currency", or_else (or_else (prop params "currency") (prop campaign "currency"))
                        (VStr "USD"));
         ("budget_type", or_else (prop params "budget_type")
                           (VStr "spend including vendor fees"));
         ("spend_budget",
          or_else (prop params "spend_budget")
            (default_spend_budget
               (or_else (or_else (prop params "budget") (prop params "line_item_budget"))
                  (num 0))));
         ("bidding", or_else (prop params "bidding")
                       (default_bidding (prop params "cpm_bid")));
         ("start_date", or_else (prop params "start_date") (prop campaign "start_date"));
         ("end_date", or_else (prop params "end_date") (prop campaign "end_date"));
         ("active", if negb (is_undefined (prop params "active"))
                    then prop params "active" else VBool false);
         ("frequency_caps", or_else (prop params "frequency_caps") VNull)] in
    let lineItemData :=
      fold_left
        (fun acc kv =>
           if negb (existsb (String.eqb (fst kv)) excludeFields)
              && negb (is_undefined (snd kv))
           then set_field acc (fst kv) (snd kv) else acc)
        (spread params) lineItemData in
    let lineItemData :=
      if truthy (prop params "targeting_expression_id")
      then set_field lineItemData "targeting_expression_id"
             (prop params "targeting_expression_id")
      else lineItemData in
    LineItemResource.create (VObj lineItemData).
End Methods.
End BeeswaxClientHelpers.

(** ** CampaignMacros *)

(** The [FullCampaignResponse] under construction. *)
Record full_campaign (number : Type) : Type := mkFull {
  campaign : value number;
  line_items : list (value number);
  creatives_created : list (value number);
  creative_line_items : list (value number);
  targeting_templates : list (value number)
}.
Arguments mkFull {number}.
Arguments campaign {number}.
Arguments line_items {number}.
Arguments creatives_created {number}.
Arguments creative_line_items {number}.
Arguments targeting_templates {number}.

Module CampaignMacros.
Section Methods.
Context {number : Type} `{JsRuntime number}.
#[local] Abbreviation value := (value number).
#[local] Abbreviation full := (full_campaign number).

Definition field (fields : list (string * value)) (k : string) : value :=
  prop (VObj fields) k.

Definition payload_of (result : full) : value :=
  obj [("campaign", campaign result);
       ("line_items", VArr (line_items result));
       ("creatives", VArr (creatives_created result));
       ("creative_line_items", VArr (creative_line_items result));
       ("targeting_templates", VArr (targeting_templates result))].

Definition push_line_item (result : full) (v : value) : full :=
  mkFull (campaign result) (line_items result ++ [v]) (creatives_created result)
         (creative_line_items result) (targeting_templates result).

Definition push_creative (result : full) (v : value) : full :=
  mkFull (campaign result) (line_items result) (creatives_created result ++ [v])
         (creative_line_items result) (targeting_templates result).

Definition push_cli (result : full) (v : value) : full :=
  mkFull (campaign result) (line_items result) (creatives_created result)
         (creative_line_items result ++ [v]) (targeting_templates result).

Definition push_template (result : full) (v : value) : full :=
  mkFull (campaign result) (line_items result) (creatives_created result)
         (creative_line_items result) (targeting_templates result ++ [v]).

Definition succeeded (response : value) : M number value :=
  ret (obj [("success", VBool true); ("payload", response)]).

(** The object returned by the [catch] at the top of a macro. *)
Definition failure (error : thrown number) (fallback : string) : value :=
  obj [("success", VBool false);
       ("message", or_else (error_message error) (VStr fallback));
       ("errors", VArr [VStr (stringify_error error)])].

(** Step 2 of [createFullCampaign], one targeting template. *)
Definition createFullCampaign_template (options : value) (result : full)
           (templateOptions : value) : M number full :=
  name <- getp templateOptions "targeting_template_name" ;;
  let templateData :=
    obj [("advertiser_id", prop options "advertiser_id");
         ("targeting_template_name", name);
         ("targeting", prop templateOptions "targeting");
         ("active", VBool true)] in
  templateResponse <- TargetingTemplateResource.create templateData ;;
  if truthy (prop templateResponse "success") && truthy (prop templateResponse "payload")
  then ret (push_template result (prop templateResponse "payload"))
  else ret result.

(** Step 3, one creative of a line item. *)
Definition createFullCampaign_creative (options lineItem : value) (result : full)
           (creativeOptions : value) : M number full :=
  asset_url <- getp creativeOptions "asset_url" ;;
  creativeAssetId <-
    (if truthy asset_url
     then try_catch
            (asset <- BeeswaxClientHelpers.uploadCreativeAsset
                        (obj [("advertiser_id", prop options "advertiser_id");
                              ("sourceUrl", asset_url);
                              ("creative_asset_name", prop creativeOptions "creative_name")]) ;;
             ret (prop asset "creative_asset_id"))
            (fun _error => ret VUndefined)
     else ret VUndefined) ;;
  let creativeData :=
    assign []
      [("advertiser_id", prop options "advertiser_id");
       ("name", or_else (prop creativeOptions "name") (prop creativeOptions "creative_name"));
       ("type", or_else (or_else (prop creativeOptions "type")
                           (prop creativeOptions "creative_type")) (VStr "display"));
       ("creative_template_id", or_else (prop creativeOptions "creative_template_id") (num 1));
       ("width", prop creativeOptions "width");
       ("height", prop creativeOptions "height");
       ("click_url", or_else (prop creativeOptions "click_url") (VStr "https://example.com"));
       ("secure", VBool true);
       ("active", VBool false)] in
  let creativeData :=
    if truthy (or_else (prop creativeOptions "attributes")
                 (prop creativeOptions "creative_attributes"))
    then set_field creativeData "attributes"
           (or_else (prop creativeOptions "attributes")
              (prop creativeOptions "creative_attributes"))
    else creativeData in
  let creativeData :=
    if truthy creativeAssetId
    then set_field creativeData "creative_asset_id" creativeAssetId
    else creativeData in
  creativeResponse <- CreativeResource.create (VObj creativeData) ;;
  if negb (truthy (prop creativeResponse "success"))
     || negb (truthy (prop creativeResponse "payload"))
  then ret result
  else
    let creative := prop creativeResponse "payload" in
    let result := push_creative result creative in
    if negb (truthy (prop creative "creative_id"))
       || negb (truthy (prop lineItem "line_item_id"))
    then ret result
    else
      let cliData :=
        obj [("creative_id", prop creative "creative_id");
             ("line_item_id", prop lineItem "line_item_id");
             ("active", VBool true);
             ("weighting", num 100)] in
      cliResponse <- BaseResource.create creativeLineItems cliData ;;
      if truthy (prop cliResponse "success") && truthy (prop cliResponse "payload")
      then ret (push_cli result (prop cliResponse "payload"))
      else ret result.

(** Step 3, one line item with its creatives. *)
Definition createFullCampaign_line_item (options campaign : value) (result : full)
           (lineItemOptions : value) : M number full :=
  name <- getp lineItemOptions "name" ;;
  lineItemResponse <-
    BeeswaxClientHelpers.createLineItem
      (obj [("campaign_id", prop campaign "campaign_id");
            ("name", or_else name (prop lineItemOptions "line_item_name"));
            ("type", or_else (prop lineItemOptions "type") (VStr "banner"));
            ("guaranteed", or_else (prop lineItemOptions "guaranteed") (VBool false));
            ("currency", or_else (prop lineItemOptions "currency") (VStr "USD"));
            ("budget_type", or_else (prop lineItemOptions "budget_type")
                              (VStr "spend including vendor fees"));
            ("spend_budget",
             or_else (prop lineItemOptions "spend_budget")
               (BeeswaxClientHelpers.default_spend_budget
                  (or_else (or_else (prop lineItemOptions "budget")
                              (prop lineItemOptions "line_item_budget")) (num 0))));
            ("bidding", or_else (prop lineItemOptions "bidding")
                          (BeeswaxClientHelpers.default_bidding
                             (prop lineItemOptions "bid_price")));
            ("frequency_caps", prop lineItemOptions "frequency_caps");
            ("targeting", prop lineItemOptions "targeting");
            ("targeting_expression_id", prop lineItemOptions "targeting_expression_id");
            ("start_date", prop lineItemOptions "start_date");
            ("end_date", prop lineItemOptions "end_date");
            ("active", or_else (prop lineItemOptions "active") (VBool false))]) ;;
  if negb (truthy (prop lineItemResponse "success"))
     || negb (truthy (prop lineItemResponse "payload"))
  then ret result
  else
    let lineItem := prop lineItemResponse "payload" in
    let result := push_line_item result lineItem in
    if truthy (prop lineItemOptions "creatives")
    then creativeList <- iterate (prop lineItemOptions "creatives") ;;
         for_each creativeList result (createFullCampaign_creative options lineItem)
    else ret result.

Definition createFullCampaign (options : value) : M number value :=
  try_catch
    (advertiser_id <- getp options "advertiser_id" ;;
     let campaignData :=
       obj [("advertiser_id", advertiser_id);
            ("name", or_else (prop options "name") (prop options "campaign_name"));
            ("budget", or_else (prop options "budget") (prop options "campaign_budget"));
            ("budget_type", or_else (prop options "budget_type") (num 2));
            ("start_date", prop options "start_date");
            ("end_date", prop options "end_date");
            ("active", VBool false)] in
     campaignResponse <- CampaignResource.create campaignData ;;
     if negb (truthy (prop campaignResponse "success"))
        || negb (truthy (prop campaignResponse "payload"))
     then throw (JsError "Failed to create campaign")
     else
       let campaign := prop campaignResponse "payload" in
       if negb (truthy (prop campaign "campaign_id"))
       then throw (JsError "Campaign ID not returned from API")
       else
         let result := mkFull campaign [] [] [] [] in
         result <- (if truthy (prop options "targeting_templates")
                    then templates <- iterate (prop options "targeting_templates") ;;
                         for_each templates result (createFullCampaign_template options)
                    else ret result) ;;
         lineItemList <- iterate (prop options "line_items") ;;
         result <- for_each lineItemList result
                     (createFullCampaign_line_item options campaign) ;;
         succeeded (payload_of result))
    (fun error => ret (failure error "Failed to create full campaign")).

(** The properties left out of the template of the new campaign. *)
Definition campaign_read_only : list string :=
  ["campaign_id"; "created_date"; "updated_date"; "create_date"; "update_date";
   "push_status"; "push_update"; "campaign_spend"; "buzz_key"; "last_active"].

Definition line_item_read_only : list string :=
  ["line_item_id"; "created_date"; "updated_date"; "create_date"; "update_date";
   "push_status"; "push_update"; "line_item_spend"; "line_item_impressions";
   "buzz_key"; "last_active"; "line_item_version"; "has_skad_assignment";
   "account_id"].

(** [const { k1: _, ..., ...rest } = v] *)
Definition rest_without (excluded : list string) (v : value) : list (string * value) :=
  fold_left delete_field excluded (spread v).

(** One creative association of a cloned line item. *)
Definition cloneCampaign_cli (newLineItem : value) (result : full) (cli : value)
  : M number full :=
  if negb (truthy (prop newLineItem "line_item_id"))
  then ret result
  else
    creative_id <- getp cli "creative_id" ;;
    let newCliData :=
      obj [("creative_id", creative_id);
           ("line_item_id", prop newLineItem "line_item_id");
           ("active", prop cli "active");
           ("weighting", prop cli "weighting")] in
    newCliResponse <- BaseResource.create creativeLineItems newCliData ;;
    if truthy (prop newCliResponse "success") && truthy (prop newCliResponse "payload")
    then ret (push_cli result (prop newCliResponse "payload"))
    else ret result.

(** The request body of the clone of one line item. *)
Definition cloned_line_item (newCampaign options lineItem : value) : value :=
  let newLineItemData :=
    set_field (rest_without line_item_read_only lineItem) "campaign_id"
      (prop newCampaign "campaign_id") in
  VObj (if truthy (opt_prop options "budget_multiplier")
        then set_field newLineItemData "line_item_budget"
               (times (or_else (prop lineItem "line_item_budget") (num 0))
                  (prop options "budget_multiplier"))
        else newLineItemData).

(** One line item of the source campaign. *)
Definition cloneCampaign_line_item (newCampaign options : value) (result : full)
           (lineItem : value) : M number full :=
  _ <- getp lineItem "line_item_id" ;;
  newLineItemResponse <-
    LineItemResource.create (cloned_line_item newCampaign options lineItem) ;;
  result <-
    (if truthy (prop newLineItemResponse "success")
        && truthy (prop newLineItemResponse "payload")
     then
       let result := push_line_item result (prop newLineItemResponse "payload") in
       if negb (is_false (opt_prop options "clone_creatives"))
       then
         cliResponse <- BaseResource.query creativeLineItems
                          (obj [("line_item_id", prop lineItem "line_item_id")]) ;;
         if truthy (prop cliResponse "success") && truthy (prop cliResponse "payload")
         then cliList <- iterate (prop cliResponse "payload") ;;
              for_each cliList result
                (cloneCampaign_cli (prop newLineItemResponse "payload"))
         else ret result
       else ret result
     else ret result) ;;
  delay 100 ;;;
  ret result.

(** The request body of the new campaign. *)
Definition cloned_campaign (originalCampaign newName options : value) : value :=
  let d := set_field (rest_without campaign_read_only originalCampaign) "name" newName in
  let d := if truthy (opt_prop options "start_date")
           then set_field d "start_date" (prop options "start_date") else d in
  let d := if truthy (opt_prop options "end_date")
           then set_field d "end_date" (prop options "end_date") else d in
  let d := if truthy (opt_prop options "budget_multiplier")
           then set_field d "campaign_budget"
                  (times (or_else (prop originalCampaign "campaign_budget") (num 0))
                     (prop options "budget_multiplier"))
           else d in
  VObj d.

Definition cloneCampaign (campaignId newName options : value) : M number value :=
  try_catch
    (campaignResponse <- BaseResource.find campaigns campaignId ;;
     if negb (truthy (prop campaignResponse "success"))
        || negb (truthy (prop campaignResponse "payload"))
     then throw (JsError "Campaign not found")
     else
       let originalCampaign := prop campaignResponse "payload" in
       newCampaignResponse <-
         CampaignResource.create (cloned_campaign originalCampaign newName options) ;;
       if negb (truthy (prop newCampaignResponse "success"))
          || negb (truthy (prop newCampaignResponse "payload"))
       then throw (JsError "Failed to create new campaign")
       else
         let newCampaign := prop newCampaignResponse "payload" in
         if negb (truthy (prop newCampaign "campaign_id"))
         then throw (JsError "New campaign ID not returned from API")
         else
           let result := mkFull newCampaign [] [] [] [] in
           lineItemsResponse <- BaseResource.query lineItems
                                  (obj [("campaign_id", campaignId)]) ;;
           result <-
             (if truthy (prop lineItemsResponse "success")
                 && truthy (prop lineItemsResponse "payload")
              then lineItemList <- iterate (prop lineItemsResponse "payload") ;;
                   for_each lineItemList result
                     (cloneCampaign_line_item newCampaign options)
              else ret result) ;;
           succeeded (payload_of result))
    (fun error => ret (failure error "Failed to clone campaign")).

(** The edits of [bulkUpdateCampaignStatus]; the counters are the
    integers held by [updated] and [failed]. *)
Definition bulkUpdate_step (active : value) (counts : Z * Z) (campaignId : value)
  : M number (Z * Z) :=
  counts <-
    try_catch
      (response <- CampaignResource.edit campaignId (obj [("active", active)]) false ;;
       if truthy (prop response "success")
       then ret (fst counts + 1, snd counts)%Z
       else ret (fst counts, snd counts + 1)%Z)
      (fun _error => ret (fst counts, snd counts + 1)%Z) ;;
  delay 50 ;;;
  ret counts.

Definition bulkUpdateCampaignStatus (campaignIds : list value) (active : value)
  : M number value :=
  counts <- for_each campaignIds (0, 0)%Z (bulkUpdate_step active) ;;
  ret (obj [("success", VBool true);
            ("payload", obj [("updated", num (fst counts));
                             ("failed", num (snd counts))])]).

(** The report requested by [getCampaignPerformance]; [campaign] is the
    campaign identifier as the template literal of the name prints it. *)
Definition reportData (campaignId startDate endDate : value) (campaign : string)
  : value :=
  obj [("advertiser_id", num 0);
       ("report_name", VStr ("Campaign " ++ campaign ++ " Performance"));
       ("report_type", VStr "campaign_performance");
       ("dimensions", VArr [VStr "campaign_id"; VStr "date"]);
       ("metrics", VArr [VStr "impressions"; VStr "clicks";
                         VStr "conversions"; VStr "spend"]);
       ("filters", obj [("campaign_id", campaignId)]);
       ("start_date", startDate);
       ("end_date", endDate)].

(** The object returned by the [catch] of [getCampaignPerformance];
    [text] is the result of [error.toString()]. *)
Definition performance_failure (error : thrown number) (text : value) : value :=
  obj [("success", VBool false);
       ("message", or_else (error_message error)
                     (VStr "Failed to get campaign performance"));
       ("errors", VArr [text])].

(** The body of the [try] of [getCampaignPerformance]. *)
Definition create_report (campaignId startDate endDate : value) : M number value :=
  campaign <- to_String campaignId ;;
  BaseResource.create reports (reportData campaignId startDate endDate campaign).

(** [error.toString()] is evaluated inside the [catch]: what it throws
    leaves the macro. *)
Definition getCampaignPerformance (campaignId startDate endDate : value)
  : M number value :=
  try_catch
    (create_report campaignId startDate endDate)
    (fun error =>
       text <- completed (error_toString error) ;;
       ret (performance_failure error text)).

(** One item of [bulkCreateLineItems]; the state is [(created, errors)].
    An item is an object, given by its properties.  The template literals
    convert [item.name] and [error.message] to strings; those of the
    [catch] are evaluated outside any [try]. *)
Definition bulkCreate_step (campaignId : value)
           (state : list value * list value) (item : list (string * value))
  : M number (list value * list value) :=
  state <-
    try_catch
      (lifetime <- to_String (field item "budget") ;;
       response <-
         BeeswaxClientHelpers.createLineItem
           (obj [("campaign_id", campaignId);
                 ("name", field item "name");
                 ("type", VStr "banner");
                 ("budget_type", VStr "spend including vendor fees");
                 ("spend_budget",
                  obj [("lifetime", VStr lifetime); ("include_fees", VBool true)]);
                 ("bidding", BeeswaxClientHelpers.default_bidding (field item "bid_price"));
                 ("targeting", field item "targeting");
                 ("active", VBool false)]) ;;
       if truthy (prop response "success") && truthy (prop response "payload")
       then ret (fst state ++ [prop response "payload"], snd state)%list
       else
         name <- to_String (field item "name") ;;
         ret (fst state,
              snd state ++ [VStr ("Failed to create line item: " ++ name)])%list)
      (fun error =>
         name <- to_String (field item "name") ;;
         message <- to_String (error_message error) ;;
         ret (fst state,
              snd state ++ [VStr ("Error creating line item " ++ name ++ ": "
                                  ++ message)])%list) ;;
  delay 100 ;;;
  ret state.

Definition bulkCreateLineItems (campaignId : value) (lineItemList : list (list (string * value)))
  : M number value :=
  campaignResponse <- BaseResource.find campaigns campaignId ;;
  if negb (truthy (prop campaignResponse "success"))
     || negb (truthy (prop campaignResponse "payload"))
  then ret (obj [("success", VBool false); ("message", VStr "Campaign not found")])
  else
    state <- for_each lineItemList ([], []) (bulkCreate_step campaignId) ;;
    ret (obj [("success", VBool (Nat.eqb (List.length (snd state)) 0));
              ("payload", VArr (fst state));
              ("errors", match snd state with
                         | [] => VUndefined
                         | _ => VArr (snd state)
                         end)]).
End Methods.
End CampaignMacros.

(** ** An instance of the runtime over the integers

    Used to run the model on concrete inputs: numbers are integers and the
    printing functions, whose results no control flow depends on, return
    fixed strings; so do the functions of [Object.prototype], which the
    runs below never call. *)
#[export] Instance Z_runtime : JsRuntime Z := {|
  num_of_Z := fun z => z;
  num_mul := Z.mul;
  num_falsy := fun z => Z.eqb z 0;
  String_of := fun _ => "?";
  JSON_stringify := fun _ => "{...}";
  JSON_stringify_axios := fun _ _ => "{...}";
  toString_of := fun _ => "?";
  times_coerced := fun _ _ => 0%Z;
  parseInt := fun _ => 0%Z;
  call_method := fun _ _ => inl (VStr "?")
|}.

(** A server that answers the successive calls with the given replies and
    then loses the connection. *)
Definition script {number : Type} (rs : list (reply number)) : world number :=
  mkWorld (fun n => nth n rs (Rejects "Network Error" None)) 0 [].

(** A successful response with the given body. *)
Definition ok {number : Type} (body : value number) : reply number :=
  Fulfils (mkResponse 200 body (VObj [])).

(** A failure with an HTTP status and a body. *)
Definition http_error {number : Type} (code : Z) (body : value number) : reply number :=
  Rejects "Request failed" (Some (mkResponse code body (VObj []))).

(** ** Predicates on computations *)

Section Outcomes.
Context {number : Type}.

(** [m] settles by resolving, whatever the world does. *)
Definition never_rejects {A} (m : M number A) : Prop :=
  forall w, exists a w', m w = (Resolved a, w').

(** Every value [m] resolves to satisfies [Q]. *)
Definition resolves_in {A} (m : M number A) (Q : A -> Prop) : Prop :=
  forall w a w', m w = (Resolved a, w') -> Q a.
End Outcomes.

(** ** Functions used in the statements *)

Section Statements.
Context {number : Type} `{JsRuntime number}.
#[local] Abbreviation value := (value number).

(** The creative type stored for a string [s]. *)
Definition creative_type_code (s : string) : value :=
  let k := toLowerCase s in
  if String.eqb "display" k then num 0
  else if String.eqb "banner" k then num 0
  else if String.eqb "video" k then num 1
  else if String.eqb "native" k then num 2
  else if existsb (String.eqb k) Object_prototype_names
       then VHost (ObjectPrototypeMember k)
       else VStr s.

(** The edit of one campaign in [bulkUpdateCampaignStatus] counts as
    updated when it returns a response with a truthy [success]. *)
Definition edit_succeeded (r : settled number value) : bool :=
  match r with
  | Resolved response => truthy (prop response "success")
  | Rejected _ => false
  end.

(** The outcomes of [campaigns.edit(id, { active })] for the ids of a
    list, one after the other, each in the world the previous one left. *)
Fixpoint edits (active : value) (ids : list value) (w : world number)
  : list (settled number value) * world number :=
  match ids with
  | [] => ([], w)
  | id :: rest =>
      let (r, w1) := CampaignResource.edit id (obj [("active", active)]) false w in
      let (rs, w2) := edits active rest w1 in
      (r :: rs, w2)
  end.

(** The reply [r] is a page holding the records [items]: a response
    whose body does not declare failure and whose [payload] is the array
    [items] (or is missing, for no record). *)
Definition page_reply (r : reply number) (items : list value) : Prop :=
  exists resp,
    r = Fulfils resp
    /\ nullish (data resp) = false
    /\ is_false (prop (data resp) "success") = false
    /\ or_else (prop (data resp) "payload") (VArr []) = VArr items.

(** The request of [queryAll] for the page at [offset]. *)
Definition page_request (this : resource) (body : value) (offset : Z) : call number :=
  mkCall "GET" (endpoint this)
    (VObj (assign (spread body)
             [("rows", num 50); ("offset", num offset);
              ("sort_by", VStr (idField this))]))
    VUndefined VUndefined.

(** The world after one more call. *)
Definition after_call (w : world number) (c : call number) : world number :=
  mkWorld (replies w) (S (cursor w)) (sent w ++ [c]).

(** [m] always resolves, to a value that satisfies [Q]. *)
Definition always_resolves_in {A} (m : M number A) (Q : A -> Prop) : Prop :=
  forall w, exists a w', m w = (Resolved a, w') /\ Q a.

(** What the macros with a [catch] at their top resolve to: the payload
    under [success: true], or the caught error under [success: false]
    with its message and its serialization. *)
Definition macro_response (fallback : string) (r : value) : Prop :=
  (exists payload, r = obj [("success", VBool true); ("payload", payload)])
  \/ (exists error, r = CampaignMacros.failure error fallback).

Definition has_boolean_success (r : value) : Prop :=
  exists b, prop r "success" = VBool b.

(** [v] is the body of a failed response of the server. *)
Definition failure_body (w : world number) (v : value) : Prop :=
  exists n m r, replies w n = Rejects m (Some r) /\ v = data r.

(** What the calls of the client throw in the world [w]: [Error] objects,
    rejections of axios and bodies of failed responses. *)
Definition raised_in (w : world number) (e : thrown number) : Prop :=
  match e with
  | ThrownValue v => failure_body w v
  | _ => True
  end.

(** [m] leaves the replies of the server as they are and throws nothing
    but such errors. *)
Definition client_call {A} (m : M number A) : Prop :=
  forall w, replies (snd (m w)) = replies w
            /\ forall e, fst (m w) = Rejected e -> raised_in w e.

(** [v.toString()] returns. *)
Definition toString_returns (v : value) : bool :=
  match method_toString v with
  | inl _ => true
  | inr _ => false
  end.

(** The bodies of the failed responses of [w] can be printed with
    [toString()]. *)
Definition bodies_print (w : world number) : Prop :=
  forall n m r, replies w n = Rejects m (Some r) -> toString_returns (data r) = true.

(** The [message] of the body of every failed response of [w] converts
    to a string. *)
Definition messages_convert (w : world number) : Prop :=
  forall n m r, replies w n = Rejects m (Some r) ->
                converts (opt_prop (data r) "message") = true.

(** What a request throws when the server rejects it with the message
    [m] and the response [resp]. *)
Definition rejection (m : string) (resp : option (response number)) : thrown number :=
  match resp with
  | Some r => if truthy (data r) then ThrownValue (data r) else AxiosError m (Some r)
  | None => AxiosError m None
  end.

(** The calls [m] makes are appended to the log and all satisfy [P]. *)
Definition appends_only (P : call number -> Prop) {A} (m : M number A) : Prop :=
  forall w, exists cs, sent (snd (m w)) = (sent w ++ cs)%list /\ Forall P cs.

(** Creations of line items are the calls to the v2 endpoint. *)
Definition is_line_item_create (c : call number) : bool :=
  String.eqb (c_url c) "/rest/v2/line-items".

Definition line_item_create_call (body : value) : call number :=
  mkCall "POST" "/rest/v2/line-items" VUndefined body VUndefined.

Definition other_call (c : call number) : Prop := is_line_item_create c = false.

(** [(x || 0) * m] *)
Definition scaled (x m : value) : value := times (or_else x (num 0)) m.

Definition count_of {A} (f : A -> bool) (xs : list A) : Z :=
  Z.of_nat (List.length (filter f xs)).
End Statements.

(** ** Sample servers *)

Section Samples.
#[local] Abbreviation value := (value Z).
#[local] Open Scope Z_scope.

(** A page without record. *)
Definition empty_page : reply Z :=
  ok (obj [("success", VBool true); ("payload", VArr [])]).

Definition full_page : list value := repeat (VNum 1) 50.

Definition two_pages : world Z :=
  script [ok (obj [("success", VBool true); ("payload", VArr full_page)]);
          ok (obj [("success", VBool true); ("payload", VArr [])])].

Definition source_campaign : list (string * value) :=
  [("campaign_id", VNum 1); ("campaign_name", VStr "Orig");
   ("campaign_budget", VNum 10000)].

Definition source_line_item : value :=
  VObj [("line_item_id", VNum 5); ("campaign_id", VNum 1);
        ("line_item_budget", VNum 5000)].

Definition new_campaign : value :=
  VObj [("campaign_id", VNum 2); ("campaign_name", VStr "Orig");
        ("campaign_budget", VNum 20000)].

(** The server holds campaign 1 with one line item, creates campaign 2
    and line item 6, and has no creative association. *)
Definition clone_server : world Z :=
  script [ok (obj [("success", VBool true); ("payload", VArr [VObj source_campaign])]);
          ok (obj [("success", VBool true); ("payload", obj [("id", VNum 2)])]);
          ok (obj [("success", VBool true); ("payload", VArr [new_campaign])]);
          ok (obj [("success", VBool true); ("payload", VArr [source_line_item])]);
          ok (obj [("id", VNum 6)]);
          ok (obj [("success", VBool true); ("payload", VArr [])])].

Definition doubled : value := obj [("budget_multiplier", VNum 2)].

Definition two_items : list (list (string * value)) :=
  [[("name", VStr "First"); ("budget", VNum 500); ("bid_price", VNum 4)];
   [("name", VStr "Second"); ("budget", VNum 300); ("bid_price", VNum 2)]].

(** The server holds campaign 1 and creates line item 6 for the first
    item; the lookup made for the second item is refused. *)
Definition bulk_server : world Z :=
  script [ok (obj [("success", VBool true); ("payload", VArr [VObj source_campaign])]);
          ok (obj [("success", VBool true); ("payload", VArr [VObj source_campaign])]);
          ok (obj [("id", VNum 6)]);
          http_error 500 (obj [("message", VStr "busy")])].

(** An error body as [JSON.parse] builds it from
    [{"message": "bad", "toString": 1}]: the own property [toString]
    shadows the method of [Object.prototype]. *)
Definition shadowing_body : value :=
  VObj [("message", VStr "bad"); ("toString", VNum 1)].

(** The same inside [message]:
    [{"message": {"toString": 1}}]. *)
Definition shadowing_message : value :=
  VObj [("message", VObj [("toString", VNum 1)])].

End Samples.

(* ================================================================= *)
(** * The Session Manager as an event system *)
(* ================================================================= *)

(** The asynchronous functions [authenticate], [performAuthentication] and
    the rejected-response interceptor of [setupInterceptors] are cut at
    their [await]s.  Each piece runs to completion (JavaScript has one
    thread); what is left of a function after an [await] is resumed by a
    job of the microtask queue, in the order in which the reactions were
    registered on the awaited promise.  The events are the calls made by
    user code, the responses of the network and the run of one job. *)

Module Session.
#[local] Open Scope list_scope.

(** How a promise settled. *)
Inductive settlement : Type := Fulfilled | Failed.

(** Who called [authenticate()]: user code, the interceptor handling the
    401 of request [r], or the interceptor handling the 401 of the login
    POST of attempt [p] (the login goes through the same axios instance). *)
Inductive origin : Type :=
| User
| RequestInterceptor (r : nat)
| LoginInterceptor (p : nat).

(** The promise of one run of [performAuthentication], stored in
    [this.authPromise]:
    - [InFlight retried]: [POST /rest/authenticate] awaits its response,
      [retried] being the [_retry] flag of its config;
    - [AwaitingCall c]: the interceptor set [_retry] and awaits the
      [authenticate()] call [c] before it replays the POST;
    - [Settled o]. *)
Inductive attempt_state : Type :=
| InFlight (retried : bool)
| AwaitingCall (c : nat)
| Settled (o : settlement).

Record attempt : Type := mkAttempt {
  state : attempt_state;
  creator : nat               (* the call that started it and awaits it *)
}.

(** One call of [authenticate()]: the attempt it started or was handed,
    whether it started it, who called, how its own promise settled. *)
Record auth_call : Type := mkAuthCall {
  joined : nat;
  started : bool;
  from : origin;
  outcome : option settlement
}.

(** How a request through the axios instance ended. *)
Inductive result : Type :=
| Succeeded
| Unauthorized            (* the 401 of the replayed request *)
| OtherError
| AuthenticationFailed.   (* the rejection of [authenticate()] *)

Inductive phase : Type :=
| Dispatched              (* the HTTP exchange is in flight *)
| AwaitingAuth (c : nat)  (* the interceptor awaits [authenticate()] call [c] *)
| Done (o : result).

Record request : Type := mkRequest {
  retry : bool;             (* [config._retry] *)
  at_phase : phase;
  dispatches : nat;         (* times the request was handed to axios *)
  authentications : nat     (* times its interceptor called [authenticate()] *)
}.

(** A microtask resumes a call of [authenticate()] whose attempt has
    settled: [Finally c] is the rest of the call that started the attempt
    (the [finally] block), [Adopt c] settles the promise of a call that
    returned [this.authPromise]. *)
Inductive job : Type :=
| Finally (c : nat)
| Adopt (c : nat).

Record client : Type := mkClient {
  authPromise : option nat;
  attempts : list attempt;
  calls : list auth_call;
  requests : list request;
  microtasks : list job;
  login_posts : nat           (* POSTs sent to the login endpoint *)
}.

Definition init : client := mkClient None [] [] [] [] 0.

(** The response to an HTTP exchange: a 2xx whose body does not declare
    failure, a 401, or any other failure. *)
Inductive status : Type := Ok | Status401 | OtherFailure.

Inductive event : Type :=
| Authenticate                         (* user code calls [authenticate()] *)
| Send                                 (* user code sends a request *)
| LoginResponse (p : nat) (s : status) (* the login POST of attempt [p] is answered *)
| Response (r : nat) (s : status)      (* request [r] is answered *)
| Tick.                                (* the next microtask runs *)

Fixpoint set_nth {A : Type} (i : nat) (x : A) (l : list A) {struct l} : list A :=
  match l, i with
  | [], _ => []
  | _ :: rest, O => x :: rest
  | y :: rest, S i' => y :: set_nth i' x rest
  end.

Definition is_settled (a : attempt_state) : bool :=
  match a with
  | Settled _ => true
  | _ => false
  end.

Definition attempt_settled (s : client) (p : nat) : bool :=
  match nth_error (attempts s) p with
  | Some a => is_settled (state a)
  | None => false
  end.

Definition with_attempt (s : client) (p : nat) (a : attempt_state) : client :=
  match nth_error (attempts s) p with
  | Some old =>
      mkClient (authPromise s) (set_nth p (mkAttempt a (creator old)) (attempts s))
               (calls s) (requests s) (microtasks s) (login_posts s)
  | None => s
  end.

Definition with_request (s : client) (r : nat) (q : request) : client :=
  mkClient (authPromise s) (attempts s) (calls s) (set_nth r q (requests s))
           (microtasks s) (login_posts s).

Definition enqueue (s : client) (jobs : list job) : client :=
  mkClient (authPromise s) (attempts s) (calls s) (requests s)
           (microtasks s ++ jobs) (login_posts s).

(** [authenticate()] up to its [await]:

    [if (this.authPromise) return this.authPromise;] hands over the stored
    promise; the promise of the call adopts it, at once (by a microtask)
    when it is settled already.

    Otherwise [this.authPromise = this.performAuthentication()] sends the
    login POST, and the call awaits the new promise.

    The result is the new state and the number of the call. *)
Definition authenticate (who : origin) (s : client) : client * nat :=
  let c := List.length (calls s) in
  match authPromise s with
  | Some p =>
      let s' := mkClient (authPromise s) (attempts s)
                         (calls s ++ [mkAuthCall p false who None])
                         (requests s) (microtasks s) (login_posts s) in
      (if attempt_settled s p then enqueue s' [Adopt c] else s', c)
  | None =>
      let p := List.length (attempts s) in
      (mkClient (Some p)
                (attempts s ++ [mkAttempt (InFlight false) c])
                (calls s ++ [mkAuthCall p true who None])
                (requests s) (microtasks s) (S (login_posts s)), c)
  end.

(** The calls that returned the promise of attempt [p] and are pending. *)
Fixpoint adopters_from (p : nat) (c : nat) (cs : list auth_call) : list job :=
  match cs with
  | [] => []
  | call :: rest =>
      if Nat.eqb (joined call) p && negb (started call)
         && match outcome call with None => true | Some _ => false end
      then Adopt c :: adopters_from p (S c) rest
      else adopters_from p (S c) rest
  end.

(** [performAuthentication] returns or throws: its promise settles and the
    reactions registered on it are queued, the [await] of the call that
    started it first. *)
Definition settle_attempt (p : nat) (o : settlement) (s : client) : client :=
  match nth_error (attempts s) p with
  | Some a =>
      enqueue (with_attempt s p (Settled o))
              (Finally (creator a) :: adopters_from p 0 (calls s))
  | None => s
  end.

Definition with_outcome (s : client) (c : nat) (o : settlement) : client :=
  match nth_error (calls s) c with
  | Some call =>
      mkClient (authPromise s) (attempts s)
               (set_nth c (mkAuthCall (joined call) (started call) (from call) (Some o))
                        (calls s))
               (requests s) (microtasks s) (login_posts s)
  | None => s
  end.

(** The promise of call [c] settles and its caller goes on.  In the
    interceptor, [await this.authenticate(); return this.axiosInstance
    (error.config);] replays the request (the config keeps [_retry]); a
    rejection of [authenticate()] rejects the request.  For the login POST
    the replay is a POST to the login endpoint, and a rejection makes
    [performAuthentication] throw. *)
Definition settle_call (c : nat) (o : settlement) (s : client) : client :=
  match nth_error (calls s) c with
  | Some call =>
      let s := with_outcome s c o in
      match from call with
      | User => s
      | RequestInterceptor r =>
          match nth_error (requests s) r with
          | Some q =>
              match o with
              | Fulfilled =>
                  with_request s r (mkRequest (retry q) Dispatched (S (dispatches q))
                                              (authentications q))
              | Failed =>
                  with_request s r (mkRequest (retry q) (Done AuthenticationFailed)
                                              (dispatches q) (authentications q))
              end
          | None => s
          end
      | LoginInterceptor p =>
          match o with
          | Fulfilled =>
              let s := with_attempt s p (InFlight true) in
              mkClient (authPromise s) (attempts s) (calls s) (requests s)
                       (microtasks s) (S (login_posts s))
          | Failed => settle_attempt p Failed s
          end
      end
  | None => s
  end.

(** A call is resumed once, with the settlement of its attempt. *)
Definition resume (c : nat) (s : client) : client :=
  match nth_error (calls s) c with
  | Some call =>
      match outcome call, nth_error (attempts s) (joined call) with
      | None, Some a =>
          match state a with
          | Settled o => settle_call c o s
          | _ => s
          end
      | _, _ => s
      end
  | None => s
  end.

(** The response to the login POST reaches the interceptors and then
    [performAuthentication].  A first 401 is taken by the interceptor:
    [error.config._retry = true; await this.authenticate(); ...]. *)
Definition login_response (p : nat) (st : status) (s : client) : client :=
  match nth_error (attempts s) p with
  | Some a =>
      match state a with
      | InFlight retried =>
          match st with
          | Ok => settle_attempt p Fulfilled s
          | Status401 =>
              if retried then settle_attempt p Failed s
              else let (s', c) := authenticate (LoginInterceptor p) s in
                   with_attempt s' p (AwaitingCall c)
          | OtherFailure => settle_attempt p Failed s
          end
      | _ => s
      end
  | None => s
  end.

(** The response to a request reaches the interceptor:
    [if (error.response?.status === 401 && !error.config._retry)]. *)
Definition request_response (r : nat) (st : status) (s : client) : client :=
  match nth_error (requests s) r with
  | Some q =>
      match at_phase q with
      | Dispatched =>
          match st with
          | Ok => with_request s r (mkRequest (retry q) (Done Succeeded)
                                              (dispatches q) (authentications q))
          | Status401 =>
              if retry q
              then with_request s r (mkRequest (retry q) (Done Unauthorized)
                                               (dispatches q) (authentications q))
              else let (s', c) := authenticate (RequestInterceptor r) s in
                   with_request s' r (mkRequest true (AwaitingAuth c) (dispatches q)
                                                (S (authentications q)))
          | OtherFailure =>
              with_request s r (mkRequest (retry q) (Done OtherError)
                                          (dispatches q) (authentications q))
          end
      | _ => s
      end
  | None => s
  end.

Definition send (s : client) : client :=
  mkClient (authPromise s) (attempts s) (calls s)
           (requests s ++ [mkRequest false Dispatched 1 0])
           (microtasks s) (login_posts s).

(** The next microtask.  [Finally c] runs
    [finally { this.authPromise = undefined; }] and settles the call. *)
Definition tick (s : client) : client :=
  match microtasks s with
  | [] => s
  | j :: rest =>
      match j with
      | Finally c =>
          resume c (mkClient None (attempts s) (calls s) (requests s) rest
                             (login_posts s))
      | Adopt c =>
          resume c (mkClient (authPromise s) (attempts s) (calls s) (requests s) rest
                             (login_posts s))
      end
  end.

Definition step (e : event) (s : client) : client :=
  match e with
  | Authenticate => fst (authenticate User s)
  | Send => send s
  | LoginResponse p st => login_response p st s
  | Response r st => request_response r st s
  | Tick => tick s
  end.

Definition run (events : list event) (s : client) : client :=
  fold_left (fun s e => step e s) events s.

(** The states the client can be in. *)
Definition reachable (s : client) : Prop := exists events, s = run events init.

(** Login POSTs awaiting their response. *)
Definition logins_in_flight (s : client) : nat :=
  List.length (filter (fun a => match state a with
                                | InFlight _ => true
                                | _ => false
                                end) (attempts s)).

Definition unsettled (s : client) (p : nat) : Prop :=
  exists a, nth_error (attempts s) p = Some a /\ is_settled (state a) = false.

Definition pending (s : client) (c : nat) : Prop :=
  exists call, nth_error (calls s) c = Some call /\ outcome call = None.

Definition is_finally (j : job) : bool :=
  match j with
  | Finally _ => true
  | Adopt _ => false
  end.

(** The counters of a request in each phase: the client hands a request
    to axios once, or twice with one [authenticate()] in between (a
    transport configured with [retryOptions] may re-send it below). *)
Definition request_counts (q : request) : Prop :=
  match at_phase q with
  | Dispatched | Done Succeeded | Done OtherError =>
      (retry q = false /\ dispatches q = 1 /\ authentications q = 0)
      \/ (retry q = true /\ dispatches q = 2 /\ authentications q = 1)
  | AwaitingAuth _ | Done AuthenticationFailed =>
      retry q = true /\ dispatches q = 1 /\ authentications q = 1
  | Done Unauthorized =>
      retry q = true /\ dispatches q = 2 /\ authentications q = 1
  end.

(** What holds in every reachable state. *)
Record invariant (s : client) : Prop := mkInvariant {
  unsettled_is_stored :
    forall p, unsettled s p -> authPromise s = Some p;
  login_interceptor_waits :
    forall c call q,
      nth_error (calls s) c = Some call ->
      from call = LoginInterceptor q -> outcome call = None ->
      joined call = q
      /\ exists a, nth_error (attempts s) q = Some a /\ state a = AwaitingCall c;
  finally_of_stored :
    forall c, In (Finally c) (microtasks s) ->
              exists p, authPromise s = Some p /\ attempt_settled s p = true;
  one_finally :
    List.length (filter is_finally (microtasks s)) <= 1;
  counts :
    forall r q, nth_error (requests s) r = Some q -> request_counts q;
  interceptor_waits :
    forall c call r,
      nth_error (calls s) c = Some call ->
      from call = RequestInterceptor r -> outcome call = None ->
      exists q, nth_error (requests s) r = Some q /\ at_phase q = AwaitingAuth c
}.

(** What a call of [authenticate()] by [who] does to a state [s] in which
    the invariant holds: [s'] is the state after it and [c] the call. *)
Record authenticated (who : origin) (s s' : client) (c : nat) : Prop := mkAuthenticated {
  call_number : c = List.length (calls s);
  new_call :
    exists p started,
      calls s' = calls s ++ [mkAuthCall p started who None]
      /\ authPromise s' = Some p
      /\ (forall p0, authPromise s = Some p0 ->
                     p0 = p /\ attempts s' = attempts s
                     /\ login_posts s' = login_posts s)
      /\ (authPromise s = None ->
          attempts s' = attempts s ++ [mkAttempt (InFlight false) c]
          /\ p = List.length (attempts s)
          /\ login_posts s' = S (login_posts s));
  old_attempts :
    forall p a, nth_error (attempts s) p = Some a -> nth_error (attempts s') p = Some a;
  same_requests : requests s' = requests s;
  still_unsettled_is_stored :
    forall p, unsettled s' p -> authPromise s' = Some p;
  still_finally_of_stored :
    forall c', In (Finally c') (microtasks s') ->
               exists p, authPromise s' = Some p /\ attempt_settled s' p = true;
  still_one_finally :
    List.length (filter is_finally (microtasks s')) <= 1
}.

(** Attempt [p] is blocked: its interceptor awaits a call that awaits
    [p]; [n] login POSTs were sent, and every call from number [k] on was
    handed [p] and is pending. *)
Record blocked (p n k : nat) (s : client) : Prop := mkBlocked {
  blocked_invariant : invariant s;
  blocked_attempt :
    exists a c, nth_error (attempts s) p = Some a /\ state a = AwaitingCall c;
  blocked_posts : login_posts s = n;
  blocked_calls :
    forall c call, nth_error (calls s) c = Some call -> k <= c ->
                   joined call = p /\ outcome call = None
}.

End Session.

(* ================================================================= *)
(** * Further definitions: helpers and the rest of the client *)
(* ================================================================= *)

Section Helpers.
Context {number : Type} `{JsRuntime number}.
#[local] Abbreviation value := (value number).

(** [o[k] = v] on an object created by [{}]: the key [__proto__] reaches
    the setter inherited from [Object.prototype] and creates no own
    property. *)
Definition store (fields : list (string * value)) (k : string) (v : value)
  : list (string * value) :=
  if String.eqb k "__proto__" then fields else set_field fields k v.

(** [v === ''] *)
Definition is_empty_string (v : value) : bool :=
  match v with
  | VStr s => String.eqb s ""
  | _ => false
  end.

(** [v === null] *)
Definition is_null (v : value) : bool :=
  match v with
  | VNull => true
  | _ => false
  end.

(** [cleanObject] of [src/utils/helpers.ts], on the entries of the
    object ([Object.entries(obj)]); the result is the list of the own
    properties of [cleaned]. *)
Definition cleanObject (entries : list (string * value)) : list (string * value) :=
  fold_left
    (fun cleaned kv =>
       if negb (is_undefined (snd kv)) && negb (is_null (snd kv))
          && negb (is_empty_string (snd kv))
       then store cleaned (fst kv) (snd kv)
       else cleaned)
    entries [].

(** The entries that [cleanObject] copies. *)
Definition kept (kv : string * value) : bool :=
  negb (is_undefined (snd kv)) && negb (is_null (snd kv))
  && negb (is_empty_string (snd kv)) && negb (String.eqb (fst kv) "__proto__").
End Helpers.

(** ** Functions used in the statements of Part IV *)

Section CallKinds.
Context {number : Type} `{JsRuntime number}.
#[local] Abbreviation value := (value number).

(** A call that reads or creates: no PUT, no DELETE. *)
Definition reads_or_creates (c : call number) : Prop :=
  c_method c = "GET" \/ c_method c = "POST" \/ c_method c = "HEAD".

Definition is_update (c : call number) : bool := String.eqb (c_method c) "PUT".

(** The update sent by [bulkUpdateCampaignStatus] for one campaign. *)
Definition status_update (active id : value) : call number :=
  mkCall "PUT" "/rest/campaign/strict" VUndefined
    (VObj [("active", active); ("campaign_id", id)]) VUndefined.

(** The endpoints of creatives. *)
Definition creative_call (c : call number) : Prop :=
  c_url c = "/rest/creative" \/ c_url c = "/rest/creative/strict".

(** The endpoints of the associations of creatives and line items. *)
Definition association_call (c : call number) : Prop :=
  c_url c = "/rest/creative_line_item" \/ c_url c = "/rest/creative_line_item/strict".
End CallKinds.

(** ** The utility methods of BeeswaxClient *)

Module BeeswaxClientUtilities.
Section Methods.
Context {number : Type} `{JsRuntime number}.
#[local] Abbreviation value := (value number).

(** [getCurrentUser()]: a call of the global [axios] (no interceptor),
    with the stored cookies; the body of a failed response is returned,
    not thrown.  [apiRoot] and [sessionCookies] are the fields of the
    client. *)
Definition getCurrentUser (apiRoot : string) (sessionCookies : value) : M number value :=
  try_catch
    (response <- axios (mkCall "GET" (apiRoot ++ "/rest/user/current")
                          VUndefined VUndefined
                          (obj [("Cookie", or_else sessionCookies (VStr ""))])) ;;
     ret (data response))
    (fun error =>
       if truthy (error_response_data error)
       then ret (error_response_data error)
       else throw error).

(** [getAccountInfo()] *)
Definition getAccountInfo : M number value :=
  BeeswaxClient.request "GET" "/rest/account" (mkOptions VUndefined VUndefined VUndefined).
End Methods.
End BeeswaxClientUtilities.

(** ** The cookies kept by the interceptors *)

Module Interceptors.
Section Cookies.
Context {number : Type} `{JsRuntime number}.
#[local] Abbreviation value := (value number).

(** [items.join(sep)]: [undefined] and [null] give the empty string. *)
Definition join (sep : string) (items : list value) : string :=
  String.concat sep
    (map (fun v => if nullish v then "" else js_String v) items).

(** The interceptor of fulfilled responses: [this.sessionCookies] after
    the response.  [join] exists on arrays only; [None] is the
    [TypeError] of a truthy [set-cookie] header that is not an array. *)
Definition save_cookies (sessionCookies : value) (r : response number) : option value :=
  let setCookies := prop (headers r) "set-cookie" in
  if truthy setCookies
  then match setCookies with
       | VArr items => Some (VStr (join "; " items))
       | _ => None
       end
  else Some sessionCookies.

(** The request interceptor: the headers of the request that leaves. *)
Definition add_cookies (sessionCookies : value) (config_headers : list (string * value))
  : list (string * value) :=
  if truthy sessionCookies
  then set_field config_headers "Cookie" sessionCookies
  else config_headers.

(** [this.sessionCookies] after the replies of a list, oldest first: a
    fulfilled response goes through [save_cookies], a rejected one
    through the other interceptor, which leaves the cookies alone. *)
Definition cookies_after (sessionCookies : value) (replies : list (reply number))
  : option value :=
  fold_left
    (fun jar r =>
       match jar, r with
       | Some c, Fulfils resp => save_cookies c resp
       | Some c, _ => Some c
       | None, _ => None
       end)
    replies (Some sessionCookies).

(** The last fulfilled response of the list with a truthy [set-cookie]
    header. *)
Fixpoint last_cookies (replies : list (reply number)) : option value :=
  match replies with
  | [] => None
  | r :: rest =>
      match last_cookies rest with
      | Some c => Some c
      | None =>
          match r with
          | Fulfils resp =>
              if truthy (prop (headers resp) "set-cookie")
              then Some (prop (headers resp) "set-cookie")
              else None
          | _ => None
          end
      end
  end.
End Cookies.
End Interceptors.

(** ** Terms of the statements on the Session Manager *)

Module SessionTerms.
Import Session.
#[local] Open Scope list_scope.

(** An event that neither calls [authenticate()] nor answers a request
    with 401. *)
Definition quiet (e : event) : bool :=
  match e with
  | Authenticate => false
  | Response _ Status401 => false
  | _ => true
  end.

(** Every call of [authenticate()] that has settled did so as the attempt
    it was handed. *)
Definition outcomes_agree (s : client) : Prop :=
  forall c call o,
    nth_error (calls s) c = Some call -> outcome call = Some o ->
    exists a, nth_error (attempts s) (joined call) = Some a /\ state a = Settled o.
End SessionTerms.

(** ** More sample servers and inputs *)

Section MoreSamples.
#[local] Abbreviation value := (value Z).
#[local] Open Scope Z_scope.

(** A server that answers every request with a full page. *)
Definition endless_pages : world Z :=
  mkWorld (fun _ => ok (obj [("success", VBool true); ("payload", VArr full_page)])) 0 [].

(** One full page, then the connection is lost. *)
Definition one_page_then_offline : world Z :=
  script [ok (obj [("success", VBool true); ("payload", VArr full_page)])].

(** The error body in which [isNotFoundError] finds its messages. *)
Definition not_found_body (message : string) : value :=
  obj [("error", obj [("payload", VArr [obj [("message", VArr [VStr message])]])])].

Definition not_found_response (message : string) : response Z :=
  mkResponse 404 (not_found_body message) (VObj []).



Definition line_item_params : list (string * value) :=
  [("campaign_id", VNum 1); ("line_item_name", VStr "First"); ("budget", VNum 500);
   ("cpm_bid", VNum 4)].

Definition asset_params : list (string * value) :=
  [("advertiser_id", VNum 3);
   ("sourceUrl", VStr "https://cdn.example.com/assets/banner.png")].

(** Options of a full campaign with one targeting template and no line
    item, and a server that creates the campaign as number 2. *)
Definition template_options : value :=
  VObj [("advertiser_id", VNum 3); ("name", VStr "Spring");
        ("targeting_templates",
         VArr [VObj [("targeting_template_name", VStr "Everyone")]]);
        ("line_items", VArr [])].

Definition template_server : world Z :=
  script [ok (obj [("success", VBool true); ("payload", obj [("id", VNum 2)])]);
          ok (obj [("success", VBool true);
                   ("payload", VArr [VObj [("campaign_id", VNum 2)]])])].

Definition new_dates : value :=
  VObj [("start_date", VStr "2027-01-01"); ("end_date", VStr "2027-03-31")].

Definition dated_line_item : list (string * value) :=
  [("line_item_id", VNum 5); ("campaign_id", VNum 1);
   ("start_date", VStr "2026-01-01"); ("end_date", VStr "2026-03-31")].

Definition sparse_entries : list (string * value) :=
  [("a", VNum 0); ("b", VStr ""); ("c", VNull); ("d", VBool false);
   ("e", VUndefined); ("f", VStr "x")].

(** Two responses, the first of which sets two cookies, with a failed
    request in between. *)
Definition cookie_replies : list (reply Z) :=
  [Fulfils (mkResponse 200 (VObj [])
              (VObj [("set-cookie", VArr [VStr "sessionid=1"; VStr "csrf=2"])]));
   Rejects "Request failed"
     (Some (mkResponse 500 (VObj []) (VObj [("set-cookie", VArr [VStr "late=3"])])));
   Fulfils (mkResponse 200 (VObj []) (VObj []))].
End MoreSamples.

(* ================================================================= *)
(** * Part II: properties of the Resource Client and of the macros *)
(* ================================================================= *)

Section ObjectFacts.
Context {number : Type} `{JsRuntime number}.
#[local] Abbreviation value := (value number).

Lemma own_set_same (fields : list (string * value)) k v :
  own (set_field fields k v) k = Some v.
Proof.
  induction fields as [|[k' v'] rest IH]; simpl.
  - now rewrite String.eqb_refl.
  - destruct (String.eqb k' k) eqn:E; simpl.
    + now rewrite String.eqb_refl.
    + now rewrite E.
Qed.

Lemma own_set_other (fields : list (string * value)) k k' v :
  k <> k' -> own (set_field fields k v) k' = own fields k'.
Proof.
  intros Hne. induction fields as [|[k0 v0] rest IH]; simpl.
  - destruct (String.eqb k k') eqn:E; [apply String.eqb_eq in E; contradiction | reflexivity].
  - destruct (String.eqb k0 k) eqn:E; simpl.
    + apply String.eqb_eq in E. subst k0.
      destruct (String.eqb k k') eqn:E'; [apply String.eqb_eq in E'; contradiction | reflexivity].
    + destruct (String.eqb k0 k'); [reflexivity | exact IH].
Qed.

Lemma own_delete_same (fields : list (string * value)) k :
  own (delete_field fields k) k = None.
Proof.
  induction fields as [|[k' v'] rest IH]; simpl; [reflexivity|].
  destruct (String.eqb k' k) eqn:E; simpl; [exact IH | now rewrite E].
Qed.

Lemma own_delete_other (fields : list (string * value)) k k' :
  k <> k' -> own (delete_field fields k) k' = own fields k'.
Proof.
  intros Hne. induction fields as [|[k0 v0] rest IH]; simpl; [reflexivity|].
  destruct (String.eqb k0 k) eqn:E; simpl.
  - apply String.eqb_eq in E. subst k0.
    destruct (String.eqb k k') eqn:E'; [apply String.eqb_eq in E'; contradiction | exact IH].
  - destruct (String.eqb k0 k'); [reflexivity | exact IH].
Qed.

Lemma prop_set_same (fields : list (string * value)) k v :
  prop (VObj (set_field fields k v)) k = v.
Proof. simpl. now rewrite own_set_same. Qed.

Lemma prop_set_other (fields : list (string * value)) k k' v :
  k <> k' -> prop (VObj (set_field fields k v)) k' = prop (VObj fields) k'.
Proof. intros. simpl. now rewrite own_set_other. Qed.

Lemma prop_delete_same (fields : list (string * value)) k :
  prop (VObj (delete_field fields k)) k = VUndefined.
Proof. simpl. now rewrite own_delete_same. Qed.

Lemma prop_delete_other (fields : list (string * value)) k k' :
  k <> k' -> prop (VObj (delete_field fields k)) k' = prop (VObj fields) k'.
Proof. intros. simpl. now rewrite own_delete_other. Qed.
End ObjectFacts.

(** ** Reasoning on computations *)

Section MonadFacts.
Context {number : Type}.

Lemma never_rejects_ret {A} (a : A) : never_rejects (ret a : M number A).
Proof. intros w. now exists a, w. Qed.

Lemma never_rejects_bind {A B} (m : M number A) (k : A -> M number B) :
  never_rejects m -> (forall a, never_rejects (k a)) -> never_rejects (bind m k).
Proof.
  intros Hm Hk w. destruct (Hm w) as (a & w1 & E).
  destruct (Hk a w1) as (b & w2 & E2).
  exists b, w2. unfold bind. now rewrite E.
Qed.

Lemma never_rejects_catch {A} (m : M number A) (handler : thrown number -> M number A) :
  (forall e, never_rejects (handler e)) -> never_rejects (try_catch m handler).
Proof.
  intros Hh w. unfold try_catch. destruct (m w) as [[a|e] w1].
  - now exists a, w1.
  - apply Hh.
Qed.

Lemma never_rejects_for_each {A S} (body : S -> A -> M number S) :
  (forall s x, never_rejects (body s x)) ->
  forall xs s, never_rejects (for_each xs s body).
Proof.
  intros Hb xs. induction xs as [|x rest IH]; intros s; simpl.
  - apply never_rejects_ret.
  - apply never_rejects_bind; [apply Hb | intros; apply IH].
Qed.

Lemma resolves_in_ret {A} (a : A) (Q : A -> Prop) :
  Q a -> resolves_in (ret a : M number A) Q.
Proof. intros HQ w a' w' E. inversion E. now subst. Qed.

Lemma resolves_in_throw {A} (e : thrown number) (Q : A -> Prop) :
  resolves_in (throw e) Q.
Proof. intros w a w' E. discriminate E. Qed.

Lemma resolves_in_bind {A B} (m : M number A) (k : A -> M number B) (Q : B -> Prop) :
  (forall a, resolves_in (k a) Q) -> resolves_in (bind m k) Q.
Proof.
  intros Hk w b w' E. unfold bind in E. destruct (m w) as [[a|e] w1].
  - eapply Hk, E.
  - discriminate E.
Qed.

Lemma resolves_in_catch {A} (m : M number A) (handler : thrown number -> M number A)
      (Q : A -> Prop) :
  resolves_in m Q -> (forall e, resolves_in (handler e) Q) ->
  resolves_in (try_catch m handler) Q.
Proof.
  intros Hm Hh w a w' E. unfold try_catch in E.
  destruct (m w) as [[a0|e] w1] eqn:Em.
  - inversion E. subst. eapply Hm, Em.
  - eapply Hh, E.
Qed.
End MonadFacts.

Ltac object_simpl :=
  repeat first
    [ rewrite prop_set_same
    | rewrite prop_delete_same
    | rewrite prop_set_other by discriminate
    | rewrite prop_delete_other by discriminate ].

(** ** Resources *)

Section ResourceFacts.
Context {number : Type} `{JsRuntime number}.
#[local] Abbreviation value := (value number).

(** C9: creating a targeting template returns, for every body and without
    any network call, the response [{success: false, message, code: 410}];
    a targeting-template query never rejects, and when the underlying
    request fails it returns [{success: true, payload: []}] with the
    deprecation message. *)
Theorem targeting_template_create_deprecated_query_best_effort
        (body : value) (w : world number) :
  TargetingTemplateResource.create body w =
    (Resolved (obj [("success", VBool false);
                    ("message", VStr TargetingTemplateResource.deprecation);
                    ("code", num 410)]), w)
  /\ (forall e w',
         BeeswaxClient.request "GET" "/rest/targeting_template"
           (BeeswaxClient.with_body (or_else body (obj []))) w = (Rejected e, w') ->
         TargetingTemplateResource.query body w =
           (Resolved (obj [("success", VBool true);
                           ("payload", VArr []);
                           ("message", VStr TargetingTemplateResource.deprecation)]), w'))
  /\ (exists r w', TargetingTemplateResource.query body w = (Resolved r, w')).
Proof.
  split; [reflexivity | split].
  - intros e w' E.
    unfold TargetingTemplateResource.query, try_catch, BaseResource.query, bind.
    simpl endpoint. now rewrite E.
  - apply never_rejects_catch. intros e. apply never_rejects_ret.
Qed.

(** C5 (amended): [find(id)] sends one GET to the endpoint of the resource
    with the identity field set to [id]; when the request returns, it
    resolves to [{success: true, payload}] where [payload] is the first
    record of the result, and [undefined] when the result set is empty. *)
Theorem find_returns_first_record_or_undefined
        (this : resource) (id : value) (w : world number) (r : response number) :
  replies w (cursor w) = Fulfils r ->
  nullish (data r) = false ->
  is_false (prop (data r) "success") = false ->
  BaseResource.find this id w =
    (Resolved (obj [("success", VBool true);
                    ("payload", opt_first (prop (data r) "payload"))]),
     mkWorld (replies w) (S (cursor w))
             (sent w ++ [mkCall "GET" (endpoint this) (VObj [(idField this, id)])
                           VUndefined VUndefined]))
  /\ (prop (data r) "payload" = VArr [] ->
      opt_first (prop (data r) "payload") = VUndefined)
  /\ (forall x rest, prop (data r) "payload" = VArr (x :: rest) ->
      opt_first (prop (data r) "payload") = x).
Proof.
  intros Hreply Hdata Hsuccess. split; [|split].
  - unfold BaseResource.find, BeeswaxClient.request, bind, try_catch, axios, getp.
    simpl. rewrite Hreply, Hdata. simpl. rewrite Hsuccess. reflexivity.
  - intros ->. reflexivity.
  - intros x rest ->. reflexivity.
Qed.

Lemma convert_type_string (s : string) :
  CreativeResource.convert_type (VStr s) = creative_type_code s.
Proof.
  unfold CreativeResource.convert_type, creative_type_code, lookup.
  cbn [own CreativeResource.typeMap].
  destruct (String.eqb "display" (toLowerCase s)); [reflexivity|].
  destruct (String.eqb "banner" (toLowerCase s)); [reflexivity|].
  destruct (String.eqb "video" (toLowerCase s)); [reflexivity|].
  destruct (String.eqb "native" (toLowerCase s)); [reflexivity|].
  destruct (existsb (String.eqb (toLowerCase s)) Object_prototype_names); reflexivity.
Qed.

(** C7: in [CreativeResource.create] a creative type given as a string
    [s] (under [creative_type], else under [type]) is stored under
    [creative_type] only, the [type] alias being deleted; it is 0 for
    display and banner, 1 for video, 2 for native, compared without
    case.  Another string is kept as it is unless its lower-case form
    names a member of [Object.prototype]: the type map is read with a
    computed key, so for the type ["constructor"] the stored value is the
    function found on the prototype and not the string. *)
Theorem creative_type_is_normalized (fields : list (string * value)) (s : string) :
  (if is_undefined (prop (VObj fields) "creative_type")
   then prop (VObj fields) "type"
   else prop (VObj fields) "creative_type") = VStr s ->
  prop (CreativeResource.normalize (VObj fields)) "type" = VUndefined
  /\ prop (CreativeResource.normalize (VObj fields)) "creative_type"
     = creative_type_code s
  /\ CreativeResource.create (VObj fields)
     = BaseResource.create creatives (CreativeResource.normalize (VObj fields))
  /\ CreativeResource.normalize (VObj [("type", VStr "constructor")])
     = VObj [("creative_type", VHost (ObjectPrototypeMember "constructor"))].
Proof.
  intros Htype.
  cut (prop (CreativeResource.normalize (VObj fields)) "type" = VUndefined
       /\ prop (CreativeResource.normalize (VObj fields)) "creative_type"
          = creative_type_code s).
  { intros [H1 H2]. repeat split; assumption || reflexivity. }
  unfold CreativeResource.normalize. cbv zeta.
  set (body := VObj fields) in *.
  set (d1 := if truthy (or_else (prop body "name") (prop body "creative_name"))
             then _ else _).
  set (typeValue := if negb (is_undefined (prop body "creative_type")) then _ else _).
  assert (Htv : typeValue = VStr s).
  { subst typeValue. destruct (is_undefined (prop body "creative_type")); exact Htype. }
  rewrite Htv. cbn [is_undefined negb].
  split.
  - destruct (truthy (or_else (prop body "attributes") (prop body "creative_attributes")));
      object_simpl; reflexivity.
  - destruct (truthy (or_else (prop body "attributes") (prop body "creative_attributes")));
      object_simpl; apply convert_type_string.
Qed.
End ResourceFacts.

(** ** bulkUpdateCampaignStatus *)

Section BulkUpdateFacts.
Context {number : Type} `{JsRuntime number}.
#[local] Abbreviation value := (value number).

Lemma bulkUpdate_step_outcome (active : value) (counts : Z * Z) (id : value)
      (w : world number) :
  CampaignMacros.bulkUpdate_step active counts id w =
    (Resolved (if edit_succeeded
                    (fst (CampaignResource.edit id (obj [("active", active)]) false w))
               then (fst counts + 1, snd counts)%Z
               else (fst counts, snd counts + 1)%Z),
     snd (CampaignResource.edit id (obj [("active", active)]) false w)).
Proof.
  unfold CampaignMacros.bulkUpdate_step, bind, try_catch, delay, ret.
  destruct (CampaignResource.edit id (obj [("active", active)]) false w)
    as [[response|e] w1]; simpl; [|reflexivity].
  destruct (truthy (prop response "success")); reflexivity.
Qed.

Lemma count_of_cons {A} (f : A -> bool) (x : A) (xs : list A) :
  count_of f (x :: xs) = ((if f x then 1 else 0) + count_of f xs)%Z.
Proof. unfold count_of. simpl. destruct (f x); simpl List.length; lia. Qed.

Lemma bulkUpdate_loop (active : value) (ids : list value) :
  forall (counts : Z * Z) (w : world number),
    for_each ids counts (CampaignMacros.bulkUpdate_step active) w =
      (Resolved (fst counts + count_of edit_succeeded (fst (edits active ids w)),
                 snd counts
                 + count_of (fun r => negb (edit_succeeded r)) (fst (edits active ids w)))%Z,
       snd (edits active ids w)).
Proof.
  induction ids as [|id rest IH]; intros [u f] w.
  - cbn [for_each edits fst snd]. unfold ret, count_of. cbn [filter List.length Z.of_nat].
    now rewrite !Z.add_0_r.
  - cbn [for_each]. unfold bind at 1. rewrite bulkUpdate_step_outcome.
    rewrite IH. cbn [edits].
    destruct (CampaignResource.edit id (obj [("active", active)]) false w) as [r w1].
    destruct (edits active rest w1) as [rs w2] eqn:Erest.
    cbn [fst snd]. rewrite !count_of_cons.
    destruct (edit_succeeded r); cbn [fst snd negb]; rewrite ?Erest; cbn [fst snd];
      do 3 f_equal; lia.
Qed.

Lemma edits_length (active : value) (ids : list value) :
  forall w, List.length (fst (edits active ids w)) = List.length ids.
Proof.
  induction ids as [|id rest IH]; intros w; [reflexivity|].
  cbn [edits].
  destruct (CampaignResource.edit id (obj [("active", active)]) false w) as [r w1].
  specialize (IH w1). destruct (edits active rest w1) as [rs w2].
  simpl in *. now rewrite IH.
Qed.

Lemma count_of_split {A} (f : A -> bool) (xs : list A) :
  (count_of f xs + count_of (fun x => negb (f x)) xs)%Z = Z.of_nat (List.length xs).
Proof.
  induction xs as [|x rest IH]; [reflexivity|].
  rewrite !count_of_cons. simpl List.length. destruct (f x); simpl negb; lia.
Qed.

(** C8: [bulkUpdateCampaignStatus(ids, active)] edits every id of the
    list, in order, whatever the earlier edits did; it always resolves to
    [{success: true, payload: {updated, failed}}], where [updated] is the
    number of edits that returned a successful response, [failed] the
    number of edits that threw or returned an unsuccessful one, and
    [updated + failed] is the number of ids. *)
Theorem bulk_update_counts_every_id (ids : list value) (active : value)
        (w : world number) :
  let outcomes := fst (edits active ids w) in
  let updated := count_of edit_succeeded outcomes in
  let failed := count_of (fun r => negb (edit_succeeded r)) outcomes in
  CampaignMacros.bulkUpdateCampaignStatus ids active w =
    (Resolved (obj [("success", VBool true);
                    ("payload", obj [("updated", num updated);
                                     ("failed", num failed)])]),
     snd (edits active ids w))
  /\ List.length outcomes = List.length ids
  /\ (updated + failed)%Z = Z.of_nat (List.length ids).
Proof.
  cbv zeta. split; [|split].
  - unfold CampaignMacros.bulkUpdateCampaignStatus, bind.
    rewrite bulkUpdate_loop. reflexivity.
  - apply edits_length.
  - rewrite count_of_split. now rewrite edits_length.
Qed.
End BulkUpdateFacts.

(** ** queryAll *)

Section QueryAllFacts.
Context {number : Type} `{JsRuntime number}.
#[local] Abbreviation value := (value number).
Variable this : resource.
Variable body : value.

Lemma page_request_returns (w : world number) (offset : Z) (items : list value) :
  page_reply (replies w (cursor w)) items ->
  exists response,
    BeeswaxClient.request "GET" (endpoint this)
      (BeeswaxClient.with_body
         (VObj (assign (spread body)
                  [("rows", num (Z.of_nat BaseResource.batchSize));
                   ("offset", num offset);
                   ("sort_by", VStr (idField this))]))) w
    = (Resolved response, after_call w (page_request this body offset))
    /\ or_else (prop response "payload") (VArr []) = VArr items.
Proof.
  intros (resp & Hreply & Hdata & Hsuccess & Hpayload).
  exists (data resp). split; [|exact Hpayload].
  unfold BeeswaxClient.request, try_catch, bind, axios, getp.
  cbn [toUpperCase upper_ascii String.eqb BeeswaxClient.with_body o_body o_params
       o_headers or_else truthy].
  change (String.eqb (toUpperCase "GET") "GET") with true. cbv iota.
  cbn [or_else truthy]. rewrite Hreply, Hdata. unfold ret. rewrite Hsuccess.
  reflexivity.
Qed.

Lemma queryAll_loop_step (fuel : nat) (offset : Z) (results items : list value)
      (w : world number) :
  page_reply (replies w (cursor w)) items ->
  BaseResource.queryAll_loop this (S fuel) body offset results w =
    if (List.length items <? 50)%nat
    then (Resolved (Some (obj [("success", VBool true);
                               ("payload", VArr (results ++ items)%list)])),
          after_call w (page_request this body offset))
    else BaseResource.queryAll_loop this fuel body (offset + 50) (results ++ items)%list
           (after_call w (page_request this body offset)).
Proof.
  intros Hpage.
  destruct (page_request_returns w offset items Hpage) as (response & Ereq & Hbatch).
  cbn [BaseResource.queryAll_loop]. unfold bind at 1. rewrite Ereq.
  rewrite Hbatch. cbn [iterate length_of]. unfold bind, ret.
  change BaseResource.batchSize with 50%nat.
  destruct (List.length items <? 50)%nat; reflexivity.
Qed.

Lemma queryAll_loop_pages (pages : list (list value)) (short : list value) :
  Forall (fun p => 50 <= List.length p)%nat pages ->
  (List.length short < 50)%nat ->
  forall (fuel : nat) (k : nat) (results : list value) (w : world number),
    (forall i p, nth_error (pages ++ [short]) i = Some p ->
                 page_reply (replies w (cursor w + i)) p) ->
    (List.length pages < fuel)%nat ->
    BaseResource.queryAll_loop this fuel body (50 * Z.of_nat k) results w =
      (Resolved (Some (obj [("success", VBool true);
                            ("payload", VArr (results ++ List.concat pages ++ short)%list)])),
       mkWorld (replies w) (cursor w + S (List.length pages))
               (sent w ++ map (fun i => page_request this body (50 * Z.of_nat i))
                             (seq k (S (List.length pages))))).
Proof.
  intros Hfull Hshort. induction Hfull as [|p pages Hp Hfull IH];
    intros fuel k results w Hreplies Hfuel.
  - destruct fuel as [|fuel]; [inversion Hfuel|].
    rewrite (queryAll_loop_step fuel _ results short w).
    + apply Nat.ltb_lt in Hshort. rewrite Hshort. unfold after_call.
      cbn [List.length List.concat app map seq]. rewrite Nat.add_1_r. reflexivity.
    + specialize (Hreplies 0%nat short eq_refl). now rewrite Nat.add_0_r in Hreplies.
  - destruct fuel as [|fuel]; [inversion Hfuel|].
    rewrite (queryAll_loop_step fuel _ results p w).
    + assert (Hge : (List.length p <? 50)%nat = false) by (apply Nat.ltb_ge; exact Hp).
      rewrite Hge.
      replace (50 * Z.of_nat k + 50)%Z with (50 * Z.of_nat (S k))%Z by lia.
      rewrite IH.
      * unfold after_call. cbn [replies cursor sent List.length List.concat].
        f_equal.
        -- rewrite <- !app_assoc. reflexivity.
        -- f_equal; [lia|]. rewrite <- app_assoc. reflexivity.
      * intros i q Hq. unfold after_call. cbn [replies cursor].
        replace (S (cursor w) + i)%nat with (cursor w + S i)%nat by lia.
        apply Hreplies. exact Hq.
      * simpl in Hfuel. lia.
    + specialize (Hreplies 0%nat p eq_refl). now rewrite Nat.add_0_r in Hreplies.
Qed.

(** C4: when the server answers the successive page requests with pages
    of at least 50 records followed by a page of fewer than 50,
    [queryAll(body)] sends one GET per page, with [rows] 50, [sort_by]
    the identity field and [offset] 0, 50, 100, ..., and resolves to
    [{success: true, payload}] where [payload] is the concatenation of
    these pages in order, the short one included; it needs no more
    iterations than there are pages.  For a resource of exactly [50 * k]
    records this is [k] full pages and a last, empty one. *)
Theorem queryAll_concatenates_pages_until_short
        (pages : list (list value)) (short : list value)
        (fuel : nat) (w : world number) :
  Forall (fun p => 50 <= List.length p)%nat pages ->
  (List.length short < 50)%nat ->
  (forall i p, nth_error (pages ++ [short]) i = Some p ->
               page_reply (replies w (cursor w + i)) p) ->
  (List.length pages < fuel)%nat ->
  BaseResource.queryAll this fuel body w =
    (Resolved (Some (obj [("success", VBool true);
                          ("payload", VArr (List.concat pages ++ short)%list)])),
     mkWorld (replies w) (cursor w + S (List.length pages))
             (sent w ++ map (fun i => page_request this body (50 * Z.of_nat i))
                           (seq 0 (S (List.length pages))))).
Proof.
  intros Hfull Hshort Hreplies Hfuel. unfold BaseResource.queryAll.
  exact (queryAll_loop_pages pages short Hfull Hshort fuel 0 [] w Hreplies Hfuel).
Qed.
End QueryAllFacts.

(** ** BeeswaxClient.request, by the reply *)

Section RequestRun.
Context {number : Type} `{JsRuntime number}.
#[local] Abbreviation value := (value number).

(** The outcome of a request and the call it makes, by the reply. *)
Lemma request_run (method endpoint : string) (options : req_options number)
      (w : world number) :
  BeeswaxClient.request method endpoint options w =
  (match replies w (cursor w) with
   | Fulfils r =>
       if nullish (data r)
       then Rejected (JsError ("Cannot read properties of undefined (reading '"
                               ++ "success" ++ "')"))
       else if is_false (prop (data r) "success")
            then Rejected (JsError (JSON_stringify (data r)))
            else Resolved (data r)
   | Rejects m (Some r) =>
       if truthy (data r) then Rejected (ThrownValue (data r))
       else Rejected (AxiosError m (Some r))
   | Rejects m None => Rejected (AxiosError m None)
   | RejectsError m => Rejected (JsError m)
   end,
   after_call w
     (if String.eqb (toUpperCase method) "GET"
      then mkCall method endpoint (or_else (o_body options) (o_params options))
             VUndefined (o_headers options)
      else mkCall method endpoint (o_params options) (o_body options)
             (o_headers options))).
Proof.
  unfold BeeswaxClient.request, try_catch, bind, axios, getp, throw, ret, after_call.
  destruct (replies w (cursor w)) as [r|m [r|]|m]; simpl.
  - destruct (nullish (data r)); simpl; [reflexivity|].
    destruct (is_false (prop (data r) "success")); reflexivity.
  - destruct (truthy (data r)); reflexivity.
  - reflexivity.
  - reflexivity.
Qed.

Lemma find_sends (this : resource) (id : value) (w : world number) :
  snd (BaseResource.find this id w)
  = after_call w (mkCall "GET" (endpoint this) (VObj [(idField this, id)])
                    VUndefined VUndefined).
Proof.
  unfold BaseResource.find, bind. rewrite request_run.
  change (String.eqb (toUpperCase "GET") "GET") with true. cbv iota.
  destruct (replies w (cursor w)) as [r|m [r|]|m]; cbn [fst snd];
    repeat match goal with |- context [if ?c then _ else _] => destruct c end;
    reflexivity.
Qed.
End RequestRun.

(** ** How the macros settle *)

Ltac resolves_in_step :=
  cbv zeta;
  lazymatch goal with
  | |- resolves_in (bind _ _) _ => apply resolves_in_bind; intros
  | |- resolves_in (if ?c then _ else _) _ => destruct c
  | |- resolves_in (throw _) _ => apply resolves_in_throw
  | |- resolves_in (ret _) _ => apply resolves_in_ret
  end.

Section MacroFacts.
Context {number : Type} `{JsRuntime number}.
#[local] Abbreviation value := (value number).

Lemma always_resolves_in_intro {A} (m : M number A) (Q : A -> Prop) :
  never_rejects m -> resolves_in m Q -> always_resolves_in m Q.
Proof.
  intros Hn Hr w. destruct (Hn w) as (a & w' & E).
  exists a, w'. split; [exact E | eapply Hr, E].
Qed.

Lemma macro_response_boolean (fallback : string) (r : value) :
  macro_response fallback r -> has_boolean_success r.
Proof. intros [(payload & ->) | (error & ->)]; eexists; reflexivity. Qed.

Lemma top_level_catch (fallback : string) (body : M number value) :
  resolves_in body (fun r => exists payload,
                        r = obj [("success", VBool true); ("payload", payload)]) ->
  always_resolves_in
    (try_catch body (fun error => ret (CampaignMacros.failure error fallback)))
    (macro_response fallback).
Proof.
  intros Hbody. apply always_resolves_in_intro.
  - apply never_rejects_catch. intros e. apply never_rejects_ret.
  - apply resolves_in_catch.
    + intros w a w' E. left. eapply Hbody, E.
    + intros e. apply resolves_in_ret. right. now exists e.
Qed.

Lemma createFullCampaign_resolves (options : value) :
  always_resolves_in (CampaignMacros.createFullCampaign options)
    (macro_response "Failed to create full campaign").
Proof.
  apply top_level_catch. unfold CampaignMacros.succeeded.
  repeat resolves_in_step. eexists. reflexivity.
Qed.

Lemma cloneCampaign_resolves (campaignId newName options : value) :
  always_resolves_in (CampaignMacros.cloneCampaign campaignId newName options)
    (macro_response "Failed to clone campaign").
Proof.
  apply top_level_catch. unfold CampaignMacros.succeeded.
  repeat resolves_in_step. eexists. reflexivity.
Qed.

Lemma bulkUpdateCampaignStatus_resolves (ids : list value) (active : value) :
  always_resolves_in (CampaignMacros.bulkUpdateCampaignStatus ids active)
    (fun r => exists updated failed : Z,
         r = obj [("success", VBool true);
                  ("payload", obj [("updated", num updated); ("failed", num failed)])]
         /\ (0 <= updated)%Z /\ (0 <= failed)%Z
         /\ (updated + failed)%Z = Z.of_nat (List.length ids)).
Proof.
  intros w. unfold CampaignMacros.bulkUpdateCampaignStatus, bind.
  rewrite bulkUpdate_loop. eexists _, _. split; [reflexivity|].
  eexists _, _. split; [reflexivity|]. cbn [fst snd]. rewrite !Z.add_0_l.
  split; [apply Nat2Z.is_nonneg|]. split; [apply Nat2Z.is_nonneg|].
  rewrite count_of_split. now rewrite edits_length.
Qed.

(** *** What the calls of the client throw *)

Lemma raised_in_same (w w' : world number) (e : thrown number) :
  replies w' = replies w -> raised_in w e -> raised_in w' e.
Proof.
  intros Hr. destruct e as [m|m r|v]; simpl; auto.
  intros (n & m & r & E & ->). exists n, m, r. now rewrite Hr.
Qed.

Lemma client_call_ret {A} (a : A) : client_call (ret a : M number A).
Proof. intros w. split; [reflexivity | intros e E; discriminate E]. Qed.

Lemma client_call_error {A} (m : string) : client_call (throw (JsError m) : M number A).
Proof. intros w. split; [reflexivity | intros e E; inversion E; exact I]. Qed.

Lemma client_call_bind {A B} (m : M number A) (k : A -> M number B) :
  client_call m -> (forall a, client_call (k a)) -> client_call (bind m k).
Proof.
  intros Hm Hk w. unfold bind. destruct (Hm w) as (Hr & He).
  destruct (m w) as [[a|e] w1]; simpl in *.
  - destruct (Hk a w1) as (Hr1 & He1). split; [now rewrite Hr1|].
    intros e E. apply (raised_in_same w1); [now symmetry | now apply He1].
  - split; [exact Hr|]. intros e' E. inversion E. subst e'. now apply He.
Qed.

Lemma client_call_for_each {A S} (body : S -> A -> M number S) :
  (forall s x, client_call (body s x)) ->
  forall xs s, client_call (for_each xs s body).
Proof.
  intros Hbody. induction xs as [|x rest IH]; intros s; simpl.
  - apply client_call_ret.
  - apply client_call_bind; [apply Hbody | intros s'; apply IH].
Qed.

Lemma client_call_completed {A} (r : A + string) :
  client_call (completed r : M number A).
Proof. destruct r; [apply client_call_ret | apply client_call_error]. Qed.

Lemma client_call_getp (v : value) (k : string) : client_call (getp v k).
Proof.
  unfold getp. destruct (nullish v); [apply client_call_error | apply client_call_ret].
Qed.

Lemma client_call_request (method endpoint : string) (options : req_options number) :
  client_call (BeeswaxClient.request method endpoint options).
Proof.
  intros w. rewrite request_run. cbn [fst snd]. split; [reflexivity|].
  intros e E. destruct (replies w (cursor w)) as [r|m [r|]|m] eqn:Er.
  - destruct (nullish (data r)); [inversion E; exact I|].
    destruct (is_false (prop (data r) "success")); [inversion E; exact I | discriminate E].
  - destruct (truthy (data r)); inversion E; [|exact I].
    exists (cursor w), m, r. now split.
  - inversion E. exact I.
  - inversion E. exact I.
Qed.

Lemma client_call_find (this : resource) (id : value) :
  client_call (BaseResource.find this id).
Proof.
  unfold BaseResource.find. apply client_call_bind;
    [apply client_call_request | intros; apply client_call_ret].
Qed.

Lemma client_call_create (this : resource) (body : value) :
  client_call (BaseResource.create this body).
Proof.
  unfold BaseResource.create.
  destruct (negb (isPOJO body) || no_keys body); [apply client_call_ret|].
  apply client_call_bind; [apply client_call_request | intros response].
  destruct (truthy (prop response "success") && _);
    [apply client_call_find | apply client_call_ret].
Qed.

Lemma client_call_line_item_create (body : value) :
  client_call (LineItemResource.create body).
Proof.
  unfold LineItemResource.create.
  apply client_call_bind; [apply client_call_getp | intros _].
  apply client_call_bind; [apply client_call_request | intros response].
  destruct (truthy response && truthy (prop response "id")); [apply client_call_ret|].
  destruct (truthy response && _); apply client_call_ret.
Qed.

Lemma client_call_createLineItem (params : value) :
  client_call (BeeswaxClientHelpers.createLineItem params).
Proof.
  unfold BeeswaxClientHelpers.createLineItem.
  apply client_call_bind; [apply client_call_getp | intros campaign_id].
  apply client_call_bind; [apply client_call_find | intros campaignResponse].
  destruct (negb (truthy (prop campaignResponse "success")) || _);
    [apply client_call_error | apply client_call_line_item_create].
Qed.

Lemma client_call_create_report (campaignId startDate endDate : value) :
  client_call (CampaignMacros.create_report campaignId startDate endDate).
Proof.
  unfold CampaignMacros.create_report, to_String.
  apply client_call_bind; [apply client_call_completed | intros campaign].
  apply client_call_create.
Qed.

Lemma find_rejected (this : resource) (id : value) (w : world number)
      (m : string) (resp : option (response number)) :
  replies w (cursor w) = Rejects m resp ->
  BaseResource.find this id w
  = (Rejected (rejection m resp),
     after_call w (mkCall "GET" (endpoint this) (obj [(idField this, id)])
                     VUndefined VUndefined)).
Proof.
  intros Er. unfold BaseResource.find, bind. rewrite request_run, Er.
  change (String.eqb (toUpperCase "GET") "GET") with true. cbv iota.
  unfold BeeswaxClient.with_body, or_else, rejection.
  cbn [o_body o_params o_headers obj truthy].
  destruct resp as [r|]; [destruct (truthy (data r))|]; reflexivity.
Qed.

Lemma find_resolved (this : resource) (id : value) (w w1 : world number)
      (found : value) :
  BaseResource.find this id w = (Resolved found, w1) ->
  prop found "success" = VBool true /\ replies w1 = replies w.
Proof.
  intros E. split.
  - unfold BaseResource.find, bind in E.
    destruct (BeeswaxClient.request "GET" (endpoint this) _ w) as [[response|e] w2];
      [|discriminate E].
    unfold ret in E. inversion E. reflexivity.
  - pose proof (proj1 (client_call_find this id w)) as Hr. now rewrite E in Hr.
Qed.

(** *** getCampaignPerformance *)

(** The macro by the outcome of the report creation: [error.toString()]
    decides whether a caught error is reported or replaced by a thrown
    [TypeError]. *)
Lemma getCampaignPerformance_run (campaignId startDate endDate : value)
      (w : world number) :
  CampaignMacros.getCampaignPerformance campaignId startDate endDate w
  = match CampaignMacros.create_report campaignId startDate endDate w with
    | (Resolved r, w') => (Resolved r, w')
    | (Rejected error, w') =>
        (match error_toString error with
         | inl text => Resolved (CampaignMacros.performance_failure error text)
         | inr message => Rejected (JsError message)
         end, w')
    end.
Proof.
  unfold CampaignMacros.getCampaignPerformance, try_catch.
  destruct (CampaignMacros.create_report campaignId startDate endDate w)
    as [[r|error] w']; [reflexivity|].
  unfold bind, completed. destruct (error_toString error); reflexivity.
Qed.

Lemma getCampaignPerformance_resolves (campaignId startDate endDate : value)
      (w : world number) :
  bodies_print w ->
  exists r w',
    CampaignMacros.getCampaignPerformance campaignId startDate endDate w
    = (Resolved r, w')
    /\ (CampaignMacros.create_report campaignId startDate endDate w = (Resolved r, w')
        \/ exists error text,
             CampaignMacros.create_report campaignId startDate endDate w
             = (Rejected error, w')
             /\ error_toString error = inl text
             /\ r = CampaignMacros.performance_failure error text).
Proof.
  intros Hprint. rewrite getCampaignPerformance_run.
  pose proof (proj2 (client_call_create_report campaignId startDate endDate w)) as Hraise.
  destruct (CampaignMacros.create_report campaignId startDate endDate w)
    as [[r|error] w'].
  - exists r, w'. split; [reflexivity | now left].
  - specialize (Hraise error eq_refl).
    assert (Htext : exists text, error_toString error = inl text).
    { destruct error as [m|m r|v]; simpl; [eexists; reflexivity ..|].
      destruct Hraise as (n & m & r & Er & ->).
      specialize (Hprint n m r Er). unfold toString_returns in Hprint.
      destruct (method_toString (data r)) as [text|]; [now exists text | discriminate]. }
    destruct Htext as (text & Etext). rewrite Etext.
    eexists _, _. split; [reflexivity|]. right. now exists error, text.
Qed.

Lemma reportData_passes (campaignId startDate endDate : value) (campaign : string) :
  negb (isPOJO (CampaignMacros.reportData campaignId startDate endDate campaign))
  || no_keys (CampaignMacros.reportData campaignId startDate endDate campaign) = false.
Proof. reflexivity. Qed.

Lemma getCampaignPerformance_rejects (campaignId startDate endDate : value)
      (w : world number) (m : string) (r : response number) (message : string) :
  converts campaignId = true ->
  replies w (cursor w) = Rejects m (Some r) ->
  truthy (data r) = true ->
  method_toString (data r) = inr message ->
  fst (CampaignMacros.getCampaignPerformance campaignId startDate endDate w)
  = Rejected (JsError message).
Proof.
  intros Hid Er Hbody Htext. rewrite getCampaignPerformance_run.
  unfold CampaignMacros.create_report, to_String, bind, converts in *.
  destruct (string_of campaignId) as [campaign|]; [|discriminate Hid].
  cbn [completed ret]. unfold BaseResource.create.
  rewrite reportData_passes. unfold bind. rewrite request_run, Er, Hbody.
  cbn [error_toString]. rewrite Htext. reflexivity.
Qed.

(** *** bulkCreateLineItems *)

Lemma converts_string_of (v : value) :
  converts v = true -> exists s, string_of v = inl s.
Proof.
  unfold converts. destruct (string_of v) as [s|]; [now exists s | discriminate].
Qed.

Lemma messages_convert_same (w w' : world number) :
  replies w' = replies w -> messages_convert w -> messages_convert w'.
Proof. intros Hr Hw n m r E. rewrite Hr in E. now apply (Hw n m r). Qed.

(** The message of whatever [createLineItem] throws can be printed when
    those of the failed responses can. *)
Lemma raised_message_converts (w : world number) (e : thrown number) :
  messages_convert w -> raised_in w e ->
  exists s, string_of (error_message e) = inl s.
Proof.
  intros Hw He. destruct e as [m|m r|v]; simpl; [eexists; reflexivity ..|].
  destruct He as (n & m & r & Er & ->). apply converts_string_of, (Hw n m r Er).
Qed.

(** The parameters [bulkCreateLineItems] passes to [createLineItem]. *)
Lemma bulkCreate_step_run (campaignId : value) (state : list value * list value)
      (item : list (string * value)) (w : world number) :
  messages_convert w ->
  converts (CampaignMacros.field item "name") = true ->
  exists state' w',
    CampaignMacros.bulkCreate_step campaignId state item w = (Resolved state', w')
    /\ replies w' = replies w
    /\ (List.length (fst state') + List.length (snd state')
        = S (List.length (fst state) + List.length (snd state)))%nat.
Proof.
  intros Hw Hname. destruct (converts_string_of _ Hname) as (name & Ename).
  unfold CampaignMacros.bulkCreate_step, try_catch, to_String, delay.
  rewrite Ename. unfold bind at 1.
  unfold bind at 1.
  destruct (string_of (CampaignMacros.field item "budget")) as [lifetime|message];
    cbn [completed].
  - unfold ret at 1. cbv beta.
    match goal with
    | |- context [BeeswaxClientHelpers.createLineItem ?params] =>
        destruct (client_call_createLineItem params w) as (Hr & He);
        unfold bind at 1;
        destruct (BeeswaxClientHelpers.createLineItem params w) as [[response|e] w1]
    end; cbn [fst snd] in *.
    + destruct (truthy (prop response "success") && truthy (prop response "payload")).
      * eexists _, _. split; [reflexivity|]. split; [exact Hr|].
        cbn [fst snd]. rewrite length_app. simpl. lia.
      * eexists _, _. split; [reflexivity|]. split; [exact Hr|].
        cbn [fst snd]. rewrite length_app. simpl. lia.
    + destruct (raised_message_converts w e Hw (He e eq_refl)) as (text & Etext).
      unfold bind. cbn [completed ret]. rewrite Etext.
      eexists _, _. split; [reflexivity|]. split; [exact Hr|].
      cbn [fst snd]. rewrite length_app. simpl. lia.
  - unfold throw at 1. cbv beta iota. unfold bind. cbn [completed ret error_message string_of].
    eexists _, _. split; [reflexivity|]. split; [reflexivity|].
    cbn [fst snd]. rewrite length_app. simpl. lia.
Qed.

Lemma bulkCreate_loop_run (campaignId : value) (items : list (list (string * value))) :
  forall (state : list value * list value) (w : world number),
    messages_convert w ->
    Forall (fun item => converts (CampaignMacros.field item "name") = true) items ->
    exists state' w',
      for_each items state (CampaignMacros.bulkCreate_step campaignId) w
      = (Resolved state', w')
      /\ (List.length (fst state') + List.length (snd state')
          = List.length items + (List.length (fst state) + List.length (snd state)))%nat.
Proof.
  induction items as [|item rest IH]; intros state w Hw Hnames.
  - exists state, w. split; reflexivity.
  - inversion Hnames as [|? ? Hname Hrest]; subst.
    destruct (bulkCreate_step_run campaignId state item w Hw Hname)
      as (s1 & w1 & E1 & Hr1 & H1).
    destruct (IH s1 w1 (messages_convert_same w w1 Hr1 Hw) Hrest)
      as (s2 & w2 & E2 & H2).
    exists s2, w2. split.
    + cbn [for_each]. unfold bind. now rewrite E1.
    + rewrite H2, H1. simpl. lia.
Qed.

Lemma bulkCreateLineItems_resolves_after_lookup
      (campaignId : value) (items : list (list (string * value)))
      (w w1 : world number) (campaignResponse : value) :
  BaseResource.find campaigns campaignId w = (Resolved campaignResponse, w1) ->
  messages_convert w ->
  Forall (fun item => converts (CampaignMacros.field item "name") = true) items ->
  exists r w',
    CampaignMacros.bulkCreateLineItems campaignId items w = (Resolved r, w')
    /\ has_boolean_success r.
Proof.
  intros Efind Hw Hnames.
  unfold CampaignMacros.bulkCreateLineItems, bind at 1. rewrite Efind.
  destruct (negb (truthy (prop campaignResponse "success"))
            || negb (truthy (prop campaignResponse "payload"))).
  - eexists _, _. split; [reflexivity | eexists; reflexivity].
  - destruct (bulkCreate_loop_run campaignId items ([], []) w1)
      as (state & w2 & Eloop & _); [|exact Hnames|].
    + apply (messages_convert_same w); [|exact Hw].
      apply (find_resolved campaigns campaignId w w1 campaignResponse Efind).
    + unfold bind. rewrite Eloop.
      eexists _, _. split; [reflexivity | eexists; reflexivity].
Qed.

(** The campaign lookup is not inside a [try]. *)
Lemma bulkCreateLineItems_lookup_rejected
      (campaignId : value) (items : list (list (string * value)))
      (w : world number) (m : string) (resp : option (response number)) :
  replies w (cursor w) = Rejects m resp ->
  CampaignMacros.bulkCreateLineItems campaignId items w
  = (Rejected (rejection m resp),
     after_call w (mkCall "GET" "/rest/campaign" (obj [("campaign_id", campaignId)])
                     VUndefined VUndefined)).
Proof.
  intros Er. unfold CampaignMacros.bulkCreateLineItems, bind.
  now rewrite (find_rejected campaigns campaignId w m resp Er).
Qed.

(** Nor are the template literals of the [catch] of an item. *)
Lemma bulkCreateLineItems_message_rejected
      (campaignId : value) (item : list (string * value))
      (items : list (list (string * value)))
      (w w1 : world number) (found : value)
      (m : string) (r : response number) (message : string) :
  BaseResource.find campaigns campaignId w = (Resolved found, w1) ->
  truthy (prop found "payload") = true ->
  converts (CampaignMacros.field item "budget") = true ->
  converts (CampaignMacros.field item "name") = true ->
  replies w1 (cursor w1) = Rejects m (Some r) ->
  truthy (data r) = true ->
  string_of (opt_prop (data r) "message") = inr message ->
  fst (CampaignMacros.bulkCreateLineItems campaignId (item :: items) w)
  = Rejected (JsError message).
Proof.
  intros Efind Hpayload Hbudget Hname Er Hbody Hmessage.
  destruct (converts_string_of _ Hbudget) as (lifetime & Ebudget).
  destruct (converts_string_of _ Hname) as (name & Ename).
  unfold CampaignMacros.bulkCreateLineItems, bind at 1. rewrite Efind.
  rewrite (proj1 (find_resolved campaigns campaignId w w1 found Efind)), Hpayload.
  cbn [truthy negb orb for_each].
  unfold bind at 1. unfold bind at 1.
  unfold CampaignMacros.bulkCreate_step, try_catch, to_String.
  rewrite Ebudget, Ename. unfold bind at 1. unfold bind at 1.
  cbn [completed]. unfold ret at 1. cbv beta.
  unfold bind at 1. unfold BeeswaxClientHelpers.createLineItem, getp.
  cbn [obj nullish]. unfold bind at 1. unfold ret at 1. cbv beta.
  unfold bind at 1. rewrite (find_rejected campaigns _ w1 m (Some r) Er).
  unfold rejection. rewrite Hbody. cbv beta iota.
  unfold bind. cbn [completed ret error_message]. rewrite Hmessage. reflexivity.
Qed.

(** C1: how the macros settle.  [createFullCampaign] and
    [cloneCampaign] resolve for every input and every behaviour of the
    network: to [{success: true, payload}] or, when an error reaches the
    [catch] at their top, to [{success: false, message, errors}].
    [bulkUpdateCampaignStatus] always resolves, to
    [{success: true, payload: {updated, failed}}] with [updated + failed]
    the number of ids.  [getCampaignPerformance] resolves, to the outcome
    of the report creation or to [{success: false, message, errors}], as
    long as the bodies of the failed responses can be printed; when
    [error.toString()] throws inside the [catch], the macro rejects.
    [bulkCreateLineItems] rejects when its campaign lookup is rejected,
    the lookup being outside any [try]; once the lookup has returned it
    resolves to a response with a boolean [success], as long as the names
    of the items and the messages of the failed responses convert to
    strings; when a template literal throws inside the [catch] of an
    item, the macro rejects. *)
Theorem macros_resolve_to_structured_responses :
  (forall options : value,
      always_resolves_in (CampaignMacros.createFullCampaign options)
        (fun r => macro_response "Failed to create full campaign" r
                  /\ has_boolean_success r))
  /\ (forall campaignId newName options : value,
         always_resolves_in (CampaignMacros.cloneCampaign campaignId newName options)
           (fun r => macro_response "Failed to clone campaign" r
                     /\ has_boolean_success r))
  /\ (forall (ids : list value) (active : value),
         always_resolves_in (CampaignMacros.bulkUpdateCampaignStatus ids active)
           (fun r => exists updated failed : Z,
                r = obj [("success", VBool true);
                         ("payload", obj [("updated", num updated);
                                          ("failed", num failed)])]
                /\ (0 <= updated)%Z /\ (0 <= failed)%Z
                /\ (updated + failed)%Z = Z.of_nat (List.length ids)))
  /\ (forall (campaignId startDate endDate : value) (w : world number),
         (bodies_print w ->
          exists r w',
            CampaignMacros.getCampaignPerformance campaignId startDate endDate w
            = (Resolved r, w')
            /\ (CampaignMacros.create_report campaignId startDate endDate w
                = (Resolved r, w')
                \/ exists error text,
                     CampaignMacros.create_report campaignId startDate endDate w
                     = (Rejected error, w')
                     /\ error_toString error = inl text
                     /\ r = CampaignMacros.performance_failure error text))
         /\ (forall m r message,
                converts campaignId = true ->
                replies w (cursor w) = Rejects m (Some r) ->
                truthy (data r) = true ->
                method_toString (data r) = inr message ->
                fst (CampaignMacros.getCampaignPerformance campaignId startDate
                       endDate w)
                = Rejected (JsError message)))
  /\ (forall (campaignId : value) (items : list (list (string * value)))
             (w : world number),
         (forall m resp,
             replies w (cursor w) = Rejects m resp ->
             CampaignMacros.bulkCreateLineItems campaignId items w
             = (Rejected (rejection m resp),
                after_call w (mkCall "GET" "/rest/campaign"
                                (obj [("campaign_id", campaignId)])
                                VUndefined VUndefined)))
         /\ (forall w1 campaignResponse,
                BaseResource.find campaigns campaignId w
                = (Resolved campaignResponse, w1) ->
                messages_convert w ->
                Forall (fun item => converts (CampaignMacros.field item "name") = true)
                       items ->
                exists r w',
                  CampaignMacros.bulkCreateLineItems campaignId items w
                  = (Resolved r, w')
                  /\ has_boolean_success r)
         /\ (forall w1 found item rest m r message,
                items = item :: rest ->
                BaseResource.find campaigns campaignId w = (Resolved found, w1) ->
                truthy (prop found "payload") = true ->
                converts (CampaignMacros.field item "budget") = true ->
                converts (CampaignMacros.field item "name") = true ->
                replies w1 (cursor w1) = Rejects m (Some r) ->
                truthy (data r) = true ->
                string_of (opt_prop (data r) "message") = inr message ->
                fst (CampaignMacros.bulkCreateLineItems campaignId items w)
                = Rejected (JsError message))).
Proof.
  split; [|split; [|split; [|split]]].
  - intros options w.
    destruct (createFullCampaign_resolves options w) as (r & w' & E & Hr).
    exists r, w'. repeat split; try assumption.
    eapply macro_response_boolean, Hr.
  - intros campaignId newName options w.
    destruct (cloneCampaign_resolves campaignId newName options w) as (r & w' & E & Hr).
    exists r, w'. repeat split; try assumption.
    eapply macro_response_boolean, Hr.
  - apply bulkUpdateCampaignStatus_resolves.
  - intros campaignId startDate endDate w. split.
    + apply getCampaignPerformance_resolves.
    + apply getCampaignPerformance_rejects.
  - intros campaignId items w. split; [|split].
    + intros m resp. apply bulkCreateLineItems_lookup_rejected.
    + intros w1 campaignResponse.
      apply bulkCreateLineItems_resolves_after_lookup.
    + intros w1 found item rest m r message ->.
      apply bulkCreateLineItems_message_rejected.
Qed.
End MacroFacts.

(** ** The calls a computation makes *)

Section CallFacts.
Context {number : Type} `{JsRuntime number}.
#[local] Abbreviation value := (value number).
Variable P : call number -> Prop.

Lemma appends_only_ret {A} (a : A) : appends_only P (ret a : M number A).
Proof. intros w. exists []. simpl. now rewrite app_nil_r. Qed.

Lemma appends_only_throw {A} (e : thrown number) : appends_only P (throw e : M number A).
Proof. intros w. exists []. simpl. now rewrite app_nil_r. Qed.

Lemma appends_only_bind {A B} (m : M number A) (k : A -> M number B) :
  appends_only P m -> (forall a, appends_only P (k a)) -> appends_only P (bind m k).
Proof.
  intros Hm Hk w. destruct (Hm w) as (cs & E & Hcs). unfold bind.
  destruct (m w) as [[a|e] w1]; simpl in E.
  - destruct (Hk a w1) as (cs' & E' & Hcs'). exists (cs ++ cs')%list.
    rewrite E', E, app_assoc. split; [reflexivity | now apply Forall_app].
  - exists cs. now split.
Qed.

Lemma appends_only_catch {A} (m : M number A) (handler : thrown number -> M number A) :
  appends_only P m -> (forall e, appends_only P (handler e)) ->
  appends_only P (try_catch m handler).
Proof.
  intros Hm Hh w. destruct (Hm w) as (cs & E & Hcs). unfold try_catch.
  destruct (m w) as [[a|e] w1]; simpl in E.
  - exists cs. now split.
  - destruct (Hh e w1) as (cs' & E' & Hcs'). exists (cs ++ cs')%list.
    rewrite E', E, app_assoc. split; [reflexivity | now apply Forall_app].
Qed.

Lemma appends_only_for_each {A S} (body : S -> A -> M number S) :
  (forall s x, appends_only P (body s x)) ->
  forall xs s, appends_only P (for_each xs s body).
Proof.
  intros Hb xs. induction xs as [|x rest IH]; intros s; simpl.
  - apply appends_only_ret.
  - apply appends_only_bind; [apply Hb | intros; apply IH].
Qed.

Lemma appends_only_axios (c : call number) : P c -> appends_only P (axios c).
Proof.
  intros Hc w. exists [c]. unfold axios.
  destruct (replies w (cursor w)); simpl; split; auto.
Qed.

Lemma appends_only_getp (v : value) (k : string) : appends_only P (getp v k).
Proof.
  unfold getp. destruct (nullish v); [apply appends_only_throw | apply appends_only_ret].
Qed.

Lemma appends_only_completed {A} (r : A + string) :
  appends_only P (completed r : M number A).
Proof. destruct r; [apply appends_only_ret | apply appends_only_throw]. Qed.

Lemma appends_only_iterate (v : value) : appends_only P (iterate v).
Proof.
  destruct v; simpl; apply appends_only_throw || apply appends_only_ret.
Qed.

Lemma appends_only_request (method url : string) (options : req_options number) :
  (forall c, c_url c = url -> P c) ->
  appends_only P (BeeswaxClient.request method url options).
Proof.
  intros Hurl. unfold BeeswaxClient.request. apply appends_only_catch.
  - apply appends_only_bind.
    + apply appends_only_axios. apply Hurl.
      destruct (String.eqb (toUpperCase method) "GET"); reflexivity.
    + intros r. apply appends_only_bind; [apply appends_only_getp|].
      intros s. destruct (is_false s); [apply appends_only_throw | apply appends_only_ret].
  - intros e. destruct (truthy (error_response_data e)); apply appends_only_throw.
Qed.

Variable this : resource.
Hypothesis Hendpoint : forall c, c_url c = endpoint this -> P c.
Hypothesis Hstrict : forall c, c_url c = endpoint this ++ "/strict" -> P c.

Lemma appends_only_find (id : value) : appends_only P (BaseResource.find this id).
Proof.
  unfold BaseResource.find. apply appends_only_bind.
  - now apply appends_only_request.
  - intros r. apply appends_only_ret.
Qed.

Lemma appends_only_query (body : value) : appends_only P (BaseResource.query this body).
Proof.
  unfold BaseResource.query. apply appends_only_bind.
  - now apply appends_only_request.
  - intros r. apply appends_only_ret.
Qed.

Lemma appends_only_create (body : value) : appends_only P (BaseResource.create this body).
Proof.
  unfold BaseResource.create.
  destruct (negb (isPOJO body) || no_keys body); [apply appends_only_ret|].
  apply appends_only_bind.
  - now apply appends_only_request.
  - intros r. destruct (truthy (prop r "success") && _);
      [apply appends_only_find | apply appends_only_ret].
Qed.
End CallFacts.

(** ** cloneCampaign: the request bodies *)

Section CloneBodies.
Context {number : Type} `{JsRuntime number}.
#[local] Abbreviation value := (value number).

Lemma own_delete_none (fields : list (string * value)) e k :
  own fields k = None -> own (delete_field fields e) k = None.
Proof.
  intros Hnone. destruct (string_dec e k) as [->|Hne].
  - apply own_delete_same.
  - now rewrite own_delete_other.
Qed.

Lemma own_deletes_none (excluded : list string) :
  forall (fields : list (string * value)) k,
    own fields k = None -> own (fold_left delete_field excluded fields) k = None.
Proof.
  induction excluded as [|e rest IH]; intros fields k Hnone; simpl; [exact Hnone|].
  apply IH. now apply own_delete_none.
Qed.

Lemma own_deletes_in (excluded : list string) :
  forall (fields : list (string * value)) k,
    In k excluded -> own (fold_left delete_field excluded fields) k = None.
Proof.
  induction excluded as [|e rest IH]; intros fields k Hin; simpl; [destruct Hin|].
  destruct Hin as [->|Hin].
  - apply own_deletes_none, own_delete_same.
  - now apply IH.
Qed.

Lemma own_deletes_other (excluded : list string) :
  forall (fields : list (string * value)) k,
    ~ In k excluded -> own (fold_left delete_field excluded fields) k = own fields k.
Proof.
  induction excluded as [|e rest IH]; intros fields k Hnotin; simpl; [reflexivity|].
  rewrite IH.
  - apply own_delete_other. intros ->. apply Hnotin. now left.
  - intros Hin. apply Hnotin. now right.
Qed.

Lemma rest_without_in (excluded : list string) (v : value) k :
  In k excluded -> prop (VObj (CampaignMacros.rest_without excluded v)) k = VUndefined.
Proof.
  intros Hin. unfold CampaignMacros.rest_without. cbn [prop].
  now rewrite own_deletes_in.
Qed.

Lemma rest_without_other (excluded : list string) (fields : list (string * value)) k :
  ~ In k excluded ->
  prop (VObj (CampaignMacros.rest_without excluded (VObj fields))) k
  = prop (VObj fields) k.
Proof.
  intros Hnotin. unfold CampaignMacros.rest_without. cbn [prop spread].
  now rewrite own_deletes_other.
Qed.

(** The new campaign: budget scaled, read-only properties left out. *)
Lemma cloned_campaign_budget (originalCampaign newName options : value) :
  truthy (opt_prop options "budget_multiplier") = true ->
  prop (CampaignMacros.cloned_campaign originalCampaign newName options) "campaign_budget"
  = scaled (prop originalCampaign "campaign_budget") (prop options "budget_multiplier").
Proof.
  intros Hm. unfold CampaignMacros.cloned_campaign. cbv zeta. rewrite Hm.
  now rewrite prop_set_same.
Qed.

Lemma cloned_campaign_strips (originalCampaign newName options : value) k :
  In k CampaignMacros.campaign_read_only ->
  prop (CampaignMacros.cloned_campaign originalCampaign newName options) k = VUndefined.
Proof.
  intros Hin. unfold CampaignMacros.cloned_campaign. cbv zeta.
  assert (Hk : k <> "name" /\ k <> "start_date" /\ k <> "end_date"
               /\ k <> "campaign_budget").
  { unfold CampaignMacros.campaign_read_only in Hin. simpl in Hin.
    repeat (destruct Hin as [<-|Hin]; [repeat split; discriminate|]).
    destruct Hin. }
  destruct Hk as (H1 & H2 & H3 & H4).
  destruct (truthy (opt_prop options "budget_multiplier"));
    destruct (truthy (opt_prop options "end_date"));
    destruct (truthy (opt_prop options "start_date"));
    repeat (rewrite prop_set_other by congruence);
    now apply rest_without_in.
Qed.

Lemma campaign_normalize_budget (body : value) :
  is_undefined (prop body "campaign_budget") = false ->
  prop (CampaignResource.normalize body) "campaign_budget"
  = prop body "campaign_budget".
Proof.
  intros Hdef. unfold CampaignResource.normalize, CampaignResource.map_names. cbv zeta.
  rewrite Hdef. rewrite orb_true_r.
  cbn [negb]. now object_simpl.
Qed.

Lemma scaled_defined (x m : value) : is_undefined (scaled x m) = false.
Proof.
  unfold scaled, times. destruct (or_else x (num 0)), m; reflexivity.
Qed.

(** The clone of a line item: campaign of the clone, budget scaled. *)
Lemma cloned_line_item_facts (newCampaign options lineItem : value) :
  truthy (opt_prop options "budget_multiplier") = true ->
  prop (CampaignMacros.cloned_line_item newCampaign options lineItem) "campaign_id"
  = prop newCampaign "campaign_id"
  /\ prop (CampaignMacros.cloned_line_item newCampaign options lineItem) "line_item_budget"
     = scaled (prop lineItem "line_item_budget") (prop options "budget_multiplier")
  /\ prop (CampaignMacros.cloned_line_item newCampaign options lineItem) "line_item_id"
     = VUndefined.
Proof.
  intros Hm. unfold CampaignMacros.cloned_line_item. cbv zeta. rewrite Hm.
  repeat split; object_simpl; try reflexivity.
  apply rest_without_in. unfold CampaignMacros.line_item_read_only. simpl. now left.
Qed.

Lemma cloned_line_item_budget_alias (newCampaign options : value)
      (fields : list (string * value)) :
  prop (CampaignMacros.cloned_line_item newCampaign options (VObj fields)) "budget"
  = prop (VObj fields) "budget".
Proof.
  unfold CampaignMacros.cloned_line_item. cbv zeta.
  destruct (truthy (opt_prop options "budget_multiplier")); object_simpl;
    apply rest_without_other; unfold CampaignMacros.line_item_read_only; simpl;
    intuition discriminate.
Qed.

Lemma prop_if_set (c : bool) (d : list (string * value)) a v k :
  a <> k ->
  prop (VObj (if c then set_field d a v else d)) k = prop (VObj d) k.
Proof. intros. destruct c; [now apply prop_set_other | reflexivity]. Qed.

Lemma prop_if_set_delete (c : bool) (d : list (string * value)) a b v k :
  a <> k -> b <> k ->
  prop (VObj (if c then delete_field (set_field d a v) b else d)) k = prop (VObj d) k.
Proof.
  intros. destruct c; [|reflexivity].
  rewrite prop_delete_other by assumption. now apply prop_set_other.
Qed.

Lemma line_item_normalize_budget (fields : list (string * value)) :
  is_undefined (prop (VObj fields) "line_item_budget") = false ->
  truthy (prop (VObj fields) "budget") = false ->
  prop (LineItemResource.normalize (VObj fields)) "budget"
  = prop (VObj fields) "line_item_budget".
Proof.
  intros Hdef Hnone. unfold LineItemResource.normalize, LineItemResource.field.
  cbv zeta. cbn [spread].
  rewrite !prop_if_set by discriminate.
  rewrite prop_delete_other by discriminate.
  rewrite prop_set_other by discriminate.
  rewrite prop_if_set by discriminate.
  match goal with
  | |- context [negb (truthy (prop (VObj ?d) "budget"))] =>
      assert (Hd : prop (VObj d) "budget" = prop (VObj fields) "budget")
        by (rewrite !prop_if_set_delete by discriminate; reflexivity);
      rewrite Hd
  end.
  rewrite Hdef, Hnone. cbn [negb andb].
  now object_simpl.
Qed.
Lemma map_names_keeps (body : value) (d : list (string * value)) k :
  k <> "campaign_name" -> k <> "name" -> k <> "campaign_budget" -> k <> "budget" ->
  own (CampaignResource.map_names body d) k = own d k.
Proof.
  intros H1 H2 H3 H4. unfold CampaignResource.map_names. cbv zeta.
  destruct (truthy (or_else (prop body "name") (prop body "campaign_name")));
    destruct (negb (is_undefined (prop body "budget"))
              || negb (is_undefined (prop body "campaign_budget")));
    repeat first [ rewrite own_delete_other by congruence
                 | rewrite own_set_other by congruence ];
    reflexivity.
Qed.

Lemma own_assign_one (d : list (string * value)) k v k' :
  own (assign d [(k, v)]) k' = if String.eqb k k' then Some v else own d k'.
Proof.
  unfold assign. simpl. destruct (String.eqb k k') eqn:E.
  - apply String.eqb_eq in E. subst k'. apply own_set_same.
  - apply String.eqb_neq in E. now apply own_set_other.
Qed.

Lemma map_names_wins (body : value) (d : list (string * value)) :
  let sent := VObj (CampaignResource.map_names body d) in
  (truthy (prop body "campaign_name") = true ->
   prop sent "campaign_name" = prop body "campaign_name"
   /\ prop sent "name" = VUndefined)
  /\ (truthy (prop body "campaign_name") = false ->
      truthy (prop body "name") = true ->
      prop sent "campaign_name" = prop body "name"
      /\ prop sent "name" = VUndefined)
  /\ (is_undefined (prop body "campaign_budget") = false ->
      prop sent "campaign_budget" = prop body "campaign_budget"
      /\ prop sent "budget" = VUndefined)
  /\ (is_undefined (prop body "campaign_budget") = true ->
      is_undefined (prop body "budget") = false ->
      prop sent "campaign_budget" = prop body "budget"
      /\ prop sent "budget" = VUndefined).
Proof.
  cbv zeta. unfold CampaignResource.map_names. cbv zeta.
  split; [|split; [|split]].
  - intros Hc. unfold or_else. rewrite Hc.
    assert (Ht : truthy (if truthy (prop body "name") then prop body "name"
                         else prop body "campaign_name") = true).
    { destruct (truthy (prop body "name")) eqn:E; [exact E | exact Hc]. }
    rewrite Ht.
    destruct (negb (is_undefined (prop body "budget"))
              || negb (is_undefined (prop body "campaign_budget")));
      object_simpl; split; reflexivity.
  - intros Hc Hn. unfold or_else. rewrite Hc, Hn. rewrite Hn.
    destruct (negb (is_undefined (prop body "budget"))
              || negb (is_undefined (prop body "campaign_budget")));
      object_simpl; split; reflexivity.
  - intros Hb. rewrite Hb. rewrite orb_true_r. cbn [negb].
    object_simpl. split; reflexivity.
  - intros Hb Hb'. rewrite Hb, Hb'. cbn [negb orb].
    object_simpl. split; reflexivity.
Qed.

(** The properties that the name mapping of line items does not touch. *)
Lemma line_item_normalize_other (d : list (string * value)) k :
  k <> "name" -> k <> "line_item_name" -> k <> "type" -> k <> "line_item_type" ->
  k <> "budget" -> k <> "line_item_budget" -> k <> "id" -> k <> "line_item_id" ->
  k <> "spend_budget" -> k <> "frequency_caps" ->
  prop (LineItemResource.normalize (VObj d)) k = prop (VObj d) k.
Proof.
  intros. unfold LineItemResource.normalize, LineItemResource.field. cbv zeta.
  cbn [spread].
  repeat first
    [ rewrite prop_if_set by congruence
    | rewrite prop_if_set_delete by congruence
    | rewrite prop_delete_other by congruence
    | rewrite prop_set_other by congruence ].
  reflexivity.
Qed.

Lemma opt_prop_truthy (o : value) k :
  truthy (opt_prop o k) = true -> prop o k = opt_prop o k.
Proof. unfold opt_prop. destruct (nullish o); [discriminate | reflexivity]. Qed.

(** The properties of the source that the new campaign keeps. *)
Lemma cloned_campaign_other (fields : list (string * value)) (newName options : value) k :
  k <> "name" -> k <> "start_date" -> k <> "end_date" -> k <> "campaign_budget" ->
  ~ In k CampaignMacros.campaign_read_only ->
  prop (CampaignMacros.cloned_campaign (VObj fields) newName options) k
  = prop (VObj fields) k.
Proof.
  intros H1 H2 H3 H4 Hk. unfold CampaignMacros.cloned_campaign. cbv zeta.
  rewrite !prop_if_set by congruence. rewrite prop_set_other by congruence.
  now apply rest_without_other.
Qed.

Lemma cloned_campaign_name (originalCampaign newName options : value) :
  prop (CampaignMacros.cloned_campaign originalCampaign newName options) "name"
  = newName.
Proof.
  unfold CampaignMacros.cloned_campaign. cbv zeta.
  rewrite !prop_if_set by discriminate. apply prop_set_same.
Qed.

Lemma cloned_campaign_budget_kept (fields : list (string * value))
      (newName options : value) :
  truthy (opt_prop options "budget_multiplier") = false ->
  prop (CampaignMacros.cloned_campaign (VObj fields) newName options) "campaign_budget"
  = prop (VObj fields) "campaign_budget".
Proof.
  intros Hm. unfold CampaignMacros.cloned_campaign. cbv zeta. rewrite Hm.
  rewrite !prop_if_set by discriminate. rewrite prop_set_other by discriminate.
  apply rest_without_other. unfold CampaignMacros.campaign_read_only. simpl.
  intuition discriminate.
Qed.

(** The properties that the name mapping of campaigns does not touch. *)
Lemma campaign_normalize_other (d : list (string * value)) k :
  k <> "campaign_name" -> k <> "name" -> k <> "campaign_budget" -> k <> "budget" ->
  k <> "budget_type" ->
  prop (CampaignResource.normalize (VObj d)) k = prop (VObj d) k.
Proof.
  intros H1 H2 H3 H4 H5. unfold CampaignResource.normalize. cbv zeta. cbn [prop spread].
  rewrite map_names_keeps by assumption. rewrite own_assign_one.
  assert (E : String.eqb "budget_type" k = false) by (apply String.eqb_neq; congruence).
  now rewrite E.
Qed.

(** The budget sent for a campaign, whatever the body. *)
Lemma campaign_normalize_budget_any (d : list (string * value)) :
  prop (CampaignResource.normalize (VObj d)) "campaign_budget"
  = (if is_undefined (prop (VObj d) "campaign_budget") then prop (VObj d) "budget"
     else prop (VObj d) "campaign_budget").
Proof.
  destruct (is_undefined (prop (VObj d) "campaign_budget")) eqn:Eb.
  - destruct (is_undefined (prop (VObj d) "budget")) eqn:Eb'.
    + unfold CampaignResource.normalize, CampaignResource.map_names. cbv zeta.
      rewrite Eb, Eb'. cbn [negb orb].
      rewrite prop_if_set_delete by discriminate.
      cbn [prop spread]. rewrite own_assign_one. cbn [String.eqb Ascii.eqb Bool.eqb].
      change (prop (VObj d) "campaign_budget" = prop (VObj d) "budget").
      assert (Hu : forall v : value, is_undefined v = true -> v = VUndefined)
        by (intros []; simpl; congruence).
      now rewrite (Hu _ Eb), (Hu _ Eb').
    + unfold CampaignResource.normalize. cbv zeta.
      apply (map_names_wins (VObj d)); assumption.
  - unfold CampaignResource.normalize. cbv zeta.
    now apply (map_names_wins (VObj d)).
Qed.

Lemma line_item_normalize_drops_id (body : value) :
  prop (LineItemResource.normalize body) "line_item_id" = VUndefined.
Proof.
  unfold LineItemResource.normalize, LineItemResource.field. cbv zeta.
  rewrite !prop_if_set by discriminate. apply prop_delete_same.
Qed.

Lemma cloned_line_item_kept (newCampaign options : value)
      (fields : list (string * value)) :
  truthy (opt_prop options "budget_multiplier") = false ->
  prop (CampaignMacros.cloned_line_item newCampaign options (VObj fields))
       "line_item_budget"
  = prop (VObj fields) "line_item_budget".
Proof.
  intros Hm. unfold CampaignMacros.cloned_line_item. cbv zeta. rewrite Hm.
  rewrite prop_set_other by discriminate.
  apply rest_without_other. unfold CampaignMacros.line_item_read_only. simpl.
  intuition discriminate.
Qed.
End CloneBodies.

(** ** cloneCampaign: the line items created *)

Ltac appends_step :=
  cbv zeta;
  lazymatch goal with
  | |- appends_only _ (BaseResource.query _ _) =>
      apply appends_only_query; intros ? Eurl;
      unfold other_call, is_line_item_create; rewrite Eurl; reflexivity
  | |- appends_only _ (BaseResource.create _ _) =>
      apply appends_only_create; intros ? Eurl;
      unfold other_call, is_line_item_create; rewrite Eurl; reflexivity
  | |- appends_only _ (bind _ _) => apply appends_only_bind; [|intros]
  | |- appends_only _ (for_each _ _ _) => apply appends_only_for_each; intros
  | |- appends_only _ (if ?c then _ else _) => destruct c
  | |- appends_only _ (ret _) => apply appends_only_ret
  | |- appends_only _ (throw _) => apply appends_only_throw
  | |- appends_only _ (getp _ _) => apply appends_only_getp
  | |- appends_only _ (iterate _) => apply appends_only_iterate
  end.

Section CloneRun.
Context {number : Type} `{JsRuntime number}.
#[local] Abbreviation value := (value number).

Lemma request_post_sends (url : string) (options : req_options number)
      (w : world number) :
  snd (BeeswaxClient.request "POST" url options w)
  = after_call w (mkCall "POST" url (o_params options) (o_body options)
                    (o_headers options)).
Proof.
  unfold BeeswaxClient.request, try_catch, bind, axios, getp, throw, ret, after_call.
  change (String.eqb (toUpperCase "POST") "GET") with false. cbv iota.
  destruct (replies w (cursor w)) as [r|m r|m].
  - destruct (nullish (data r)).
    + destruct (truthy _); reflexivity.
    + destruct (is_false _); [destruct (truthy _)|]; reflexivity.
  - destruct (truthy _); reflexivity.
  - destruct (truthy _); reflexivity.
Qed.

Lemma line_item_create_sends (fields : list (string * value)) (w : world number) :
  sent (snd (LineItemResource.create (VObj fields) w))
  = (sent w ++ [line_item_create_call (LineItemResource.normalize (VObj fields))])%list.
Proof.
  unfold LineItemResource.create, getp. cbn [nullish]. unfold bind at 1. unfold ret at 1.
  unfold bind.
  pose proof (request_post_sends "/rest/v2/line-items"
                (BeeswaxClient.with_body (LineItemResource.normalize (VObj fields))) w)
    as Hsent.
  destruct (BeeswaxClient.request "POST" "/rest/v2/line-items" _ w) as [[response|e] w1];
    simpl in Hsent; subst w1.
  - destruct (truthy response && truthy (prop response "id"));
      [|destruct (truthy response && _)]; reflexivity.
  - reflexivity.
Qed.

Lemma sent_bind_appends {A B} (P : call number -> Prop)
      (m : M number A) (k : A -> M number B) (w : world number) :
  (forall a, appends_only P (k a)) ->
  exists cs, sent (snd (bind m k w)) = (sent (snd (m w)) ++ cs)%list /\ Forall P cs.
Proof.
  intros Hk. unfold bind. destruct (m w) as [[a|e] w1]; simpl.
  - apply Hk.
  - exists []. now rewrite app_nil_r.
Qed.

Lemma cloneCampaign_cli_calls (newLineItem : value)
      (result : full_campaign number) (cli : value) :
  appends_only other_call (CampaignMacros.cloneCampaign_cli newLineItem result cli).
Proof. unfold CampaignMacros.cloneCampaign_cli. repeat appends_step. Qed.

(** One iteration of the loop over the source line items: nothing is
    sent for an item that cannot be destructured; otherwise the first
    call creates the clone and no later call creates a line item. *)
Lemma cloneCampaign_line_item_calls (newCampaign options : value)
      (result : full_campaign number) (lineItem : value) (w : world number) :
  (exists e, CampaignMacros.cloneCampaign_line_item newCampaign options result lineItem w
             = (Rejected e, w))
  \/ (exists cs,
         sent (snd (CampaignMacros.cloneCampaign_line_item newCampaign options
                      result lineItem w))
         = (sent w ++
            line_item_create_call
              (LineItemResource.normalize
                 (CampaignMacros.cloned_line_item newCampaign options lineItem))
            :: cs)%list
         /\ Forall other_call cs).
Proof.
  unfold CampaignMacros.cloneCampaign_line_item, getp.
  destruct (nullish lineItem).
  - left. eexists. reflexivity.
  - right. unfold bind at 1. unfold ret at 1.
    match goal with
    | |- context [bind ?m ?k w] =>
        destruct (sent_bind_appends other_call m k w) as (cs & E & Hcs)
    end.
    + intros response. unfold delay, CampaignMacros.cloneCampaign_cli.
      repeat appends_step.
    + exists cs. split; [|exact Hcs]. rewrite E.
      unfold CampaignMacros.cloned_line_item at 1.
      rewrite line_item_create_sends. rewrite <- app_assoc. reflexivity.
Qed.

Lemma filter_other_calls (cs : list (call number)) :
  Forall other_call cs -> filter is_line_item_create cs = [].
Proof.
  induction 1 as [|c cs Hc _ IH]; [reflexivity|].
  simpl. unfold other_call in Hc. now rewrite Hc.
Qed.

Lemma cloneCampaign_loop (newCampaign options : value) (lineItemList : list value) :
  forall (result : full_campaign number) (w : world number),
  exists processed rest,
    lineItemList = (processed ++ rest)%list
    /\ filter is_line_item_create
         (sent (snd (for_each lineItemList result
                       (CampaignMacros.cloneCampaign_line_item newCampaign options) w)))
       = (filter is_line_item_create (sent w)
          ++ map (fun lineItem =>
                    line_item_create_call
                      (LineItemResource.normalize
                         (CampaignMacros.cloned_line_item newCampaign options lineItem)))
                 processed)%list
    /\ (forall a,
           fst (for_each lineItemList result
                  (CampaignMacros.cloneCampaign_line_item newCampaign options) w)
           = Resolved a -> rest = []).
Proof.
  induction lineItemList as [|lineItem others IH]; intros result w.
  - exists [], []. simpl. rewrite app_nil_r. auto.
  - cbn [for_each]. unfold bind.
    destruct (cloneCampaign_line_item_calls newCampaign options result lineItem w)
      as [(e & E) | (cs & E & Hcs)].
    + rewrite E. exists [], (lineItem :: others). simpl. rewrite app_nil_r.
      repeat split. intros a Ha. discriminate Ha.
    + destruct (CampaignMacros.cloneCampaign_line_item newCampaign options
                  result lineItem w) as [[result'|e] w1]; simpl in E.
      * destruct (IH result' w1) as (processed & rest & Hsplit & Hsent & Hdone).
        exists (lineItem :: processed), rest. split; [now rewrite Hsplit|].
        split; [|exact Hdone].
        rewrite Hsent, E. rewrite !filter_app. simpl.
        rewrite (filter_other_calls cs Hcs). now rewrite <- app_assoc.
      * exists [lineItem], others. simpl. split; [reflexivity|].
        split; [|intros a Ha; discriminate Ha].
        rewrite E, filter_app. simpl. now rewrite (filter_other_calls cs Hcs).
Qed.

Lemma cloneCampaign_loop_extends (newCampaign options : value)
      (lineItemList : list value) :
  forall (result : full_campaign number) (w : world number),
  exists cs,
    sent (snd (for_each lineItemList result
                 (CampaignMacros.cloneCampaign_line_item newCampaign options) w))
    = (sent w ++ cs)%list.
Proof.
  induction lineItemList as [|lineItem others IH]; intros result w.
  - exists []. simpl. now rewrite app_nil_r.
  - cbn [for_each]. unfold bind.
    destruct (cloneCampaign_line_item_calls newCampaign options result lineItem w)
      as [(e & E) | (cs & E & _)].
    + rewrite E. exists []. simpl. now rewrite app_nil_r.
    + destruct (CampaignMacros.cloneCampaign_line_item newCampaign options
                  result lineItem w) as [[result'|e] w1]; simpl in E.
      * destruct (IH result' w1) as (cs' & E'). rewrite E', E.
        eexists. rewrite <- app_assoc. reflexivity.
      * simpl. rewrite E. eexists. reflexivity.
Qed.

(** A campaign creation that succeeded has posted the normalized body;
    the only call after it is the lookup of the created campaign. *)
Lemma campaign_create_posted (body created : value) (w1 w2 : world number) :
  CampaignResource.create body w1 = (Resolved created, w2) ->
  truthy (prop created "success") = true ->
  exists cs,
    sent w2 = (sent w1 ++ mkCall "POST" "/rest/campaign/strict" VUndefined
                            (CampaignResource.normalize body) VUndefined :: cs)%list
    /\ Forall (fun c => c_method c = "GET" /\ c_url c = "/rest/campaign") cs.
Proof.
  intros E Hsuccess. unfold CampaignResource.create, getp in E.
  destruct (nullish body); [discriminate E|].
  unfold bind at 1, ret at 1 in E. unfold BaseResource.create in E.
  destruct (negb (isPOJO (CampaignResource.normalize body))
            || no_keys (CampaignResource.normalize body)).
  - unfold ret in E. inversion E. subst created. discriminate Hsuccess.
  - unfold bind in E.
    pose proof (request_post_sends "/rest/campaign/strict"
                  (BeeswaxClient.with_body (CampaignResource.normalize body)) w1)
      as Hsent.
    change (endpoint campaigns ++ "/strict") with "/rest/campaign/strict" in E.
    destruct (BeeswaxClient.request "POST" "/rest/campaign/strict" _ w1)
      as [[response|e] w'] eqn:Er; [|discriminate E].
    cbn [snd] in Hsent. subst w'.
    destruct (truthy (prop response "success") && _).
    + pose proof (find_sends campaigns (prop (prop response "payload") "id")
                    (after_call w1
                       (mkCall "POST" "/rest/campaign/strict"
                          (o_params (BeeswaxClient.with_body
                                       (CampaignResource.normalize body)))
                          (o_body (BeeswaxClient.with_body
                                     (CampaignResource.normalize body)))
                          (o_headers (BeeswaxClient.with_body
                                        (CampaignResource.normalize body))))))
        as Hfound.
      rewrite E in Hfound. cbn [snd] in Hfound. subst w2.
      eexists [_]. cbn [after_call sent]. rewrite <- app_assoc.
      split; [reflexivity|]. repeat constructor.
    + unfold ret in E. inversion E. subst w2.
      exists []. cbn [after_call sent]. split; [reflexivity | constructor].
Qed.

(** C6: what [cloneCampaign] sends.  Let the source campaign be found,
    the creation of the new campaign return a campaign with an identifier
    and the query of the source line items return [lineItemList].  Then
    the macro resolves, and the new campaign was created by a POST whose
    body

    - has the budget [(B || 0) * m] when the multiplier [m] is truthy,
      and the budget of the source when [m] is missing or falsy (0
      included);
    - has the name of the source, not [newName], whenever the source has
      a [campaign_name]: [newName] is stored under [name], which the
      name mapping of [campaigns.create] drops in favour of
      [campaign_name]; [newName] is sent only for a source without name;
    - has none of the read-only properties.

    The line items created are the clones of the items of
    [lineItemList], in order (all of them when the macro reports
    success), each under the identifier the server gave to the new
    campaign, without the source [line_item_id], and with the budget
    scaled like that of the campaign (sent as [budget] when the source
    item has no [budget] of its own). *)
Theorem clone_scales_budgets_under_new_campaign
        (campaignId newName options : value) (w w1 w2 w3 : world number)
        (originalFields : list (string * value))
        (created newCampaign : value) (lineItemList : list value) :
  BaseResource.find campaigns campaignId w
    = (Resolved (obj [("success", VBool true); ("payload", VObj originalFields)]), w1) ->
  CampaignResource.create
    (CampaignMacros.cloned_campaign (VObj originalFields) newName options) w1
    = (Resolved created, w2) ->
  truthy (prop created "success") = true ->
  prop created "payload" = newCampaign ->
  truthy newCampaign = true ->
  truthy (prop newCampaign "campaign_id") = true ->
  BaseResource.query lineItems (obj [("campaign_id", campaignId)]) w2
    = (Resolved (obj [("success", VBool true); ("payload", VArr lineItemList)]), w3) ->
  let original := VObj originalFields in
  let m := opt_prop options "budget_multiplier" in
  let budget_of x := if truthy m then scaled x m else x in
  let campaignBody :=
    CampaignResource.normalize
      (CampaignMacros.cloned_campaign original newName options) in
  let lineItemBody lineItem :=
    LineItemResource.normalize
      (CampaignMacros.cloned_line_item newCampaign options lineItem) in
  exists r w' processed rest cs later,
    CampaignMacros.cloneCampaign campaignId newName options w = (Resolved r, w')
    /\ sent w1 = (sent w ++ [mkCall "GET" "/rest/campaign"
                               (VObj [("campaign_id", campaignId)])
                               VUndefined VUndefined])%list
    /\ sent w2 = (sent w1 ++ mkCall "POST" "/rest/campaign/strict" VUndefined
                               campaignBody VUndefined :: cs)%list
    /\ Forall (fun c => c_method c = "GET" /\ c_url c = "/rest/campaign") cs
    /\ sent w' = (sent w2 ++ later)%list
    /\ prop campaignBody "campaign_budget"
       = (if truthy m then scaled (prop original "campaign_budget") m
          else if is_undefined (prop original "campaign_budget")
               then prop original "budget"
               else prop original "campaign_budget")
    /\ (truthy (prop original "campaign_name") = true ->
        prop campaignBody "campaign_name" = prop original "campaign_name"
        /\ prop campaignBody "name" = VUndefined)
    /\ (truthy (prop original "campaign_name") = false ->
        truthy newName = true ->
        prop campaignBody "campaign_name" = newName
        /\ prop campaignBody "name" = VUndefined)
    /\ (forall k, In k CampaignMacros.campaign_read_only ->
                  prop campaignBody k = VUndefined)
    /\ lineItemList = (processed ++ rest)%list
    /\ filter is_line_item_create (sent w')
       = (filter is_line_item_create (sent w3)
          ++ map (fun lineItem => line_item_create_call (lineItemBody lineItem))
                 processed)%list
    /\ (prop r "success" = VBool true -> rest = [])
    /\ (forall lineItem,
           prop (lineItemBody lineItem) "campaign_id" = prop newCampaign "campaign_id"
           /\ prop (lineItemBody lineItem) "line_item_id" = VUndefined)
    /\ (forall fields,
           truthy (prop (VObj fields) "budget") = false ->
           is_undefined (budget_of (prop (VObj fields) "line_item_budget")) = false ->
           prop (lineItemBody (VObj fields)) "budget"
           = budget_of (prop (VObj fields) "line_item_budget")).
Proof.
  intros Hfind Hcreate Hsuccess Hpayload Hnew Hid Hquery. cbv zeta.
  destruct (campaign_create_posted _ _ _ _ Hcreate Hsuccess) as (cs & Hposted & Hcs).
  destruct (cloneCampaign_loop newCampaign options lineItemList
              (mkFull newCampaign [] [] [] []) w3)
    as (processed & rest & Hsplit & Hsent & Hdone).
  assert (Hrun : exists r w',
             CampaignMacros.cloneCampaign campaignId newName options w = (Resolved r, w')
             /\ filter is_line_item_create (sent w')
                = (filter is_line_item_create (sent w3)
                   ++ map (fun lineItem =>
                             line_item_create_call
                               (LineItemResource.normalize
                                  (CampaignMacros.cloned_line_item newCampaign options
                                     lineItem)))
                          processed)%list
             /\ (prop r "success" = VBool true -> rest = [])
             /\ exists later, sent w' = (sent w3 ++ later)%list).
  { destruct (for_each lineItemList (mkFull newCampaign [] [] [] [])
                (CampaignMacros.cloneCampaign_line_item newCampaign options) w3)
      as [[result|e] w4] eqn:Eloop;
      [ exists (obj [("success", VBool true);
                     ("payload", CampaignMacros.payload_of result)])
      | exists (CampaignMacros.failure e "Failed to clone campaign") ];
      exists w4.
    all: split;
      [ unfold CampaignMacros.cloneCampaign, try_catch, bind;
        rewrite Hfind; cbn [obj assign fold_left set_field prop own String.eqb
                              Ascii.eqb Bool.eqb truthy negb orb fst snd];
        rewrite Hcreate, Hsuccess, Hpayload, Hnew, Hid; cbn [negb orb];
        rewrite Hquery; cbn [obj assign fold_left set_field prop own String.eqb
                               Ascii.eqb Bool.eqb truthy negb andb fst snd iterate];
        unfold ret at 1; rewrite Eloop; reflexivity
      | split; [exact Hsent|] ].
    all: (split;
          [ | destruct (cloneCampaign_loop_extends newCampaign options lineItemList
                          (mkFull newCampaign [] [] [] []) w3) as (later & Elater);
              rewrite Eloop in Elater; exists later; exact Elater ]).
    - intros _. now apply (Hdone result).
    - intros Hfalse. discriminate Hfalse. }
  destruct Hrun as (r & w' & Erun & Hcreated & Hall & later & Hlater).
  destruct (appends_only_query (fun _ => True) lineItems (fun _ _ => I)
              (obj [("campaign_id", campaignId)]) w2) as (asked & Hasked & _).
  rewrite Hquery in Hasked. cbn [snd] in Hasked.
  exists r, w', processed, rest, cs, (asked ++ later)%list.
  split; [exact Erun|].
  split.
  { pose proof (find_sends campaigns campaignId w) as Hfound.
    rewrite Hfind in Hfound. cbn [snd] in Hfound. now rewrite Hfound. }
  split; [exact Hposted|]. split; [exact Hcs|].
  split; [now rewrite Hlater, Hasked, app_assoc|].
  assert (Hbody : exists d, CampaignMacros.cloned_campaign (VObj originalFields)
                              newName options = VObj d)
    by (unfold CampaignMacros.cloned_campaign; cbv zeta; eexists; reflexivity).
  destruct Hbody as (d & Ed).
  split.
  { destruct (truthy (opt_prop options "budget_multiplier")) eqn:Hm.
    - rewrite campaign_normalize_budget;
        rewrite cloned_campaign_budget by exact Hm;
        rewrite (opt_prop_truthy _ _ Hm); [reflexivity | apply scaled_defined].
    - rewrite Ed, campaign_normalize_budget_any, <- Ed.
      rewrite (cloned_campaign_budget_kept _ _ _ Hm).
      rewrite cloned_campaign_other;
        [reflexivity | discriminate .. |].
      unfold CampaignMacros.campaign_read_only. simpl. intuition discriminate. }
  assert (Hcn : prop (VObj d) "campaign_name" = prop (VObj originalFields) "campaign_name").
  { rewrite <- Ed. apply cloned_campaign_other; try discriminate.
    unfold CampaignMacros.campaign_read_only. simpl. intuition discriminate. }
  assert (Hn : prop (VObj d) "name" = newName)
    by (rewrite <- Ed; apply cloned_campaign_name).
  split.
  { intros Hname. rewrite Ed. unfold CampaignResource.normalize. cbv zeta.
    rewrite <- Hcn. apply (map_names_wins (VObj d)). now rewrite Hcn. }
  split.
  { intros Hname Hnew'. rewrite Ed. unfold CampaignResource.normalize. cbv zeta.
    rewrite <- Hn at 1. apply (map_names_wins (VObj d)); [now rewrite Hcn | now rewrite Hn]. }
  split.
  { intros k Hk. rewrite Ed, campaign_normalize_other, <- Ed.
    - now apply cloned_campaign_strips.
    - intros ->. simpl in Hk. intuition discriminate.
    - intros ->. simpl in Hk. intuition discriminate.
    - intros ->. simpl in Hk. intuition discriminate.
    - intros ->. simpl in Hk. intuition discriminate.
    - intros ->. simpl in Hk. intuition discriminate. }
  split; [exact Hsplit|]. split; [exact Hcreated|]. split; [exact Hall|].
  split.
  - intros lineItem. split.
    + unfold CampaignMacros.cloned_line_item at 1. cbv zeta.
      rewrite line_item_normalize_other by discriminate.
      rewrite prop_if_set by discriminate. apply prop_set_same.
    + apply line_item_normalize_drops_id.
  - intros fields Hbudget Hdefined.
    assert (Hlib : prop (CampaignMacros.cloned_line_item newCampaign options (VObj fields))
                        "line_item_budget"
                   = (if truthy (opt_prop options "budget_multiplier")
                      then scaled (prop (VObj fields) "line_item_budget")
                             (opt_prop options "budget_multiplier")
                      else prop (VObj fields) "line_item_budget")).
    { destruct (truthy (opt_prop options "budget_multiplier")) eqn:Hm.
      - rewrite <- (opt_prop_truthy _ _ Hm).
        apply (cloned_line_item_facts newCampaign options (VObj fields) Hm).
      - now apply cloned_line_item_kept. }
    rewrite <- Hlib in *.
    unfold CampaignMacros.cloned_line_item in *.
    apply line_item_normalize_budget; [exact Hdefined|].
    fold (CampaignMacros.cloned_line_item newCampaign options (VObj fields)).
    rewrite cloned_line_item_budget_alias. exact Hbudget.
Qed.
End CloneRun.

(* ================================================================= *)
(** * Part III: the model on concrete inputs *)
(* ================================================================= *)

Section Runs.
#[local] Abbreviation value := (value Z).
#[local] Open Scope Z_scope.

(** A failed targeting-template query (no connection) gives the empty
    page. *)
Lemma targeting_template_query_offline :
  TargetingTemplateResource.query (VUndefined : value) (script [])
  = (Resolved (obj [("success", VBool true); ("payload", VArr []);
                    ("message", VStr TargetingTemplateResource.deprecation)]),
     mkWorld (replies (script [])) 1
             [mkCall "GET" "/rest/targeting_template" (VObj []) VUndefined VUndefined]).
Proof.
  refine (proj1 (proj2 (targeting_template_create_deprecated_query_best_effort
                          VUndefined (script []))) _ _ _).
  reflexivity.
Defined.

(** C5 as stated fails: the server returns an empty result set and
    [find] resolves to [{success: true, payload: undefined}]; no
    response with [success: false] is produced. *)
Lemma find_on_empty_result_reports_success :
  fst (BaseResource.find campaigns (VNum 7) (script [empty_page]))
  = Resolved (obj [("success", VBool true); ("payload", VUndefined)])
  /\ ~ (exists r : value,
           fst (BaseResource.find campaigns (VNum 7) (script [empty_page])) = Resolved r
           /\ prop r "success" = VBool false).
Proof.
  split; [reflexivity|].
  intros (r & E & Hs). vm_compute in E. inversion E. subst r. discriminate Hs.
Qed.

Lemma find_on_empty_result_run :
  BaseResource.find campaigns (VNum 7) (script [empty_page])
  = (Resolved (obj [("success", VBool true); ("payload", VUndefined)]),
     mkWorld (replies (script [empty_page])) 1
             [mkCall "GET" "/rest/campaign" (VObj [("campaign_id", VNum 7)])
                VUndefined VUndefined]).
Proof.
  exact (proj1 (find_returns_first_record_or_undefined campaigns (VNum 7)
                  (script [empty_page])
                  (mkResponse 200 (obj [("success", VBool true); ("payload", VArr [])])
                              (VObj []))
                  eq_refl eq_refl eq_refl)).
Defined.

Lemma creative_type_video_run :
  prop (CreativeResource.normalize (VObj [("type", VStr "Video")] : value)) "creative_type"
  = VNum 1.
Proof.
  exact (proj1 (proj2 (creative_type_is_normalized
                         [("type", VStr "Video")] "Video" eq_refl))).
Defined.

(** *** Macros *)

(** The only edit of [bulkUpdateCampaignStatus] throws (no connection):
    the macro counts it as failed and resolves. *)
Example bulk_update_counts_a_thrown_edit :
  fst (CampaignResource.edit (VNum 1) (obj [("active", VBool true)]) false (script []))
  = Rejected (AxiosError "Network Error" None)
  /\ fst (CampaignMacros.bulkUpdateCampaignStatus [VNum 1] (VBool true) (script []))
     = Resolved (obj [("success", VBool true);
                      ("payload", obj [("updated", VNum 0); ("failed", VNum 1)])]).
Proof. split; reflexivity. Qed.

(** Where C1 fails.  The campaign lookup of [bulkCreateLineItems] is
    outside any [try]: without connection the macro rejects. *)
Example bulk_create_rejects_when_lookup_throws :
  CampaignMacros.bulkCreateLineItems (VNum 1) two_items (script [])
  = (Rejected (AxiosError "Network Error" None),
     mkWorld (replies (script [])) 1
       [mkCall "GET" "/rest/campaign" (VObj [("campaign_id", VNum 1)])
          VUndefined VUndefined]).
Proof. reflexivity. Qed.

(** So it does when the server refuses the lookup with a body: the body
    is what the macro rejects with. *)
Example bulk_create_rejects_when_lookup_is_refused :
  fst (CampaignMacros.bulkCreateLineItems (VNum 1) two_items
         (script [http_error 500 (obj [("message", VStr "busy")])]))
  = Rejected (ThrownValue (obj [("message", VStr "busy")])).
Proof. reflexivity. Qed.

(** The [catch] of [getCampaignPerformance] calls [error.toString()]:
    the server refuses the report with a body that has a property
    [toString], and the macro rejects with the [TypeError]. *)
Example performance_rejects_on_a_shadowing_body :
  fst (CampaignMacros.getCampaignPerformance (VNum 1) (VStr "2026-01-01")
         (VStr "2026-01-31") (script [http_error 400 shadowing_body]))
  = Rejected (JsError "error.toString is not a function").
Proof. reflexivity. Qed.

(** The [catch] of an item of [bulkCreateLineItems] prints
    [error.message]: the lookup made for the first item is refused with
    a message that cannot be converted, and the macro rejects. *)
Example bulk_create_rejects_on_a_shadowing_message :
  fst (CampaignMacros.bulkCreateLineItems (VNum 1) two_items
         (script [ok (obj [("success", VBool true);
                           ("payload", VArr [VObj source_campaign])]);
                  http_error 400 shadowing_message]))
  = Rejected (JsError "Cannot convert object to primitive value").
Proof. reflexivity. Qed.

Lemma bulk_server_messages : messages_convert bulk_server.
Proof.
  intros n m r E. destruct n as [|[|[|[|n]]]]; simpl in E; try discriminate E.
  - inversion E. reflexivity.
  - destruct n; discriminate E.
Defined.

(** Two items, the first created and the second failing: the error is
    reported in [errors] and the macro resolves. *)
Lemma bulk_create_two_items_run :
  exists r w',
    CampaignMacros.bulkCreateLineItems (VNum 1) two_items bulk_server = (Resolved r, w')
    /\ has_boolean_success r
    /\ prop r "success" = VBool false
    /\ prop r "payload" = VArr [VObj [("id", VNum 6); ("line_item_id", VNum 6)]]
    /\ prop r "errors" = VArr [VStr "Error creating line item Second: busy"].
Proof.
  destruct (proj1 (proj2 (proj2 (proj2 (proj2 (proj2
              (@macros_resolve_to_structured_responses Z Z_runtime))))
              (VNum 1) two_items bulk_server))
              (after_call bulk_server
                 (mkCall "GET" "/rest/campaign" (VObj [("campaign_id", VNum 1)])
                    VUndefined VUndefined))
              (obj [("success", VBool true); ("payload", VObj source_campaign)])
              eq_refl bulk_server_messages)
    as (r & w' & Erun & Hsuccess).
  - repeat constructor.
  - exists r, w'. split; [exact Erun|]. split; [exact Hsuccess|].
    vm_compute in Erun. inversion Erun. repeat split; reflexivity.
Defined.

(** The scenario of the specification: the first id is edited, the
    second is rejected by the server. *)
Example bulk_update_one_invalid_id :
  fst (CampaignMacros.bulkUpdateCampaignStatus [VNum 1; VNum 2] (VBool false)
         (script [ok (obj [("success", VBool true)]);
                  ok (obj [("success", VBool true);
                           ("payload", VArr [obj [("campaign_id", VNum 1)]])]);
                  http_error 404 (obj [("success", VBool false)])]))
  = Resolved (obj [("success", VBool true);
                   ("payload", obj [("updated", VNum 1); ("failed", VNum 1)])]).
Proof. reflexivity. Qed.

(** *** queryAll *)

(** A resource of exactly 50 records: one full page and an empty one. *)
Lemma queryAll_fifty_records_run :
  BaseResource.queryAll advertisers 2 VUndefined two_pages
  = (Resolved (Some (obj [("success", VBool true);
                          ("payload", VArr (List.concat [full_page] ++ []))])),
     mkWorld (replies two_pages) (cursor two_pages + 2)
             (sent two_pages
              ++ map (fun i => page_request advertisers VUndefined (50 * Z.of_nat i))
                     (seq 0 2))).
Proof.
  apply (queryAll_concatenates_pages_until_short advertisers VUndefined
           [full_page] [] 2 two_pages).
  - repeat constructor.
  - simpl. lia.
  - intros i p Hp.
    destruct i as [|[|i]]; simpl in Hp.
    + inversion Hp. subst p. eexists. repeat split; reflexivity.
    + inversion Hp. subst p. eexists. repeat split; reflexivity.
    + destruct i; discriminate Hp.
  - simpl. lia.
Defined.

(** *** cloneCampaign *)

(** The scenario of the claim with the multiplier 2: the budgets are
    doubled, and the campaign is created under the name of its source. *)
Lemma clone_doubled_run :
  exists r w',
    CampaignMacros.cloneCampaign (VNum 1) (VStr "Copy") doubled clone_server
    = (Resolved r, w')
    /\ nth_error (sent w') 1
       = Some (mkCall "POST" "/rest/campaign/strict" VUndefined
                 (VObj [("campaign_name", VStr "Orig"); ("campaign_budget", VNum 20000);
                        ("budget_type", VNum 2)])
                 VUndefined)
    /\ filter is_line_item_create (sent w')
       = [line_item_create_call
            (VObj [("campaign_id", VNum 2); ("budget", VNum 10000);
                   ("type", VStr "banner"); ("id", VNull);
                   ("spend_budget", obj [("lifetime", VNull); ("daily", VNull);
                                         ("include_fees", VBool true)]);
                   ("frequency_caps", VNull)])].
Proof.
  destruct (@clone_scales_budgets_under_new_campaign Z Z_runtime
              (VNum 1) (VStr "Copy") doubled clone_server
              (snd (BaseResource.find campaigns (VNum 1) clone_server))
              (snd (CampaignResource.create
                      (CampaignMacros.cloned_campaign (VObj source_campaign)
                         (VStr "Copy") doubled)
                      (snd (BaseResource.find campaigns (VNum 1) clone_server))))
              (after_call
                 (snd (CampaignResource.create
                         (CampaignMacros.cloned_campaign (VObj source_campaign)
                            (VStr "Copy") doubled)
                         (snd (BaseResource.find campaigns (VNum 1) clone_server))))
                 (mkCall "GET" "/rest/line_item" (VObj [("campaign_id", VNum 1)])
                    VUndefined VUndefined))
              source_campaign
              (obj [("success", VBool true); ("payload", new_campaign)])
              new_campaign [source_line_item])
    as (r & w' & processed & rest & cs & later & Erun & _);
    try (vm_compute; reflexivity).
  exists r, w'. split; [exact Erun|].
  vm_compute in Erun. inversion Erun. split; reflexivity.
Defined.

(** The multiplier 0: the condition [if (options?.budget_multiplier)]
    skips the scaling, and the new campaign is created with the budget
    10000 of its source, not with [10000 * 0]. *)
Example clone_with_multiplier_zero_keeps_budget :
  nth_error
    (sent (snd (CampaignMacros.cloneCampaign (VNum 1) (VStr "Copy")
                  (obj [("budget_multiplier", VNum 0)]) clone_server))) 1
  = Some (mkCall "POST" "/rest/campaign/strict" VUndefined
            (VObj [("campaign_name", VStr "Orig"); ("campaign_budget", VNum 10000);
                   ("budget_type", VNum 2)])
            VUndefined)
  /\ VNum (num_mul 10000 0) <> (VNum 10000 : value).
Proof. split; [reflexivity | discriminate]. Qed.

(** Where C6 fails.  The new name is lost: [cloneCampaign] stores it
    under [name], and [CampaignResource.create] prefers the
    [campaign_name] copied from the source and deletes [name]. *)
Example clone_sends_the_source_name :
  nth_error
    (sent (snd (CampaignMacros.cloneCampaign (VNum 1) (VStr "Copy") doubled
                  clone_server))) 1
  = Some (mkCall "POST" "/rest/campaign/strict" VUndefined
            (VObj [("campaign_name", VStr "Orig"); ("campaign_budget", VNum 20000);
                   ("budget_type", VNum 2)])
            VUndefined).
Proof. reflexivity. Qed.
End Runs.

(* ================================================================= *)
(** * Part IV: properties of the Session Manager *)
(* ================================================================= *)

Module SessionFacts.
Import Session.
#[local] Open Scope list_scope.

Lemma nth_error_set_nth {A : Type} (i j : nat) (x : A) (l : list A) :
  nth_error (set_nth i x l) j =
    match nth_error l j with
    | Some y => Some (if Nat.eqb j i then x else y)
    | None => None
    end.
Proof.
  revert i j. induction l as [|y rest IH]; intros i j.
  - destruct j; reflexivity.
  - destruct i, j; simpl; try reflexivity.
    + now destruct (nth_error rest j).
    + apply IH.
Qed.

Lemma nth_error_snoc {A : Type} (l : list A) (x y : A) (i : nat) :
  nth_error (l ++ [x]) i = Some y ->
  nth_error l i = Some y \/ (i = List.length l /\ y = x).
Proof.
  intros E. destruct (Nat.lt_ge_cases i (List.length l)) as [Hlt|Hge].
  - left. now rewrite nth_error_app1 in E.
  - right. rewrite nth_error_app2 in E by exact Hge.
    destruct (i - List.length l) as [|k] eqn:Ek; simpl in E.
    + inversion E. split; [lia | reflexivity].
    + destruct k; discriminate E.
Qed.

Lemma nth_error_snoc_old {A : Type} (l : list A) (x y : A) (i : nat) :
  nth_error l i = Some y -> nth_error (l ++ [x]) i = Some y.
Proof.
  intros E. rewrite nth_error_app1; [exact E|].
  apply nth_error_Some. now rewrite E.
Qed.

Lemma nth_error_snoc_new {A : Type} (l : list A) (x : A) :
  nth_error (l ++ [x]) (List.length l) = Some x.
Proof. rewrite nth_error_app2 by lia. now rewrite Nat.sub_diag. Qed.

Lemma nth_error_length_none {A : Type} (l : list A) :
  nth_error l (List.length l) = None.
Proof. apply nth_error_None. lia. Qed.

(** *** The effect of the updates *)

Lemma with_attempt_lookup (s : client) (p : nat) (a : attempt_state) (p' : nat) :
  nth_error (attempts (with_attempt s p a)) p' =
    match nth_error (attempts s) p' with
    | Some old => Some (if Nat.eqb p' p then mkAttempt a (creator old) else old)
    | None => None
    end.
Proof.
  unfold with_attempt. destruct (nth_error (attempts s) p) as [old|] eqn:E; simpl.
  - rewrite nth_error_set_nth. destruct (nth_error (attempts s) p') as [old'|] eqn:E';
      [|reflexivity].
    destruct (Nat.eqb p' p) eqn:Ep; [|reflexivity].
    apply Nat.eqb_eq in Ep. subst p'. rewrite E in E'. now inversion E'.
  - destruct (nth_error (attempts s) p') as [old'|] eqn:E'; [|reflexivity].
    destruct (Nat.eqb p' p) eqn:Ep; [|reflexivity].
    apply Nat.eqb_eq in Ep. subst p'. rewrite E in E'. discriminate E'.
Qed.

Lemma with_attempt_frame (s : client) (p : nat) (a : attempt_state) :
  authPromise (with_attempt s p a) = authPromise s
  /\ calls (with_attempt s p a) = calls s
  /\ requests (with_attempt s p a) = requests s
  /\ microtasks (with_attempt s p a) = microtasks s
  /\ login_posts (with_attempt s p a) = login_posts s.
Proof. unfold with_attempt. destruct (nth_error (attempts s) p); simpl; auto. Qed.

Lemma with_outcome_lookup (s : client) (c : nat) (o : settlement) (c' : nat) :
  nth_error (calls (with_outcome s c o)) c' =
    match nth_error (calls s) c' with
    | Some call =>
        Some (if Nat.eqb c' c
              then mkAuthCall (joined call) (started call) (from call) (Some o)
              else call)
    | None => None
    end.
Proof.
  unfold with_outcome. destruct (nth_error (calls s) c) as [old|] eqn:E; simpl.
  - rewrite nth_error_set_nth. destruct (nth_error (calls s) c') as [old'|] eqn:E';
      [|reflexivity].
    destruct (Nat.eqb c' c) eqn:Ec; [|reflexivity].
    apply Nat.eqb_eq in Ec. subst c'. rewrite E in E'. now inversion E'.
  - destruct (nth_error (calls s) c') as [old'|] eqn:E'; [|reflexivity].
    destruct (Nat.eqb c' c) eqn:Ec; [|reflexivity].
    apply Nat.eqb_eq in Ec. subst c'. rewrite E in E'. discriminate E'.
Qed.

Lemma with_outcome_frame (s : client) (c : nat) (o : settlement) :
  authPromise (with_outcome s c o) = authPromise s
  /\ attempts (with_outcome s c o) = attempts s
  /\ requests (with_outcome s c o) = requests s
  /\ microtasks (with_outcome s c o) = microtasks s
  /\ login_posts (with_outcome s c o) = login_posts s.
Proof. unfold with_outcome. destruct (nth_error (calls s) c); simpl; auto. Qed.

Lemma with_request_lookup (s : client) (r : nat) (q : request) (r' : nat) :
  nth_error (requests (with_request s r q)) r' =
    match nth_error (requests s) r' with
    | Some old => Some (if Nat.eqb r' r then q else old)
    | None => None
    end.
Proof. unfold with_request. simpl. apply nth_error_set_nth. Qed.

Lemma adopters_no_finally (p : nat) (cs : list auth_call) :
  forall c c', ~ In (Finally c') (adopters_from p c cs).
Proof.
  induction cs as [|call rest IH]; intros c c' Hin; simpl in Hin; [exact Hin|].
  destruct (_ && _) in Hin; [destruct Hin as [Hin|Hin]; [discriminate Hin|]|];
    eapply IH, Hin.
Qed.

(** *** The invariant *)

Lemma invariant_init : invariant init.
Proof.
  constructor; simpl.
  - intros p (a & E & _). destruct p; discriminate E.
  - intros c call q E. destruct c; discriminate E.
  - intros c [].
  - lia.
  - intros r q E. destruct r; discriminate E.
  - intros c call r E. destruct c; discriminate E.
Qed.

Lemma invariant_authenticate (who : origin) (s : client) :
  invariant s ->
  authenticated who s (fst (authenticate who s)) (snd (authenticate who s)).
Proof.
  intros [HB HG HF1 HF2 HC HI]. unfold authenticate.
  destruct (authPromise s) as [p|] eqn:Ehandle.
  - set (joined_state := mkClient (Some p) (attempts s)
                           (calls s ++ [mkAuthCall p false who None])
                           (requests s) (microtasks s) (login_posts s)).
    assert (Hframe : forall s', (s' = joined_state
                                 \/ s' = enqueue joined_state
                                          [Adopt (List.length (calls s))]) ->
                                authenticated who s s' (List.length (calls s))).
    { intros s' Hs'.
      assert (Ea : attempts s' = attempts s) by (destruct Hs'; subst; reflexivity).
      assert (Eh : authPromise s' = Some p) by (destruct Hs'; subst; reflexivity).
      assert (Ec : calls s' = calls s ++ [mkAuthCall p false who None])
        by (destruct Hs'; subst; reflexivity).
      assert (Er : requests s' = requests s) by (destruct Hs'; subst; reflexivity).
      assert (Ep : login_posts s' = login_posts s) by (destruct Hs'; subst; reflexivity).
      assert (Em : forall c, In (Finally c) (microtasks s') -> In (Finally c) (microtasks s)).
      { destruct Hs'; subst; simpl; [auto|]. intros c Hin.
        apply in_app_or in Hin. destruct Hin as [Hin|[Hin|[]]]; [exact Hin | discriminate Hin]. }
      assert (Ef : filter is_finally (microtasks s') = filter is_finally (microtasks s)).
      { destruct Hs'; subst; simpl; [reflexivity|]. rewrite filter_app. simpl.
        now rewrite app_nil_r. }
      constructor.
      - reflexivity.
      - exists p, false. split; [exact Ec|]. split; [exact Eh|]. split.
        + intros p0 E0. rewrite Ehandle in E0. inversion E0. repeat split; auto.
        + intros E0. rewrite Ehandle in E0. discriminate E0.
      - intros p' a E. now rewrite Ea.
      - exact Er.
      - intros p' (a & Ea' & Hs). rewrite Eh. apply HB.
        exists a. now rewrite <- Ea.
      - intros c Hin. destruct (HF1 c (Em c Hin)) as (p' & Ep' & Hp').
        exists p'. rewrite Eh. split; [exact Ep'|].
        unfold attempt_settled in *. now rewrite Ea.
      - now rewrite Ef. }
    destruct (attempt_settled s p); simpl; apply Hframe; [now right | now left].
  - simpl. constructor; simpl.
    + reflexivity.
    + exists (List.length (attempts s)), true.
      split; [reflexivity|]. split; [reflexivity|]. split.
      * intros p0 E0. rewrite Ehandle in E0. discriminate E0.
      * intros _. repeat split; reflexivity.
    + intros p a E. now apply nth_error_snoc_old.
    + reflexivity.
    + intros p (a & Ea & Hs).
      destruct (nth_error_snoc _ _ _ _ Ea) as [Hold|[-> _]]; [|reflexivity].
      assert (Hu : unsettled s p) by (now exists a).
      apply HB in Hu. discriminate Hu.
    + intros c Hin. destruct (HF1 c Hin) as (p & Ep & _). discriminate Ep.
    + exact HF2.
Qed.

(** [authenticate()] called by user code. *)
Lemma invariant_authenticate_user (s : client) :
  invariant s -> invariant (fst (authenticate User s)).
Proof.
  intros Hinv. pose proof (invariant_authenticate User s Hinv) as Hauth.
  destruct Hinv as [HB HG HF1 HF2 HC HI].
  destruct Hauth as [Hc (p & st & Ecalls & Eh & Hjoin & Hnew) Hold Er HB' HF1' HF2'].
  constructor; try assumption.
  - intros c call q Hcall Hfrom Hout. rewrite Ecalls in Hcall.
    destruct (nth_error_snoc _ _ _ _ Hcall) as [Hcall'|[_ ->]]; [|discriminate Hfrom].
    destruct (HG c call q Hcall' Hfrom Hout) as (Hj & a & Ea & Hst).
    split; [exact Hj|]. exists a. split; [now apply Hold | exact Hst].
  - intros r q. rewrite Er. apply HC.
  - intros c call r Hcall Hfrom Hout. rewrite Ecalls in Hcall. rewrite Er.
    destruct (nth_error_snoc _ _ _ _ Hcall) as [Hcall'|[_ ->]]; [|discriminate Hfrom].
    now apply (HI c call r).
Qed.

Lemma filter_no_finally (q : list job) :
  (forall c, ~ In (Finally c) q) -> filter is_finally q = [].
Proof.
  induction q as [|j rest IH]; intros Hno; [reflexivity|].
  destruct j as [c|c]; simpl.
  - exfalso. apply (Hno c). now left.
  - apply IH. intros c' Hin. apply (Hno c'). now right.
Qed.

Lemma filter_finally_in (q : list job) (c : nat) :
  In (Finally c) q -> 1 <= List.length (filter is_finally q).
Proof.
  intros Hin. assert (Hf : In (Finally c) (filter is_finally q))
    by (apply filter_In; now split).
  destruct (filter is_finally q); [destruct Hf | simpl; lia].
Qed.

Lemma attempt_settled_unsettled (s : client) (p : nat) :
  unsettled s p -> attempt_settled s p = false.
Proof. intros (a & E & Hs). unfold attempt_settled. now rewrite E. Qed.

(** [performAuthentication] settles while its POST is in flight. *)
Lemma invariant_settle_attempt (p : nat) (o : settlement) (s : client)
      (a : attempt) (retried : bool) :
  invariant s ->
  nth_error (attempts s) p = Some a -> state a = InFlight retried ->
  invariant (settle_attempt p o s).
Proof.
  intros [HB HG HF1 HF2 HC HI] Ea Hst. unfold settle_attempt. rewrite Ea.
  assert (Hu : unsettled s p) by (exists a; rewrite Hst; now split).
  pose proof (HB p Hu) as Hhandle.
  assert (Hnone : forall c, ~ In (Finally c) (microtasks s)).
  { intros c Hin. destruct (HF1 c Hin) as (p' & Ep' & Hp').
    rewrite Hhandle in Ep'. inversion Ep'. subst p'.
    rewrite (attempt_settled_unsettled s p Hu) in Hp'. discriminate Hp'. }
  destruct (with_attempt_frame s p (Settled o)) as (Fh & Fc & Fr & Fm & Fp).
  constructor; unfold unsettled, attempt_settled, enqueue;
    cbn [authPromise attempts calls requests microtasks login_posts];
    rewrite ?Fh, ?Fc, ?Fr, ?Fm.
  - intros p' (a' & Ea' & Hs'). rewrite with_attempt_lookup in Ea'.
    destruct (nth_error (attempts s) p') as [old|] eqn:Eold; [|discriminate Ea'].
    inversion Ea'. subst a'. clear Ea'.
    destruct (Nat.eqb p' p); [discriminate Hs'|].
    apply HB. now exists old.
  - intros c call q Hc Hfrom Hout.
    destruct (HG c call q Hc Hfrom Hout) as (Hj & a' & Ea' & Hst').
    split; [exact Hj|]. exists a'. split; [|exact Hst'].
    rewrite with_attempt_lookup, Ea'.
    destruct (Nat.eqb q p) eqn:Eq; [|reflexivity].
    apply Nat.eqb_eq in Eq. rewrite Eq in Ea'. rewrite Ea in Ea'. inversion Ea'.
    subst a'. rewrite Hst in Hst'. discriminate Hst'.
  - intros c Hin. exists p. split; [exact Hhandle|].
    rewrite with_attempt_lookup, Ea, Nat.eqb_refl. reflexivity.
  - rewrite filter_app. cbn [filter is_finally]. rewrite (filter_no_finally _ Hnone).
    rewrite (filter_no_finally (adopters_from p 0 (calls s)))
      by (intros c; apply adopters_no_finally).
    simpl. lia.
  - exact HC.
  - exact HI.
Qed.

(** A call of [authenticate()] is resumed. *)
Lemma invariant_resume (c : nat) (s : client) :
  invariant s -> invariant (resume c s).
Proof.
  intros Hinv. unfold resume.
  destruct (nth_error (calls s) c) as [call|] eqn:Ecall; [|exact Hinv].
  destruct (outcome call) as [|] eqn:Eout; [exact Hinv|].
  destruct (nth_error (attempts s) (joined call)) as [a|] eqn:Ea; [|exact Hinv].
  destruct (state a) as [| |o] eqn:Hst; try exact Hinv.
  destruct Hinv as [HB HG HF1 HF2 HC HI].
  unfold settle_call. rewrite Ecall.
  destruct (with_outcome_frame s c o) as (Fh & Fa & Fr & Fm & Fp).
  assert (Hcalls : forall c' call',
             nth_error (calls (with_outcome s c o)) c' = Some call' ->
             outcome call' = None ->
             c' <> c /\ nth_error (calls s) c' = Some call').
  { intros c' call' E Hnone. rewrite with_outcome_lookup in E.
    destruct (nth_error (calls s) c') as [old|]; [|discriminate E].
    inversion E. subst call'. clear E.
    destruct (Nat.eqb c' c) eqn:Ec; [discriminate Hnone|].
    apply Nat.eqb_neq in Ec. now split. }
  assert (Hbase : invariant (with_outcome s c o)).
  { constructor; rewrite ?Fh, ?Fa, ?Fr, ?Fm; try assumption.
    - intros p (a' & Ea' & Hs'). rewrite Fa in Ea'. apply HB. now exists a'.
    - intros c' call' q Hc' Hfrom Hnone.
      destruct (Hcalls c' call' Hc' Hnone) as (_ & Hold). now apply (HG c' call' q).
    - intros c' Hin. destruct (HF1 c' Hin) as (p & Ep & Hp). exists p.
      split; [exact Ep|]. unfold attempt_settled in *. now rewrite Fa.
    - intros c' call' r Hc' Hfrom Hnone.
      destruct (Hcalls c' call' Hc' Hnone) as (_ & Hold). now apply (HI c' call' r). }
  destruct (from call) as [|r|q] eqn:Efrom.
  - exact Hbase.
  - destruct (HI c call r Ecall Efrom Eout) as (q & Eq & Hphase).
    rewrite Fr, Eq.
    pose proof (HC r q Eq) as Hcounts. unfold request_counts in Hcounts.
    rewrite Hphase in Hcounts. destruct Hcounts as (Hretry & Hd & Hauth).
    assert (Hinv' : forall q',
               request_counts q' ->
               (forall c', at_phase q' <> AwaitingAuth c') ->
               invariant (with_request (with_outcome s c o) r q')).
    { intros q' Hq' Hnot. destruct Hbase as [HB' HG' HF1' HF2' HC' HI'].
      constructor; try assumption.
      - intros r' q0 E. rewrite with_request_lookup in E.
        destruct (nth_error (requests (with_outcome s c o)) r') as [old|] eqn:Eold;
          [|discriminate E].
        inversion E. subst q0. destruct (Nat.eqb r' r); [exact Hq' | now apply (HC' r')].
      - intros c' call' r' Hc' Hfrom Hnone.
        destruct (Hcalls c' call' Hc' Hnone) as (Hne & Hold).
        destruct (HI c' call' r' Hold Hfrom Hnone) as (q0 & Eq0 & Hphase0).
        exists q0. split; [|exact Hphase0].
        rewrite with_request_lookup, Fr, Eq0.
        destruct (Nat.eqb r' r) eqn:Er; [|reflexivity].
        apply Nat.eqb_eq in Er. subst r'. rewrite Eq in Eq0. inversion Eq0. subst q0.
        rewrite Hphase in Hphase0. inversion Hphase0. congruence. }
    destruct o; apply Hinv'; unfold request_counts; simpl;
      try (intros c' Hc'; discriminate Hc').
    + right. repeat split; [exact Hretry | now rewrite Hd | exact Hauth].
    + repeat split; assumption.
  - destruct (HG c call q Ecall Efrom Eout) as (Hj & a' & Ea' & Hst').
    rewrite Hj in Ea. rewrite Ea in Ea'. inversion Ea'. subst a'.
    rewrite Hst in Hst'. discriminate Hst'.
Qed.

Lemma invariant_tick (s : client) : invariant s -> invariant (tick s).
Proof.
  intros Hinv. unfold tick.
  destruct (microtasks s) as [|j rest] eqn:Equeue; [exact Hinv|].
  destruct Hinv as [HB HG HF1 HF2 HC HI].
  destruct j as [c|c]; apply invariant_resume; constructor;
    cbn [authPromise attempts calls requests microtasks login_posts];
    try assumption.
  - (* the finally block clears the stored promise *)
    intros p Hu. destruct (HF1 c) as (p' & Ep' & Hp'); [rewrite Equeue; now left|].
    pose proof (HB p Hu) as Ep. rewrite Ep in Ep'. inversion Ep'. subst p'.
    destruct Hu as (a & Ea & Hs). cbn [attempts] in Ea. unfold attempt_settled in Hp'.
    rewrite Ea, Hs in Hp'. discriminate Hp'.
  - intros c' Hin. exfalso. rewrite Equeue in HF2. simpl in HF2.
    pose proof (filter_finally_in rest c' Hin). lia.
  - rewrite Equeue in HF2. simpl in HF2. lia.
  - intros c' Hin. apply (HF1 c'). rewrite Equeue. now right.
  - rewrite Equeue in HF2. simpl in HF2. exact HF2.
Qed.

Lemma invariant_send (s : client) : invariant s -> invariant (send s).
Proof.
  intros [HB HG HF1 HF2 HC HI]. constructor; try assumption.
  - intros r q E. cbn [send requests] in E.
    destruct (nth_error_snoc _ _ _ _ E) as [Hold|[_ ->]]; [now apply (HC r)|].
    left. now repeat split.
  - intros c call r Hc Hfrom Hnone. cbn [send calls] in Hc.
    destruct (HI c call r Hc Hfrom Hnone) as (q & Eq & Hphase).
    exists q. split; [|exact Hphase]. cbn [send requests]. now apply nth_error_snoc_old.
Qed.

Lemma invariant_request_response (r : nat) (st : status) (s : client) :
  invariant s -> invariant (request_response r st s).
Proof.
  intros Hinv. unfold request_response.
  destruct (nth_error (requests s) r) as [q|] eqn:Eq; [|exact Hinv].
  destruct (at_phase q) eqn:Hphase; try exact Hinv.
  pose proof (counts s Hinv r q Eq) as Hcounts.
  unfold request_counts in Hcounts. rewrite Hphase in Hcounts.
  assert (Hdone : forall q',
             request_counts q' -> (forall c, at_phase q' <> AwaitingAuth c) ->
             invariant (with_request s r q')).
  { intros q' Hq' Hnot. destruct Hinv as [HB HG HF1 HF2 HC HI].
    constructor; try assumption.
    - intros r' q0 E. rewrite with_request_lookup in E.
      destruct (nth_error (requests s) r') as [old|] eqn:Eold; [|discriminate E].
      inversion E. subst q0. destruct (Nat.eqb r' r); [exact Hq' | now apply (HC r')].
    - intros c call r' Hc Hfrom Hnone.
      destruct (HI c call r' Hc Hfrom Hnone) as (q0 & Eq0 & Hphase0).
      exists q0. split; [|exact Hphase0].
      rewrite with_request_lookup, Eq0.
      destruct (Nat.eqb r' r) eqn:Er; [|reflexivity].
      apply Nat.eqb_eq in Er. rewrite Er in Eq0. rewrite Eq in Eq0. inversion Eq0.
      subst q0. rewrite Hphase in Hphase0. discriminate Hphase0. }
  destruct st.
  - apply Hdone; [exact Hcounts | intros c Hc; discriminate Hc].
  - destruct (retry q) eqn:Hretry.
    + apply Hdone; [|intros c Hc; discriminate Hc].
      unfold request_counts. simpl.
      destruct Hcounts as [(Hr & _)|Hcounts]; [congruence | exact Hcounts].
    + pose proof (invariant_authenticate (RequestInterceptor r) s Hinv) as Hauth.
      destruct (authenticate (RequestInterceptor r) s) as [s' c] eqn:Eauth.
      cbn [fst snd] in Hauth.
      destruct Hauth as [Hc (p & started & Ecalls & Eh & Hjoin & Hnew)
                            Hold Er HB' HF1' HF2'].
      destruct Hinv as [HB HG HF1 HF2 HC HI].
      constructor; try assumption.
      * intros c' call q' Hcall Hfrom Hnone. cbn [with_request calls] in Hcall.
        rewrite Ecalls in Hcall.
        destruct (nth_error_snoc _ _ _ _ Hcall) as [Hcall'|[_ ->]];
          [|discriminate Hfrom].
        destruct (HG c' call q' Hcall' Hfrom Hnone) as (Hj & a & Ea & Hst).
        split; [exact Hj|]. exists a. split; [now apply Hold | exact Hst].
      * intros r' q0 E. rewrite with_request_lookup, Er in E.
        destruct (nth_error (requests s) r') as [old|] eqn:Eold; [|discriminate E].
        inversion E. subst q0. destruct (Nat.eqb r' r); [|now apply (HC r')].
        unfold request_counts. simpl.
        destruct Hcounts as [(_ & Hd & Ha)|(Hr & _)]; [|congruence].
        repeat split; [exact Hd | now rewrite Ha].
      * intros c' call r' Hcall Hfrom Hnone. cbn [with_request calls] in Hcall.
        rewrite Ecalls in Hcall. rewrite with_request_lookup, Er.
        destruct (nth_error_snoc _ _ _ _ Hcall) as [Hcall'|[Hc' ->]].
        -- destruct (HI c' call r' Hcall' Hfrom Hnone) as (q0 & Eq0 & Hphase0).
           rewrite Eq0. destruct (Nat.eqb r' r) eqn:Err.
           ++ apply Nat.eqb_eq in Err. rewrite Err in Eq0. rewrite Eq in Eq0.
              inversion Eq0. subst q0. rewrite Hphase in Hphase0. discriminate Hphase0.
           ++ now exists q0.
        -- cbn [from] in Hfrom. inversion Hfrom. subst r'.
           rewrite Eq, Nat.eqb_refl. eexists. split; [reflexivity|].
           cbn [at_phase]. now rewrite Hc', <- Hc.
  - apply Hdone; [exact Hcounts | intros c Hc; discriminate Hc].
Qed.

Lemma invariant_login_response (p : nat) (st : status) (s : client) :
  invariant s -> invariant (login_response p st s).
Proof.
  intros Hinv. unfold login_response.
  destruct (nth_error (attempts s) p) as [a|] eqn:Ea; [|exact Hinv].
  destruct (state a) as [retried| |] eqn:Hst; try exact Hinv.
  destruct st; try (now apply (invariant_settle_attempt p _ s a retried)).
  destruct retried; [now apply (invariant_settle_attempt p _ s a true)|].
  pose proof (invariant_authenticate (LoginInterceptor p) s Hinv) as Hauth.
  destruct (authenticate (LoginInterceptor p) s) as [s' c] eqn:Eauth.
  cbn [fst snd] in Hauth.
  destruct Hauth as [Hc (p0 & started & Ecalls & Eh & Hjoin & Hnew) Hold Er HB' HF1' HF2'].
  destruct Hinv as [HB HG HF1 HF2 HC HI].
  assert (Hhandle : authPromise s = Some p).
  { apply HB. exists a. rewrite Hst. now split. }
  destruct (Hjoin p Hhandle) as (Ep0 & Eattempts & Eposts). subst p0.
  destruct (with_attempt_frame s' p (AwaitingCall c)) as (Fh & Fc & Fr & Fm & Fp).
  constructor; rewrite ?Fh, ?Fc, ?Fr, ?Fm; try assumption.
  - intros p' (a' & Ea' & Hs'). rewrite Eh.
    rewrite with_attempt_lookup, Eattempts in Ea'.
    destruct (nth_error (attempts s) p') as [old|] eqn:Eold; [|discriminate Ea'].
    inversion Ea'. subst a'. clear Ea'.
    destruct (Nat.eqb p' p) eqn:Ep; [apply Nat.eqb_eq in Ep; now subst|].
    rewrite <- Hhandle. apply HB. now exists old.
  - intros c' call q Hcall Hfrom Hnone. rewrite Ecalls in Hcall.
    rewrite with_attempt_lookup, Eattempts.
    destruct (nth_error_snoc _ _ _ _ Hcall) as [Hcall'|[Hc' ->]].
    + destruct (HG c' call q Hcall' Hfrom Hnone) as (Hj & a' & Ea' & Hst').
      split; [exact Hj|]. rewrite Ea'. exists a'. split; [|exact Hst'].
      destruct (Nat.eqb q p) eqn:Eq; [|reflexivity].
      apply Nat.eqb_eq in Eq. rewrite Eq in Ea'. rewrite Ea in Ea'. inversion Ea'.
      subst a'. rewrite Hst in Hst'. discriminate Hst'.
    + cbn [from joined] in *. inversion Hfrom. subst q. split; [reflexivity|].
      rewrite Ea, Nat.eqb_refl. eexists. split; [reflexivity|].
      cbn [state]. now rewrite Hc', <- Hc.
  - intros c' Hin. destruct (HF1' c' Hin) as (p' & Ep' & Hp').
    rewrite Eh in Ep'. inversion Ep'. subst p'.
    unfold attempt_settled in Hp'. rewrite Eattempts, Ea, Hst in Hp'. discriminate Hp'.
  - intros r q. rewrite Er. apply HC.
  - intros c' call r Hcall Hfrom Hnone. rewrite Ecalls in Hcall. rewrite Er.
    destruct (nth_error_snoc _ _ _ _ Hcall) as [Hcall'|[_ ->]]; [|discriminate Hfrom].
    now apply (HI c' call r).
Qed.

Lemma invariant_step (e : event) (s : client) : invariant s -> invariant (step e s).
Proof.
  intros Hinv. destruct e; simpl.
  - now apply invariant_authenticate_user.
  - now apply invariant_send.
  - now apply invariant_login_response.
  - now apply invariant_request_response.
  - now apply invariant_tick.
Qed.

Lemma invariant_run (events : list event) :
  forall s, invariant s -> invariant (run events s).
Proof.
  induction events as [|e rest IH]; intros s Hinv; [exact Hinv|].
  apply IH. now apply invariant_step.
Qed.

Lemma invariant_reachable (s : client) : reachable s -> invariant s.
Proof. intros (events & ->). apply invariant_run, invariant_init. Qed.

Lemma reachable_run (events : list event) (s : client) :
  reachable s -> reachable (run events s).
Proof.
  intros (prefix & ->). exists (prefix ++ events). unfold run. now rewrite fold_left_app.
Qed.

(** *** Attempts, once settled, stay settled *)

Lemma authenticate_attempts (who : origin) (s : client) (p : nat) (a : attempt) :
  nth_error (attempts s) p = Some a ->
  nth_error (attempts (fst (authenticate who s))) p = Some a.
Proof.
  intros E. unfold authenticate. destruct (authPromise s) as [p'|].
  - destruct (attempt_settled s p'); exact E.
  - simpl. now apply nth_error_snoc_old.
Qed.

Lemma resume_attempts (c : nat) (s : client) (p : nat) (a : attempt) :
  invariant s ->
  nth_error (attempts s) p = Some a ->
  nth_error (attempts (resume c s)) p = Some a.
Proof.
  intros Hinv E. unfold resume.
  destruct (nth_error (calls s) c) as [call|] eqn:Ecall; [|exact E].
  destruct (outcome call) as [|] eqn:Eout; [exact E|].
  destruct (nth_error (attempts s) (joined call)) as [a'|] eqn:Ea; [|exact E].
  destruct (state a') as [| |o] eqn:Hst; try exact E.
  unfold settle_call. rewrite Ecall.
  destruct (with_outcome_frame s c o) as (Fh & Fa & Fr & Fm & Fp).
  destruct (from call) as [|r|q] eqn:Efrom.
  - now rewrite Fa.
  - destruct (nth_error (requests (with_outcome s c o)) r); [destruct o|];
      unfold with_request; cbn [attempts]; now rewrite Fa.
  - destruct (login_interceptor_waits s Hinv c call q Ecall Efrom Eout)
      as (Hj & a0 & Ea0 & Hst0).
    rewrite Hj in Ea. rewrite Ea in Ea0. inversion Ea0. subst a0.
    rewrite Hst in Hst0. discriminate Hst0.
Qed.

Lemma step_attempts (e : event) (s : client) (p : nat) (a : attempt) :
  invariant s ->
  nth_error (attempts s) p = Some a ->
  exists a',
    nth_error (attempts (step e s)) p = Some a'
    /\ ((forall retried, state a <> InFlight retried) -> a' = a).
Proof.
  intros Hinv E. destruct e as [| |p' st|r st|]; simpl.
  - exists a. split; [now apply authenticate_attempts | reflexivity].
  - exists a. now split.
  - unfold login_response.
    destruct (nth_error (attempts s) p') as [a0|] eqn:E0; [|now exists a].
    destruct (state a0) as [retried| |] eqn:Hst0; try (now exists a).
    assert (Hset : forall o,
               exists a', nth_error (attempts (settle_attempt p' o s)) p = Some a'
                          /\ ((forall retried, state a <> InFlight retried) -> a' = a)).
    { intros o. unfold settle_attempt. rewrite E0. unfold enqueue. cbn [attempts].
      rewrite with_attempt_lookup, E. eexists. split; [reflexivity|].
      intros Hs. destruct (Nat.eqb p p') eqn:Ep; [|reflexivity].
      apply Nat.eqb_eq in Ep. subst p'. rewrite E in E0. inversion E0. subst a0.
      exfalso. exact (Hs _ Hst0). }
    destruct st; try apply Hset. destruct retried; [apply Hset|].
    pose proof (authenticate_attempts (LoginInterceptor p') s p a E) as Hauth.
    destruct (authenticate (LoginInterceptor p') s) as [s' c]. cbn [fst] in Hauth.
    rewrite with_attempt_lookup, Hauth. eexists. split; [reflexivity|].
    intros Hs. destruct (Nat.eqb p p') eqn:Ep; [|reflexivity].
    apply Nat.eqb_eq in Ep. subst p'. rewrite E in E0. inversion E0. subst a0.
    exfalso. exact (Hs _ Hst0).
  - exists a. split; [|reflexivity]. unfold request_response.
    destruct (nth_error (requests s) r) as [q|]; [|exact E].
    destruct (at_phase q); try exact E.
    destruct st; try exact E. destruct (retry q); [exact E|].
    pose proof (authenticate_attempts (RequestInterceptor r) s p a E) as Hauth.
    destruct (authenticate (RequestInterceptor r) s) as [s' c]. exact Hauth.
  - exists a. split; [|reflexivity]. unfold tick.
    destruct (microtasks s) as [|j rest] eqn:Equeue; [exact E|].
    pose proof (invariant_tick s Hinv) as Htick. unfold tick in Htick.
    rewrite Equeue in Htick.
    destruct Hinv as [HB HG HF1 HF2 HC HI].
    destruct j as [c|c]; apply resume_attempts; try exact E.
    + constructor; cbn [authPromise attempts calls requests microtasks]; try assumption.
      * intros p0 Hu. destruct (HF1 c) as (p1 & Ep1 & Hp1); [rewrite Equeue; now left|].
        pose proof (HB p0 Hu) as Ep0. rewrite Ep0 in Ep1. inversion Ep1. subst p1.
        rewrite (attempt_settled_unsettled s p0 Hu) in Hp1. discriminate Hp1.
      * intros c' Hin. exfalso. rewrite Equeue in HF2. simpl in HF2.
        pose proof (filter_finally_in rest c' Hin). lia.
      * rewrite Equeue in HF2. simpl in HF2. lia.
    + constructor; cbn [authPromise attempts calls requests microtasks]; try assumption.
      * intros c' Hin. apply (HF1 c'). rewrite Equeue. now right.
      * rewrite Equeue in HF2. simpl in HF2. exact HF2.
Qed.

Lemma run_settled_stays (events : list event) :
  forall (s : client) (p : nat) (a : attempt),
    invariant s ->
    nth_error (attempts s) p = Some a -> is_settled (state a) = true ->
    nth_error (attempts (run events s)) p = Some a.
Proof.
  induction events as [|e rest IH]; intros s p a Hinv E Hs; [exact E|].
  destruct (step_attempts e s p a Hinv E) as (a' & E' & Hsame).
  rewrite Hsame in E' by (intros retried Hr; rewrite Hr in Hs; discriminate Hs). simpl. apply IH; [now apply invariant_step | exact E' | exact Hs].
Qed.

(** *** No login POST while an attempt is unsettled *)

Lemma authenticate_joins (who : origin) (s : client) (p : nat) :
  authPromise s = Some p ->
  login_posts (fst (authenticate who s)) = login_posts s
  /\ attempts (fst (authenticate who s)) = attempts s
  /\ authPromise (fst (authenticate who s)) = Some p
  /\ calls (fst (authenticate who s)) = calls s ++ [mkAuthCall p false who None].
Proof.
  intros E. unfold authenticate. rewrite E.
  destruct (attempt_settled s p); simpl; auto.
Qed.

Lemma resume_posts (c : nat) (s : client) :
  invariant s -> login_posts (resume c s) = login_posts s.
Proof.
  intros Hinv. unfold resume.
  destruct (nth_error (calls s) c) as [call|] eqn:Ecall; [|reflexivity].
  destruct (outcome call) as [|] eqn:Eout; [reflexivity|].
  destruct (nth_error (attempts s) (joined call)) as [a'|] eqn:Ea; [|reflexivity].
  destruct (state a') as [| |o] eqn:Hst; try reflexivity.
  unfold settle_call. rewrite Ecall.
  destruct (with_outcome_frame s c o) as (Fh & Fa & Fr & Fm & Fp).
  destruct (from call) as [|r|q] eqn:Efrom.
  - exact Fp.
  - destruct (nth_error (requests (with_outcome s c o)) r); [destruct o|];
      unfold with_request; cbn [login_posts]; exact Fp.
  - destruct (login_interceptor_waits s Hinv c call q Ecall Efrom Eout)
      as (Hj & a0 & Ea0 & Hst0).
    rewrite Hj in Ea. rewrite Ea in Ea0. inversion Ea0. subst a0.
    rewrite Hst in Hst0. discriminate Hst0.
Qed.

Lemma settle_attempt_posts (p : nat) (o : settlement) (s : client) :
  login_posts (settle_attempt p o s) = login_posts s.
Proof.
  unfold settle_attempt. destruct (nth_error (attempts s) p); [|reflexivity].
  unfold enqueue. cbn [login_posts]. apply with_attempt_frame.
Qed.

Lemma step_posts (e : event) (s : client) (p : nat) :
  invariant s -> unsettled s p -> login_posts (step e s) = login_posts s.
Proof.
  intros Hinv Hu. pose proof (unsettled_is_stored s Hinv p Hu) as Hhandle.
  destruct e as [| |p' st|r st|]; simpl.
  - now apply (authenticate_joins User s p).
  - reflexivity.
  - unfold login_response.
    destruct (nth_error (attempts s) p') as [a0|]; [|reflexivity].
    destruct (state a0) as [retried| |]; try reflexivity.
    destruct st; try apply settle_attempt_posts.
    destruct retried; [apply settle_attempt_posts|].
    pose proof (authenticate_joins (LoginInterceptor p') s p Hhandle) as (Hp & _).
    destruct (authenticate (LoginInterceptor p') s) as [s' c]. cbn [fst] in Hp.
    rewrite <- Hp. apply with_attempt_frame.
  - unfold request_response.
    destruct (nth_error (requests s) r) as [q|]; [|reflexivity].
    destruct (at_phase q); try reflexivity.
    destruct st; try reflexivity. destruct (retry q); [reflexivity|].
    pose proof (authenticate_joins (RequestInterceptor r) s p Hhandle) as (Hp & _).
    destruct (authenticate (RequestInterceptor r) s) as [s' c]. exact Hp.
  - unfold tick. destruct (microtasks s) as [|j rest] eqn:Equeue; [reflexivity|].
    pose proof (invariant_tick s Hinv) as Htick.
    destruct Hinv as [HB HG HF1 HF2 HC HI].
    destruct j as [c|c].
    + (* no [finally] can be queued while an attempt is unsettled *)
      destruct (HF1 c) as (p1 & Ep1 & Hp1); [rewrite Equeue; now left|].
      rewrite Hhandle in Ep1. inversion Ep1. subst p1.
      rewrite (attempt_settled_unsettled s p Hu) in Hp1. discriminate Hp1.
    + rewrite resume_posts; [reflexivity|].
      constructor; cbn [authPromise attempts calls requests microtasks]; try assumption.
      * intros c' Hin. apply (HF1 c'). rewrite Equeue. now right.
      * rewrite Equeue in HF2. simpl in HF2. exact HF2.
Qed.

Lemma run_posts (events : list event) (p : nat) :
  forall s, invariant s -> unsettled s p -> unsettled (run events s) p ->
            login_posts (run events s) = login_posts s.
Proof.
  induction events as [|e rest IH]; intros s Hinv Hu Hend; [reflexivity|].
  simpl in *. destruct Hu as (a & Ea & Hs).
  destruct (step_attempts e s p a Hinv Ea) as (a' & Ea' & _).
  assert (Hu' : unsettled (step e s) p).
  { exists a'. split; [exact Ea'|].
    destruct (is_settled (state a')) eqn:Hs'; [|reflexivity].
    pose proof (run_settled_stays rest (step e s) p a'
                  (invariant_step e s Hinv) Ea' Hs') as Hstay.
    destruct Hend as (a'' & Ea'' & Hs''). rewrite Hstay in Ea''. inversion Ea''.
    subst a''. rewrite Hs' in Hs''. discriminate Hs''. }
  rewrite (IH (step e s) (invariant_step e s Hinv) Hu' Hend).
  apply (step_posts e s p Hinv). exists a. now split.
Qed.

Lemma at_most_one (A : Type) (f : A -> bool) (l : list A) :
  (forall i j a b, nth_error l i = Some a -> f a = true ->
                   nth_error l j = Some b -> f b = true -> i = j) ->
  List.length (filter f l) <= 1.
Proof.
  induction l as [|x rest IH]; intros Hsame; [simpl; lia|].
  simpl. destruct (f x) eqn:Hx.
  - assert (Hnone : filter f rest = []).
    { destruct (filter f rest) as [|y ys] eqn:Ef; [reflexivity|].
      assert (Hy : In y (filter f rest)) by (rewrite Ef; now left).
      apply filter_In in Hy. destruct Hy as (Hin & Hfy).
      apply In_nth_error in Hin. destruct Hin as (j & Ej).
      specialize (Hsame 0 (S j) x y eq_refl Hx Ej Hfy). discriminate Hsame. }
    rewrite Hnone. simpl. lia.
  - apply IH. intros i j a b Ea Ha Eb Hb.
    specialize (Hsame (S i) (S j) a b Ea Ha Eb Hb). lia.
Qed.

(** C2: in every reachable state at most one login POST awaits its
    response; a call of [authenticate()] made while a promise is stored is
    handed that promise and sends nothing; and from a state without stored
    promise, a first call followed by any events, among them any number of
    further calls, has sent exactly one login POST for as long as the
    attempt it started is unsettled. *)
Theorem authenticate_is_single_flight (s : client) :
  reachable s ->
  logins_in_flight s <= 1
  /\ (forall p, authPromise s = Some p ->
                login_posts (step Authenticate s) = login_posts s
                /\ attempts (step Authenticate s) = attempts s
                /\ calls (step Authenticate s)
                   = calls s ++ [mkAuthCall p false User None])
  /\ (authPromise s = None ->
      forall events,
        unsettled (run (Authenticate :: events) s) (List.length (attempts s)) ->
        login_posts (run (Authenticate :: events) s) = S (login_posts s)).
Proof.
  intros Hreach. pose proof (invariant_reachable s Hreach) as Hinv.
  split; [|split].
  - unfold logins_in_flight. apply at_most_one.
    intros i j a b Ea Ha Eb Hb.
    assert (Hi : authPromise s = Some i).
    { apply (unsettled_is_stored s Hinv). exists a. split; [exact Ea|].
      destruct (state a); [reflexivity | discriminate Ha | discriminate Ha]. }
    assert (Hj : authPromise s = Some j).
    { apply (unsettled_is_stored s Hinv). exists b. split; [exact Eb|].
      destruct (state b); [reflexivity | discriminate Hb | discriminate Hb]. }
    rewrite Hi in Hj. now inversion Hj.
  - intros p Hp. destruct (authenticate_joins User s p Hp) as (H1 & H2 & _ & H4).
    simpl. auto.
  - intros Hnone events Hend. simpl in *.
    assert (Hfirst : fst (authenticate User s)
                     = mkClient (Some (List.length (attempts s)))
                         (attempts s ++ [mkAttempt (InFlight false) (List.length (calls s))])
                         (calls s ++ [mkAuthCall (List.length (attempts s)) true User None])
                         (requests s) (microtasks s) (S (login_posts s))).
    { unfold authenticate. now rewrite Hnone. }
    rewrite (run_posts events (List.length (attempts s)) (fst (authenticate User s))).
    + now rewrite Hfirst.
    + now apply invariant_authenticate_user.
    + rewrite Hfirst. eexists. split; [apply nth_error_snoc_new | reflexivity].
    + exact Hend.
Qed.

(** *** A login answered by 401 *)

Lemma settle_attempt_calls (p : nat) (o : settlement) (s : client) :
  calls (settle_attempt p o s) = calls s.
Proof.
  unfold settle_attempt. destruct (nth_error (attempts s) p); [|reflexivity].
  unfold enqueue. cbn [calls]. apply with_attempt_frame.
Qed.

Lemma resume_calls (c : nat) (s : client) (c' : nat) (call' : auth_call) :
  nth_error (calls (resume c s)) c' = Some call' ->
  nth_error (calls s) c' = Some call'
  \/ exists call,
       nth_error (calls s) c' = Some call
       /\ attempt_settled s (joined call) = true
       /\ joined call' = joined call.
Proof.
  unfold resume.
  destruct (nth_error (calls s) c) as [call|] eqn:Ecall; [|now left].
  destruct (outcome call) as [|] eqn:Eout; [now left|].
  destruct (nth_error (attempts s) (joined call)) as [a|] eqn:Ea; [|now left].
  destruct (state a) as [| |o] eqn:Hst; try (now left).
  assert (Hcalls : calls (settle_call c o s) = calls (with_outcome s c o)).
  { unfold settle_call. rewrite Ecall. destruct (from call) as [|r|q].
    - reflexivity.
    - destruct (nth_error (requests (with_outcome s c o)) r); [destruct o|]; reflexivity.
    - destruct o.
      + cbn [calls]. apply with_attempt_frame.
      + apply settle_attempt_calls. }
  rewrite Hcalls, with_outcome_lookup. intros E.
  destruct (nth_error (calls s) c') as [old|] eqn:Eold; [|discriminate E].
  inversion E. clear E. destruct (Nat.eqb c' c) eqn:Ec; [|now left].
  apply Nat.eqb_eq in Ec. subst c'. rewrite Ecall in Eold. inversion Eold. subst old.
  right. exists call. repeat split.
  unfold attempt_settled. now rewrite Ea, Hst.
Qed.

Lemma step_calls (e : event) (s : client) (p : nat) (c' : nat) (call' : auth_call) :
  authPromise s = Some p ->
  nth_error (calls (step e s)) c' = Some call' ->
  nth_error (calls s) c' = Some call'
  \/ (c' = List.length (calls s) /\ joined call' = p /\ outcome call' = None)
  \/ exists call,
       nth_error (calls s) c' = Some call
       /\ attempt_settled s (joined call) = true
       /\ joined call' = joined call.
Proof.
  intros Hhandle E.
  assert (Hjoin : forall who s',
             calls s' = calls (fst (authenticate who s)) ->
             nth_error (calls s') c' = Some call' ->
             nth_error (calls s) c' = Some call'
             \/ (c' = List.length (calls s) /\ joined call' = p /\ outcome call' = None)).
  { intros who s' Es' E'. rewrite Es' in E'.
    destruct (authenticate_joins who s p Hhandle) as (_ & _ & _ & Ecalls).
    rewrite Ecalls in E'.
    destruct (nth_error_snoc _ _ _ _ E') as [Hold|[Hc ->]]; [now left | right; auto]. }
  destruct e as [| |p' st|r st|]; simpl in E.
  - destruct (Hjoin User _ eq_refl E) as [H|H]; auto.
  - now left.
  - unfold login_response in E.
    destruct (nth_error (attempts s) p') as [a0|]; [|now left].
    destruct (state a0) as [retried| |]; try (now left).
    destruct st; try (rewrite settle_attempt_calls in E; now left).
    destruct retried; [rewrite settle_attempt_calls in E; now left|].
    destruct (Hjoin (LoginInterceptor p')
                (let (s', c) := authenticate (LoginInterceptor p') s in
                 with_attempt s' p' (AwaitingCall c))) as [H|H]; auto.
    destruct (authenticate (LoginInterceptor p') s) as [s' c]. apply with_attempt_frame.
  - unfold request_response in E.
    destruct (nth_error (requests s) r) as [q|]; [|now left].
    destruct (at_phase q); try (now left).
    destruct st; try (now left). destruct (retry q); [now left|].
    destruct (Hjoin (RequestInterceptor r)
                (let (s', c) := authenticate (RequestInterceptor r) s in
                 with_request s' r (mkRequest true (AwaitingAuth c) (dispatches q)
                                              (S (authentications q))))) as [H|H]; auto.
    destruct (authenticate (RequestInterceptor r) s) as [s' c]. reflexivity.
  - unfold tick in E. destruct (microtasks s) as [|j rest]; [now left|].
    destruct j as [c|c]; apply resume_calls in E;
      destruct E as [E|E]; [now left | right; now right | now left | right; now right].
Qed.

Lemma blocked_step (p n k : nat) (e : event) (s : client) :
  blocked p n k s -> blocked p n k (step e s).
Proof.
  intros [Hinv (a & c0 & Ea & Hst) Hposts Hcalls].
  assert (Hu : unsettled s p) by (exists a; rewrite Hst; now split).
  constructor.
  - now apply invariant_step.
  - destruct (step_attempts e s p a Hinv Ea) as (a' & Ea' & Hsame).
    rewrite Hsame in Ea' by (intros retried Hr; rewrite Hr in Hst; discriminate Hst).
    now exists a, c0.
  - rewrite <- Hposts. now apply (step_posts e s p).
  - intros c call E Hk.
    destruct (step_calls e s p c call (unsettled_is_stored s Hinv p Hu) E)
      as [Hold | [(_ & Hj & Ho) | (old & Eold & Hsettled & Hj)]].
    + now apply (Hcalls c call).
    + now split.
    + exfalso. destruct (Hcalls c old Eold Hk) as (Hjp & _).
      rewrite Hjp, (attempt_settled_unsettled s p Hu) in Hsettled. discriminate Hsettled.
Qed.

Lemma blocked_run (p n k : nat) (events : list event) :
  forall s, blocked p n k s -> blocked p n k (run events s).
Proof.
  induction events as [|e rest IH]; intros s Hb; [exact Hb|].
  apply IH. now apply blocked_step.
Qed.

(** C10: the stored promise is not cleared when the login POST is
    answered by 401.  The interceptor then calls [authenticate()], which hands it the
    stored promise of the very attempt it belongs to; from then on,
    whatever happens, the promise stays stored and unsettled, no login
    POST is sent any more, and the first call and every later call of
    [authenticate()] is handed this promise and stays pending. *)
Theorem login_401_blocks_authentication (s : client) (events : list event) :
  reachable s ->
  authPromise s = None ->
  let p := List.length (attempts s) in
  let s' := run (Authenticate :: LoginResponse p Status401 :: events) s in
  authPromise s' = Some p
  /\ unsettled s' p
  /\ login_posts s' = S (login_posts s)
  /\ (forall c call, nth_error (calls s') c = Some call ->
                     List.length (calls s) <= c ->
                     joined call = p /\ outcome call = None).
Proof.
  intros Hreach Hnone p s'.
  pose proof (invariant_reachable s Hreach) as Hinv.
  assert (Hb : blocked p (S (login_posts s)) (List.length (calls s))
                 (step (LoginResponse p Status401) (step Authenticate s))).
  { assert (Hinv1 : invariant (step (LoginResponse p Status401) (step Authenticate s)))
      by (now do 2 apply invariant_step).
    assert (E1 : step Authenticate s
                 = mkClient (Some p)
                     (attempts s ++ [mkAttempt (InFlight false) (List.length (calls s))])
                     (calls s ++ [mkAuthCall p true User None])
                     (requests s) (microtasks s) (S (login_posts s))).
    { cbn [step]. unfold authenticate. now rewrite Hnone. }
    rewrite E1 in *.
    assert (E2 : step (LoginResponse p Status401)
                   (mkClient (Some p)
                      (attempts s ++ [mkAttempt (InFlight false) (List.length (calls s))])
                      (calls s ++ [mkAuthCall p true User None])
                      (requests s) (microtasks s) (S (login_posts s)))
                 = with_attempt
                     (mkClient (Some p)
                        (attempts s ++ [mkAttempt (InFlight false) (List.length (calls s))])
                        ((calls s ++ [mkAuthCall p true User None])
                         ++ [mkAuthCall p false (LoginInterceptor p) None])
                        (requests s) (microtasks s) (S (login_posts s)))
                     p (AwaitingCall (List.length (calls s ++ [mkAuthCall p true User None])))).
    { cbn [step]. unfold login_response. cbn [attempts]. unfold p.
      rewrite nth_error_snoc_new. cbn [state]. unfold authenticate.
      cbn [authPromise]. unfold attempt_settled. cbn [attempts].
      rewrite nth_error_snoc_new. reflexivity. }
    rewrite E2 in *.
    match goal with
    | |- blocked _ _ _ (with_attempt ?t ?i ?v) =>
        destruct (with_attempt_frame t i v) as (_ & Fc & _ & _ & Fp)
    end.
    constructor.
    - exact Hinv1.
    - rewrite with_attempt_lookup. cbn [attempts]. unfold p.
      rewrite nth_error_snoc_new, Nat.eqb_refl.
      eexists _, _. split; reflexivity.
    - exact Fp.
    - intros c call E Hk. rewrite Fc in E. cbn [calls] in E.
      destruct (nth_error_snoc _ _ _ _ E) as [E1'|[_ ->]]; [|now split].
      destruct (nth_error_snoc _ _ _ _ E1') as [E2'|[_ ->]]; [|now split].
      exfalso. assert (c < List.length (calls s)) by (apply nth_error_Some; now rewrite E2').
      lia. }
  pose proof (blocked_run p _ _ events _ Hb) as [Hinv' (a & c0 & Ea & Hst) Hposts Hcalls].
  assert (Hu : unsettled s' p) by (exists a; rewrite Hst; now split).
  split; [now apply (unsettled_is_stored s' Hinv')|].
  split; [exact Hu|]. split; [exact Hposts | exact Hcalls].
Qed.

(** *** Requests answered by 401 *)

Lemma authenticate_requests (who : origin) (s : client) :
  requests (fst (authenticate who s)) = requests s.
Proof.
  unfold authenticate. destruct (authPromise s) as [p|]; [|reflexivity].
  destruct (attempt_settled s p); reflexivity.
Qed.

Lemma settle_attempt_requests (p : nat) (o : settlement) (s : client) :
  requests (settle_attempt p o s) = requests s.
Proof.
  unfold settle_attempt. destruct (nth_error (attempts s) p); [|reflexivity].
  unfold enqueue. cbn [requests]. apply with_attempt_frame.
Qed.

Lemma resume_finished_request (c : nat) (s : client) (r : nat) (q : request) (o : result) :
  (forall c' call' r',
      nth_error (calls s) c' = Some call' ->
      from call' = RequestInterceptor r' -> outcome call' = None ->
      exists q', nth_error (requests s) r' = Some q' /\ at_phase q' = AwaitingAuth c') ->
  nth_error (requests s) r = Some q -> at_phase q = Done o ->
  nth_error (requests (resume c s)) r = Some q.
Proof.
  intros HI Eq Hdone. unfold resume.
  destruct (nth_error (calls s) c) as [call|] eqn:Ecall; [|exact Eq].
  destruct (outcome call) as [|] eqn:Eout; [exact Eq|].
  destruct (nth_error (attempts s) (joined call)) as [a|] eqn:Ea; [|exact Eq].
  destruct (state a) as [| |o'] eqn:Hst; try exact Eq.
  unfold settle_call. rewrite Ecall.
  destruct (with_outcome_frame s c o') as (Fh & Fa & Fr & Fm & Fp).
  destruct (from call) as [|r'|p] eqn:Efrom.
  - now rewrite Fr.
  - rewrite Fr. destruct (HI c call r' Ecall Efrom Eout) as (q' & Eq' & Hphase).
    rewrite Eq'.
    assert (Hne : Nat.eqb r r' = false).
    { apply Nat.eqb_neq. intros ->. rewrite Eq in Eq'. inversion Eq'. subst q'.
      rewrite Hdone in Hphase. discriminate Hphase. }
    destruct o'; rewrite with_request_lookup, Fr, Eq, Hne; reflexivity.
  - destruct o'.
    + cbn [requests]. destruct (with_attempt_frame (with_outcome s c Fulfilled) p
                                  (InFlight true)) as (_ & _ & Fr' & _).
      now rewrite Fr', Fr.
    + now rewrite settle_attempt_requests, Fr.
Qed.

Lemma step_finished_request (e : event) (s : client) (r : nat) (q : request) (o : result) :
  invariant s ->
  nth_error (requests s) r = Some q -> at_phase q = Done o ->
  nth_error (requests (step e s)) r = Some q.
Proof.
  intros Hinv Eq Hdone. destruct e as [| |p st|r' st|]; simpl.
  - now rewrite authenticate_requests.
  - now apply nth_error_snoc_old.
  - unfold login_response.
    destruct (nth_error (attempts s) p) as [a|]; [|exact Eq].
    destruct (state a) as [retried| |]; try exact Eq.
    destruct st; try (now rewrite settle_attempt_requests).
    destruct retried; [now rewrite settle_attempt_requests|].
    pose proof (authenticate_requests (LoginInterceptor p) s) as Er.
    destruct (authenticate (LoginInterceptor p) s) as [s' c]. cbn [fst] in Er.
    destruct (with_attempt_frame s' p (AwaitingCall c)) as (_ & _ & Fr & _).
    now rewrite Fr, Er.
  - unfold request_response.
    destruct (nth_error (requests s) r') as [q'|] eqn:Eq'; [|exact Eq].
    destruct (at_phase q') eqn:Hphase; try exact Eq.
    assert (Hne : Nat.eqb r r' = false).
    { apply Nat.eqb_neq. intros ->. rewrite Eq in Eq'. inversion Eq'. subst q'.
      rewrite Hdone in Hphase. discriminate Hphase. }
    destruct st; try (rewrite with_request_lookup, Eq, Hne; reflexivity).
    destruct (retry q'); [rewrite with_request_lookup, Eq, Hne; reflexivity|].
    pose proof (authenticate_requests (RequestInterceptor r') s) as Er.
    destruct (authenticate (RequestInterceptor r') s) as [s' c]. cbn [fst] in Er.
    now rewrite with_request_lookup, Er, Eq, Hne.
  - unfold tick. destruct (microtasks s) as [|j rest]; [exact Eq|].
    destruct j as [c|c];
      apply (resume_finished_request c _ r q o); try assumption;
      exact (interceptor_waits s Hinv).
Qed.

(** C3 (amended): a request is handed to axios at most twice and its
    interceptor calls [authenticate()] at most once.  The first 401 makes
    the interceptor set [_retry], call [authenticate()] once and wait for
    it; when that call resolves the request is sent a second time, when it
    rejects the request fails with the authentication error and is not
    sent again; a 401 to the second sending ends the request with that
    failure, without any call of [authenticate()]; and an ended request
    never changes. *)
Theorem unauthorized_request_is_replayed_once (s : client) (r : nat) (q : request) :
  reachable s ->
  nth_error (requests s) r = Some q ->
  request_counts q
  /\ (forall o e, at_phase q = Done o -> nth_error (requests (step e s)) r = Some q)
  /\ (at_phase q = Dispatched -> retry q = false ->
      nth_error (requests (step (Response r Status401) s)) r
      = Some (mkRequest true (AwaitingAuth (List.length (calls s))) 1 1)
      /\ exists p started,
           calls (step (Response r Status401) s)
           = calls s ++ [mkAuthCall p started (RequestInterceptor r) None])
  /\ (at_phase q = Dispatched -> retry q = true ->
      step (Response r Status401) s
      = with_request s r (mkRequest true (Done Unauthorized) 2 1))
  /\ (forall c call o,
         at_phase q = AwaitingAuth c ->
         nth_error (calls s) c = Some call ->
         from call = RequestInterceptor r ->
         nth_error (requests (settle_call c o s)) r
         = Some (match o with
                 | Fulfilled => mkRequest true Dispatched 2 1
                 | Failed => mkRequest true (Done AuthenticationFailed) 1 1
                 end)).
Proof.
  intros Hreach Eq. pose proof (invariant_reachable s Hreach) as Hinv.
  pose proof (counts s Hinv r q Eq) as Hcounts.
  split; [exact Hcounts|]. split; [|split; [|split]].
  - intros o e Hdone. now apply (step_finished_request e s r q o).
  - intros Hphase Hretry. unfold request_counts in Hcounts. rewrite Hphase in Hcounts.
    destruct Hcounts as [(_ & Hd & Ha)|(Hr & _)]; [|congruence].
    cbn [step]. unfold request_response. rewrite Eq, Hphase, Hretry.
    pose proof (invariant_authenticate (RequestInterceptor r) s Hinv) as Hauth.
    destruct (authenticate (RequestInterceptor r) s) as [s' c]. cbn [fst snd] in Hauth.
    destruct Hauth as [Hc (p & started & Ecalls & _) _ Er _ _ _].
    split.
    + rewrite with_request_lookup, Er, Eq, Nat.eqb_refl, Hd, Ha, Hc. reflexivity.
    + exists p, started. exact Ecalls.
  - intros Hphase Hretry. unfold request_counts in Hcounts. rewrite Hphase in Hcounts.
    destruct Hcounts as [(Hr & _)|(_ & Hd & Ha)]; [congruence|].
    cbn [step]. unfold request_response. rewrite Eq, Hphase, Hretry, Hd, Ha. reflexivity.
  - intros c call o Hphase Ecall Efrom.
    unfold request_counts in Hcounts. rewrite Hphase in Hcounts.
    destruct Hcounts as (Hr & Hd & Ha).
    unfold settle_call. rewrite Ecall, Efrom.
    destruct (with_outcome_frame s c o) as (_ & _ & Fr & _).
    rewrite Fr, Eq.
    destruct o; rewrite with_request_lookup, Fr, Eq, Nat.eqb_refl, Hr, Hd, Ha; reflexivity.
Qed.

(** *** The [finally] block *)

Lemma resume_stored (c : nat) (s : client) : authPromise (resume c s) = authPromise s.
Proof.
  unfold resume.
  destruct (nth_error (calls s) c) as [call|] eqn:Ecall; [|reflexivity].
  destruct (outcome call); [reflexivity|].
  destruct (nth_error (attempts s) (joined call)) as [a|]; [|reflexivity].
  destruct (state a) as [| |o]; try reflexivity.
  unfold settle_call. rewrite Ecall.
  destruct (with_outcome_frame s c o) as (Fh & _).
  destruct (from call) as [|r|p].
  - exact Fh.
  - destruct (nth_error (requests (with_outcome s c o)) r); [destruct o|]; exact Fh.
  - destruct o.
    + cbn [authPromise].
      destruct (with_attempt_frame (with_outcome s c Fulfilled) p (InFlight true))
        as (Fh' & _).
      now rewrite Fh'.
    + unfold settle_attempt.
      destruct (nth_error (attempts (with_outcome s c Failed)) p); [|exact Fh].
      unfold enqueue. cbn [authPromise].
      destruct (with_attempt_frame (with_outcome s c Failed) p (Settled Failed))
        as (Fh' & _).
      now rewrite Fh'.
Qed.

(** When the call that started an attempt is resumed, the stored promise
    is cleared, and the next call of [authenticate()] sends a login POST. *)
Lemma finally_clears_stored_promise (s : client) (c : nat) (rest : list job) :
  microtasks s = Finally c :: rest ->
  authPromise (tick s) = None
  /\ login_posts (step Authenticate (tick s)) = S (login_posts (tick s)).
Proof.
  intros Equeue.
  assert (Hnone : authPromise (tick s) = None).
  { unfold tick. rewrite Equeue. now rewrite resume_stored. }
  split; [exact Hnone|]. cbn [step]. unfold authenticate. now rewrite Hnone.
Qed.

(** An attempt that settles queues the [finally] of the call that started
    it, before the calls that were handed its promise. *)
Lemma settled_attempt_queues_finally (p : nat) (o : settlement) (s : client) (a : attempt) :
  nth_error (attempts s) p = Some a ->
  microtasks (settle_attempt p o s)
  = microtasks s ++ Finally (creator a) :: adopters_from p 0 (calls s).
Proof.
  intros Ea. unfold settle_attempt. rewrite Ea. unfold enqueue. cbn [microtasks].
  destruct (with_attempt_frame s p (Settled o)) as (_ & Fc & _ & Fm & _).
  now rewrite Fm.
Qed.

(** *** The event system on concrete traces *)

(** Three calls of [authenticate()] before any response: one login POST. *)
Lemma three_calls_one_login_post :
  login_posts (run [Authenticate; Authenticate; Authenticate] init) = 1.
Proof.
  refine (proj2 (proj2 (authenticate_is_single_flight init (ex_intro _ [] eq_refl)))
            eq_refl [Authenticate; Authenticate] _).
  eexists. split; reflexivity.
Defined.

(** A failed login that is not a 401 settles: both callers are rejected,
    the stored promise is cleared and the next call logs in again. *)
Example failed_login_is_cleared :
  run [Authenticate; Authenticate; LoginResponse 0 OtherFailure; Tick; Tick; Authenticate]
      init
  = mkClient (Some 1)
      [mkAttempt (Settled Failed) 0; mkAttempt (InFlight false) 2]
      [mkAuthCall 0 true User (Some Failed); mkAuthCall 0 false User (Some Failed);
       mkAuthCall 1 true User None]
      [] [] 2.
Proof. reflexivity. Qed.

(** C3 as stated fails: the request is answered by 401, the login that
    follows fails, and the request ends with the authentication error
    after having been sent once; it is never replayed. *)
Lemma failed_authentication_prevents_replay :
  nth_error
    (requests (run [Send; Response 0 Status401; LoginResponse 0 OtherFailure; Tick] init))
    0
  = Some (mkRequest true (Done AuthenticationFailed) 1 1)
  /\ dispatches (mkRequest true (Done AuthenticationFailed) 1 1) <> 2.
Proof. split; [reflexivity | discriminate]. Qed.

Lemma first_unauthorized_request_run :
  request_counts (mkRequest true (AwaitingAuth 0) 1 1).
Proof.
  exact (proj1 (unauthorized_request_is_replayed_once
                  (run [Send; Response 0 Status401] init) 0
                  (mkRequest true (AwaitingAuth 0) 1 1)
                  (ex_intro _ [Send; Response 0 Status401] eq_refl) eq_refl)).
Defined.

(** A request answered by 401 twice: one login, two sendings, and the
    second 401 is the outcome. *)
Example second_unauthorized_is_surfaced :
  run [Send; Response 0 Status401; LoginResponse 0 Ok; Tick; Response 0 Status401] init
  = mkClient None [mkAttempt (Settled Fulfilled) 0]
      [mkAuthCall 0 true (RequestInterceptor 0) (Some Fulfilled)]
      [mkRequest true (Done Unauthorized) 2 1] [] 1.
Proof. reflexivity. Qed.

Lemma login_401_run :
  authPromise (run [Authenticate; LoginResponse 0 Status401; Authenticate; Tick] init)
  = Some 0.
Proof.
  exact (proj1 (login_401_blocks_authentication init [Authenticate; Tick]
                  (ex_intro _ [] eq_refl) eq_refl)).
Defined.

End SessionFacts.

(* ================================================================= *)
(** * Part IV: further properties of the client *)
(* ================================================================= *)

(** ** BeeswaxClient.request *)

Section RequestFacts.
Context {number : Type} `{JsRuntime number}.
#[local] Abbreviation value := (value number).

Lemma request_resolves_in (method endpoint : string) (options : req_options number) :
  resolves_in (BeeswaxClient.request method endpoint options)
    (fun v => nullish v = false /\ is_false (prop v "success") = false).
Proof.
  intros w v w' E. rewrite request_run in E.
  destruct (replies w (cursor w)) as [r|m [r|]|m].
  - destruct (nullish (data r)) eqn:En; [discriminate E|].
    destruct (is_false (prop (data r) "success")) eqn:Ef; [discriminate E|].
    inversion E. subst v. now split.
  - destruct (truthy (data r)); discriminate E.
  - discriminate E.
  - discriminate E.
Qed.

(** X1: [request(method, endpoint, options)] makes exactly one call,
    whatever the reply: a GET (in any letter case) carries
    [options.body || options.params] as query parameters and no request
    payload, any other method carries the body as payload.  When it
    resolves, the value is the body of a fulfilled response, and this body
    is neither [null] nor [undefined] and has no [success === false]. *)
Theorem request_sends_one_call_and_filters_failures
        (method endpoint : string) (options : req_options number) (w : world number) :
  (exists c,
      snd (BeeswaxClient.request method endpoint options w) = after_call w c
      /\ c_method c = method /\ c_url c = endpoint /\ c_headers c = o_headers options
      /\ (if String.eqb (toUpperCase method) "GET"
          then c_params c = or_else (o_body options) (o_params options)
               /\ c_data c = VUndefined
          else c_params c = o_params options /\ c_data c = o_body options))
  /\ (forall v,
         fst (BeeswaxClient.request method endpoint options w) = Resolved v ->
         exists r, replies w (cursor w) = Fulfils r /\ v = data r
                   /\ nullish v = false /\ is_false (prop v "success") = false).
Proof.
  rewrite request_run. cbn [fst snd]. split.
  - eexists. split; [reflexivity|].
    destruct (String.eqb (toUpperCase method) "GET"); simpl; auto.
  - intros v E. destruct (replies w (cursor w)) as [r|m [r|]|m].
    + destruct (nullish (data r)) eqn:En; [discriminate E|].
      destruct (is_false (prop (data r) "success")) eqn:Ef; [discriminate E|].
      inversion E. subst v. exists r. auto.
    + destruct (truthy (data r)); discriminate E.
    + discriminate E.
    + discriminate E.
Qed.

(** X2: what [request] rejects with.  When the server answered with an
    error status and a truthy body, the rejection is that body (the
    status and the [Error] object are dropped); with a falsy body, or
    without response, it is the error of axios.  A fulfilled response
    whose body has [success === false] is rejected with an [Error] whose
    message is the serialized body. *)
Theorem request_rejects_with_the_response_body
        (method endpoint : string) (options : req_options number) (w : world number) :
  (forall m r,
      replies w (cursor w) = Rejects m (Some r) ->
      fst (BeeswaxClient.request method endpoint options w)
      = Rejected (if truthy (data r) then ThrownValue (data r)
                  else AxiosError m (Some r)))
  /\ (forall m,
         replies w (cursor w) = Rejects m None ->
         fst (BeeswaxClient.request method endpoint options w)
         = Rejected (AxiosError m None))
  /\ (forall r,
         replies w (cursor w) = Fulfils r ->
         nullish (data r) = false ->
         is_false (prop (data r) "success") = true ->
         fst (BeeswaxClient.request method endpoint options w)
         = Rejected (JsError (JSON_stringify (data r)))).
Proof.
  rewrite request_run. cbn [fst]. split; [|split].
  - intros m r ->. destruct (truthy (data r)); reflexivity.
  - intros m ->. reflexivity.
  - intros r -> -> ->. reflexivity.
Qed.
End RequestFacts.

(** ** BaseResource *)

Section BaseFacts.
Context {number : Type} `{JsRuntime number}.
#[local] Abbreviation value := (value number).

Lemma plain_object_passes (fields : list (string * value)) :
  fields <> [] ->
  own fields "constructor" = None ->
  negb (isPOJO (VObj fields)) || no_keys (VObj fields) = false.
Proof.
  intros Hne Hctor. simpl. rewrite Hctor. destruct fields; [contradiction | reflexivity].
Qed.


(** X3: [create] and [edit] validate the body before anything is sent.
    For a body that is not an object with at least one property
    ([undefined], [null], a boolean, a number, a string, an array, [{}])
    both resolve to [{success: false, code: 400, message: 'Body must be
    non-empty object'}] and no request is made. *)
Theorem create_and_edit_refuse_bad_bodies_without_a_request
        (this : resource) (id body : value) (failOnNotFound : bool) (w : world number) :
  match body with
  | VObj (_ :: _) => False
  | _ => True
  end ->
  BaseResource.create this body w = (Resolved BaseResource.bad_body, w)
  /\ BaseResource.edit this id body failOnNotFound w
     = (Resolved BaseResource.bad_body, w).
Proof.
  intros Hbody. unfold BaseResource.create, BaseResource.edit.
  assert (Hbad : negb (isPOJO body) || no_keys body = true).
  { destruct body as [| | | | |items|[|kv fields]|h]; try reflexivity.
    - destruct Hbody.
    - simpl. now rewrite orb_true_r. }
  rewrite Hbad. split; reflexivity.
Qed.

(** The calls of [edit] for a plain, non-empty body: the PUT, then at
    most the [find] that follows a successful update. *)
Lemma base_edit_sends (this : resource) (id : value) (fields : list (string * value))
      (failOnNotFound : bool) (w : world number) :
  fields <> [] ->
  own fields "constructor" = None ->
  exists cs,
    sent (snd (BaseResource.edit this id (VObj fields) failOnNotFound w))
    = (sent w ++
       mkCall "PUT" (endpoint this ++ "/strict") VUndefined
         (VObj (set_field fields (idField this) id)) VUndefined :: cs)%list
    /\ Forall (fun c => c = mkCall "GET" (endpoint this) (VObj [(idField this, id)])
                              VUndefined VUndefined) cs
    /\ (List.length cs <= 1)%nat.
Proof.
  intros Hne Hctor.
  unfold BaseResource.edit. rewrite (plain_object_passes fields Hne Hctor).
  cbn [spread]. unfold try_catch, bind at 1. rewrite request_run.
  change (String.eqb (toUpperCase "PUT") "GET") with false. cbv iota.
  cbn [BeeswaxClient.with_body o_body o_params o_headers].
  set (put := mkCall "PUT" _ _ _ _).
  set (result := match replies w (cursor w) with Fulfils _ => _ | _ => _ end).
  destruct result as [response|e].
  - pose proof (find_sends this id (after_call w put)) as Hfind.
    exists [mkCall "GET" (endpoint this) (VObj [(idField this, id)])
              VUndefined VUndefined].
    destruct (BaseResource.find this id (after_call w put)) as [[a|e] w1];
      simpl in Hfind; subst w1.
    + simpl. rewrite <- app_assoc.
      split; [reflexivity|]. split; [repeat constructor | lia].
    + destruct (BaseResource.isNotFoundError e "update" && negb failOnNotFound);
        simpl; rewrite <- app_assoc;
        (split; [reflexivity|]); (split; [repeat constructor | lia]).
  - exists [].
    destruct (BaseResource.isNotFoundError e "update" && negb failOnNotFound);
      simpl; (split; [reflexivity|]); (split; [constructor | lia]).
Qed.

(** X4: [edit(id, body)] with a plain, non-empty body sends
    [PUT endpoint/strict] with the properties of the body and the
    identity field set to [id], also when the body carries another value
    for this field; the only other call it can make is the [find(id)]
    that follows a successful update. *)
Theorem edit_puts_the_body_under_the_given_id
        (this : resource) (id : value) (fields : list (string * value))
        (failOnNotFound : bool) (w : world number) :
  fields <> [] ->
  own fields "constructor" = None ->
  exists cs,
    sent (snd (BaseResource.edit this id (VObj fields) failOnNotFound w))
    = (sent w ++
       mkCall "PUT" (endpoint this ++ "/strict") VUndefined
         (VObj (set_field fields (idField this) id)) VUndefined :: cs)%list
    /\ Forall (fun c => c = mkCall "GET" (endpoint this) (VObj [(idField this, id)])
                              VUndefined VUndefined) cs
    /\ (List.length cs <= 1)%nat
    /\ prop (VObj (set_field fields (idField this) id)) (idField this) = id
    /\ (forall k, k <> idField this ->
                  prop (VObj (set_field fields (idField this) id)) k
                  = prop (VObj fields) k).
Proof.
  intros Hne Hctor.
  destruct (base_edit_sends this id fields failOnNotFound w Hne Hctor)
    as (cs & E & Hcs & Hlen).
  exists cs. repeat split; try assumption.
  - apply prop_set_same.
  - intros k Hk. apply prop_set_other. congruence.
Qed.

(** X5: errors of [delete] and [edit].  When the server answers the
    DELETE (the PUT) with an error status and a truthy body, the body is
    what is thrown, unless it is recognised as a not-found error of this
    action and [failOnNotFound] is off: then the call resolves to
    [{success: false, code: 400, message: 'Not found'}].  [delete] sends
    one [DELETE endpoint/strict] carrying the identity field. *)
Theorem edit_and_delete_report_not_found
        (this : resource) (id : value) (fields : list (string * value))
        (failOnNotFound : bool) (w : world number) (m : string) (r : response number) :
  replies w (cursor w) = Rejects m (Some r) ->
  truthy (data r) = true ->
  fst (BaseResource.delete this id failOnNotFound w)
  = (if BaseResource.isNotFoundError (ThrownValue (data r)) "delete"
        && negb failOnNotFound
     then Resolved BaseResource.not_found
     else Rejected (ThrownValue (data r)))
  /\ (fields <> [] -> own fields "constructor" = None ->
      fst (BaseResource.edit this id (VObj fields) failOnNotFound w)
      = (if BaseResource.isNotFoundError (ThrownValue (data r)) "update"
            && negb failOnNotFound
         then Resolved BaseResource.not_found
         else Rejected (ThrownValue (data r))))
  /\ sent (snd (BaseResource.delete this id failOnNotFound w))
     = (sent w ++ [mkCall "DELETE" (endpoint this ++ "/strict") VUndefined
                     (VObj [(idField this, id)]) VUndefined])%list.
Proof.
  intros Hreply Hdata. split; [|split].
  - unfold BaseResource.delete, try_catch, bind. rewrite request_run, Hreply, Hdata.
    destruct (_ && _); reflexivity.
  - intros Hne Hctor.
    unfold BaseResource.edit. rewrite (plain_object_passes fields Hne Hctor).
    unfold try_catch, bind. rewrite request_run, Hreply, Hdata.
    destruct (_ && _); reflexivity.
  - unfold BaseResource.delete, try_catch, bind. rewrite request_run, Hreply, Hdata.
    change (String.eqb (toUpperCase "DELETE") "GET") with false. cbv iota.
    destruct (_ && _); reflexivity.
Qed.

(** The calls of [create] for a plain, non-empty body: the POST, then
    at most the [find] of the created record. *)
Lemma base_create_posts (this : resource) (fields : list (string * value))
      (w : world number) :
  own fields "constructor" = None ->
  fields <> [] ->
  exists cs,
    sent (snd (BaseResource.create this (VObj fields) w))
    = (sent w ++ mkCall "POST" (endpoint this ++ "/strict") VUndefined (VObj fields)
                   VUndefined :: cs)%list
    /\ (List.length cs <= 1)%nat
    /\ Forall (fun c => c_method c = "GET" /\ c_url c = endpoint this) cs.
Proof.
  intros Hctor Hne. unfold BaseResource.create.
  rewrite (plain_object_passes fields Hne Hctor). unfold bind at 1.
  pose proof (request_post_sends (endpoint this ++ "/strict")
                (BeeswaxClient.with_body (VObj fields)) w) as Hsent.
  destruct (BeeswaxClient.request "POST" _ _ w) as [[response|e] w1]; simpl in Hsent;
    subst w1.
  - destruct (truthy (prop response "success") && _).
    + rewrite find_sends. eexists [_]. cbn [after_call sent List.length].
      rewrite <- app_assoc. split; [reflexivity|]. split; [lia|].
      repeat constructor.
    + exists []. simpl. split; [reflexivity|]. split; [lia | constructor].
  - exists []. simpl. split; [reflexivity|]. split; [lia | constructor].
Qed.
End BaseFacts.

(** ** queryAll: pages that never get short, pages that fail *)

Section QueryAllMore.
Context {number : Type} `{JsRuntime number}.
#[local] Abbreviation value := (value number).
Variable this : resource.
Variable body : value.

Lemma queryAll_loop_full_pages (fuel : nat) :
  forall (offset : Z) (results : list value) (w : world number),
    (forall i, exists p, page_reply (replies w (cursor w + i)) p
                         /\ (50 <= List.length p)%nat) ->
    fst (BaseResource.queryAll_loop this fuel body offset results w) = Resolved None
    /\ cursor (snd (BaseResource.queryAll_loop this fuel body offset results w))
       = (cursor w + fuel)%nat.
Proof.
  induction fuel as [|fuel IH]; intros offset results w Hfull.
  - simpl. split; [reflexivity | lia].
  - destruct (Hfull 0%nat) as (p & Hp & Hlen). rewrite Nat.add_0_r in Hp.
    rewrite (queryAll_loop_step this body fuel offset results p w Hp).
    assert (Hge : (List.length p <? 50)%nat = false) by (apply Nat.ltb_ge; exact Hlen).
    rewrite Hge.
    destruct (IH (offset + 50)%Z (results ++ p)%list
                 (after_call w (page_request this body offset))) as [E1 E2].
    + intros i. unfold after_call. cbn [replies cursor].
      replace (S (cursor w) + i)%nat with (cursor w + S i)%nat by lia. apply Hfull.
    + split; [exact E1|]. rewrite E2. unfold after_call. cbn [cursor]. lia.
Qed.

(** X6: [queryAll] has no bound on the number of pages.  Against a
    server that answers every page request with at least 50 records, the
    loop has not ended after [n] requests, for every [n]: the model runs
    out of fuel ([None]) after exactly [fuel] calls, whatever [fuel]
    is. *)
Theorem queryAll_keeps_paging_while_pages_are_full (w : world number) :
  (forall i, exists p, page_reply (replies w (cursor w + i)) p
                       /\ (50 <= List.length p)%nat) ->
  forall fuel,
    fst (BaseResource.queryAll this fuel body w) = Resolved None
    /\ cursor (snd (BaseResource.queryAll this fuel body w)) = (cursor w + fuel)%nat.
Proof.
  intros Hfull fuel. unfold BaseResource.queryAll.
  now apply queryAll_loop_full_pages.
Qed.

Lemma queryAll_loop_failed_page (pages : list (list value)) (m : string) :
  Forall (fun p => 50 <= List.length p)%nat pages ->
  forall (fuel : nat) (offset : Z) (results : list value) (w : world number),
    (forall i p, nth_error pages i = Some p ->
                 page_reply (replies w (cursor w + i)) p) ->
    replies w (cursor w + List.length pages) = Rejects m None ->
    (List.length pages < fuel)%nat ->
    fst (BaseResource.queryAll_loop this fuel body offset results w)
    = Rejected (AxiosError m None)
    /\ cursor (snd (BaseResource.queryAll_loop this fuel body offset results w))
       = (cursor w + S (List.length pages))%nat.
Proof.
  induction 1 as [|p pages Hp Hfull IH]; intros fuel offset results w Hreplies Hfail Hfuel.
  - destruct fuel as [|fuel]; [inversion Hfuel|].
    simpl in Hfail. rewrite Nat.add_0_r in Hfail.
    cbn [BaseResource.queryAll_loop]. unfold bind.
    rewrite request_run, Hfail. unfold after_call. simpl.
    split; [reflexivity | lia].
  - destruct fuel as [|fuel]; [inversion Hfuel|].
    assert (Hpage : page_reply (replies w (cursor w)) p).
    { specialize (Hreplies 0%nat p eq_refl). now rewrite Nat.add_0_r in Hreplies. }
    rewrite (queryAll_loop_step this body fuel offset results p w Hpage).
    assert (Hge : (List.length p <? 50)%nat = false) by (apply Nat.ltb_ge; exact Hp).
    rewrite Hge.
    destruct (IH fuel (offset + 50)%Z (results ++ p)%list
                 (after_call w (page_request this body offset))) as [E1 E2].
    + intros i q Hq. unfold after_call. cbn [replies cursor].
      replace (S (cursor w) + i)%nat with (cursor w + S i)%nat by lia.
      apply Hreplies. exact Hq.
    + unfold after_call. cbn [replies cursor].
      replace (S (cursor w) + List.length pages)%nat
        with (cursor w + List.length (p :: pages))%nat by (simpl; lia).
      exact Hfail.
    + simpl in Hfuel. lia.
    + split; [exact E1|]. rewrite E2. unfold after_call. cbn [cursor]. simpl. lia.
Qed.

(** X7: [queryAll] returns no partial result.  When the first pages are
    full and the request for the next one fails (no response), [queryAll]
    rejects with that error after one call per page: the records of the
    pages fetched before are not returned. *)
Theorem queryAll_rejects_when_a_page_fails
        (pages : list (list value)) (m : string) (fuel : nat) (w : world number) :
  Forall (fun p => 50 <= List.length p)%nat pages ->
  (forall i p, nth_error pages i = Some p ->
               page_reply (replies w (cursor w + i)) p) ->
  replies w (cursor w + List.length pages) = Rejects m None ->
  (List.length pages < fuel)%nat ->
  fst (BaseResource.queryAll this fuel body w) = Rejected (AxiosError m None)
  /\ cursor (snd (BaseResource.queryAll this fuel body w))
     = (cursor w + S (List.length pages))%nat.
Proof.
  intros Hfull Hreplies Hfail Hfuel. unfold BaseResource.queryAll.
  now apply queryAll_loop_failed_page.
Qed.
End QueryAllMore.

(** ** The bodies sent by the resources *)

Section NormalFacts.
Context {number : Type} `{JsRuntime number}.
#[local] Abbreviation value := (value number).



Lemma campaign_normalize_budget_type (fields : list (string * value)) :
  prop (CampaignResource.normalize (VObj fields)) "budget_type"
  = (if is_undefined (prop (VObj fields) "budget_type") then num 2
     else prop (VObj fields) "budget_type")
  /\ is_undefined (prop (CampaignResource.normalize (VObj fields)) "budget_type")
     = false.
Proof.
  assert (Hbt : prop (CampaignResource.normalize (VObj fields)) "budget_type"
                = (if is_undefined (prop (VObj fields) "budget_type") then num 2
                   else prop (VObj fields) "budget_type")).
  { unfold CampaignResource.normalize. cbv zeta. cbn [prop].
    rewrite map_names_keeps by discriminate.
    rewrite own_assign_one. rewrite String.eqb_refl.
    destruct (is_undefined _); reflexivity. }
  split; [exact Hbt|].
  rewrite Hbt. destruct (is_undefined (prop (VObj fields) "budget_type")) eqn:E;
    [reflexivity | exact E].
Qed.

(** The calls of [campaigns.create] for an object. *)
Lemma campaign_create_sends (fields : list (string * value)) (w : world number) :
  own fields "constructor" = None ->
  exists cs,
    sent (snd (CampaignResource.create (VObj fields) w))
    = (sent w ++ mkCall "POST" "/rest/campaign/strict" VUndefined
                   (CampaignResource.normalize (VObj fields)) VUndefined :: cs)%list
    /\ (List.length cs <= 1)%nat
    /\ Forall (fun c => c_method c = "GET" /\ c_url c = "/rest/campaign") cs.
Proof.
  intros Hctor.
  pose proof (proj2 (campaign_normalize_budget_type fields)) as Hdef.
  unfold CampaignResource.create, getp. cbn [nullish]. unfold bind at 1, ret at 1.
  unfold CampaignResource.normalize in *. cbv zeta in *.
  set (d := CampaignResource.map_names _ _) in *.
  destruct (base_create_posts campaigns d w) as (cs & E & Hlen & Hcs).
  - subst d. rewrite map_names_keeps by discriminate.
    rewrite own_assign_one. exact Hctor.
  - intros Hnil. rewrite Hnil in Hdef. discriminate Hdef.
  - exists cs. repeat split; assumption.
Qed.

(** X8: [campaigns.create] never answers with the validation error of
    [BaseResource.create] for an object: [budget_type] is added before
    the check, so every object, [{}] included, is posted to
    [/rest/campaign/strict], with the [budget_type] of the body when it
    has one (any value but [undefined]) and 2 otherwise.  At most one
    call follows, the [find] of the created campaign. *)
Theorem campaign_create_always_sends_a_budget_type
        (fields : list (string * value)) (w : world number) :
  own fields "constructor" = None ->
  exists cs,
    sent (snd (CampaignResource.create (VObj fields) w))
    = (sent w ++ mkCall "POST" "/rest/campaign/strict" VUndefined
                   (CampaignResource.normalize (VObj fields)) VUndefined :: cs)%list
    /\ (List.length cs <= 1)%nat
    /\ Forall (fun c => c_method c = "GET" /\ c_url c = "/rest/campaign") cs
    /\ prop (CampaignResource.normalize (VObj fields)) "budget_type"
       = (if is_undefined (prop (VObj fields) "budget_type") then num 2
          else prop (VObj fields) "budget_type")
    /\ is_undefined (prop (CampaignResource.normalize (VObj fields)) "budget_type")
       = false.
Proof.
  intros Hctor.
  destruct (campaign_create_sends fields w Hctor) as (cs & E & Hlen & Hcs).
  destruct (campaign_normalize_budget_type fields) as [Hbt Hdef].
  exists cs. repeat split; assumption.
Qed.

(** The name mapping of campaigns on a copy [d] of the body. *)

(** X9: the names sent for a campaign.  In the body posted by
    [campaigns.create] and in the body put by [campaigns.edit], a truthy
    [campaign_name] wins over [name], a [campaign_budget] that is not
    [undefined] ([null] and 0 included) wins over [budget], and the
    aliases [name] and [budget] are removed; [name] and [budget] are used
    only when the legacy property is missing. *)
Theorem campaign_legacy_names_win (fields : list (string * value)) :
  let body := VObj fields in
  forall sent,
    sent = CampaignResource.normalize body
    \/ sent = VObj (CampaignResource.map_names body (spread body)) ->
    (truthy (prop body "campaign_name") = true ->
     prop sent "campaign_name" = prop body "campaign_name"
     /\ prop sent "name" = VUndefined)
    /\ (truthy (prop body "campaign_name") = false ->
        truthy (prop body "name") = true ->
        prop sent "campaign_name" = prop body "name"
        /\ prop sent "name" = VUndefined)
    /\ (is_undefined (prop body "campaign_budget") = false ->
        prop sent "campaign_budget" = prop body "campaign_budget"
        /\ prop sent "budget" = VUndefined)
    /\ (is_undefined (prop body "campaign_budget") = true ->
        is_undefined (prop body "budget") = false ->
        prop sent "campaign_budget" = prop body "budget"
        /\ prop sent "budget" = VUndefined).
Proof.
  intros body sent [-> | ->].
  - unfold CampaignResource.normalize. cbv zeta. apply map_names_wins.
  - apply map_names_wins.
Qed.
End NormalFacts.

(** ** Line items *)

Ltac peel :=
  repeat first
    [ rewrite prop_if_set by discriminate
    | rewrite prop_if_set_delete by discriminate
    | rewrite prop_delete_other by discriminate
    | rewrite prop_set_other by discriminate ].

Section LineItemFacts.
Context {number : Type} `{JsRuntime number}.
#[local] Abbreviation value := (value number).

Lemma resolves_in_bind_with {A B} (m : M number A) (k : A -> M number B)
      (P : A -> Prop) (Q : B -> Prop) :
  resolves_in m P -> (forall a, P a -> resolves_in (k a) Q) ->
  resolves_in (bind m k) Q.
Proof.
  intros Hm Hk w b w' E. unfold bind in E. destruct (m w) as [[a|e] w1] eqn:Em.
  - eapply Hk; [eapply Hm, Em | exact E].
  - discriminate E.
Qed.

(** A property given a default when it is falsy. *)
Lemma default_when_falsy (d : list (string * value)) k v :
  let d' := if negb (truthy (prop (VObj d) k)) then set_field d k v else d in
  (truthy v = true -> truthy (prop (VObj d') k) = true)
  /\ (prop (VObj d') k = v \/ truthy (prop (VObj d') k) = true).
Proof.
  cbv zeta. destruct (truthy (prop (VObj d) k)) eqn:E; cbn [negb].
  - split; [intros _; exact E | right; exact E].
  - rewrite prop_set_same. split; [auto | now left].
Qed.


(** X10: the request of [lineItems.create].  Whatever the properties of
    the body, exactly one call is made, a POST to [/rest/v2/line-items]
    (no validation of the body and no [find] afterwards), and the body
    sent has [id: null], no [line_item_id], a truthy [type] (["banner"]
    when none is given), a truthy [spend_budget] and a [frequency_caps]
    that is [null] or truthy. *)
Theorem line_item_create_request_shape (fields : list (string * value))
        (w : world number) :
  let body := LineItemResource.normalize (VObj fields) in
  sent (snd (LineItemResource.create (VObj fields) w))
  = (sent w ++ [mkCall "POST" "/rest/v2/line-items" VUndefined body VUndefined])%list
  /\ prop body "id" = VNull
  /\ prop body "line_item_id" = VUndefined
  /\ truthy (prop body "type") = true
  /\ truthy (prop body "spend_budget") = true
  /\ (prop body "frequency_caps" = VNull
      \/ truthy (prop body "frequency_caps") = true).
Proof.
  cbv zeta. split; [apply line_item_create_sends|].
  unfold LineItemResource.normalize, LineItemResource.field. cbv zeta. cbn [spread].
  split; [|split; [|split; [|split]]].
  - rewrite !prop_if_set by discriminate. rewrite prop_delete_other by discriminate.
    apply prop_set_same.
  - rewrite !prop_if_set by discriminate. apply prop_delete_same.
  - rewrite !prop_if_set by discriminate. rewrite prop_delete_other by discriminate.
    rewrite prop_set_other by discriminate.
    now apply default_when_falsy.
  - rewrite prop_if_set by discriminate. now apply default_when_falsy.
  - apply default_when_falsy.
Qed.

(** The budget step of [LineItemResource.create] on a body [d] that has
    the budget properties of the original body. *)
Lemma line_item_budget_step (fields d : list (string * value)) :
  prop (VObj d) "budget" = prop (VObj fields) "budget" ->
  prop (VObj d) "line_item_budget" = prop (VObj fields) "line_item_budget" ->
  let d' := if negb (is_undefined (prop (VObj fields) "line_item_budget"))
               && negb (truthy (prop (VObj d) "budget"))
            then delete_field (set_field d "budget"
                                 (prop (VObj fields) "line_item_budget"))
                   "line_item_budget"
            else d in
  (truthy (prop (VObj fields) "budget") = true ->
   prop (VObj d') "budget" = prop (VObj fields) "budget"
   /\ prop (VObj d') "line_item_budget" = prop (VObj fields) "line_item_budget")
  /\ (truthy (prop (VObj fields) "budget") = false ->
      is_undefined (prop (VObj fields) "line_item_budget") = false ->
      prop (VObj d') "budget" = prop (VObj fields) "line_item_budget"
      /\ prop (VObj d') "line_item_budget" = VUndefined).
Proof.
  intros E1 E2. cbv zeta. rewrite E1. split.
  - intros Hb. rewrite Hb, andb_false_r. now split.
  - intros Hb Hl. rewrite Hb, Hl. cbn [negb andb].
    split; [now object_simpl | apply prop_delete_same].
Qed.

(** X11: the names sent for a line item.  Unlike for campaigns the new
    names win: a truthy [name] ([budget]) is sent as it is and the legacy
    [line_item_name] ([line_item_budget]) stays in the body beside it;
    the legacy property is renamed, and removed, only when the new one is
    falsy. *)
Theorem line_item_new_names_win (fields : list (string * value)) :
  let body := VObj fields in
  let sent := LineItemResource.normalize body in
  (truthy (prop body "name") = true ->
   prop sent "name" = prop body "name"
   /\ prop sent "line_item_name" = prop body "line_item_name")
  /\ (truthy (prop body "name") = false ->
      truthy (prop body "line_item_name") = true ->
      prop sent "name" = prop body "line_item_name"
      /\ prop sent "line_item_name" = VUndefined)
  /\ (truthy (prop body "budget") = true ->
      prop sent "budget" = prop body "budget"
      /\ prop sent "line_item_budget" = prop body "line_item_budget")
  /\ (truthy (prop body "budget") = false ->
      is_undefined (prop body "line_item_budget") = false ->
      prop sent "budget" = prop body "line_item_budget"
      /\ prop sent "line_item_budget" = VUndefined).
Proof.
  cbv zeta. unfold LineItemResource.normalize, LineItemResource.field. cbv zeta.
  cbn [spread].
  split; [|split; [|split]].
  - intros Hn. rewrite Hn. rewrite andb_false_r. split; peel; reflexivity.
  - intros Hn Hl. rewrite Hn, Hl. cbn [negb andb]. split; peel.
    + apply prop_set_same.
    + apply prop_delete_same.
  - intros Hb. split.
    all: rewrite !prop_if_set by discriminate; rewrite prop_delete_other by discriminate;
      rewrite prop_set_other by discriminate; rewrite prop_if_set by discriminate;
      apply line_item_budget_step;
      solve [ rewrite !prop_if_set_delete by discriminate; reflexivity | exact Hb ].
  - intros Hb Hl. split.
    all: rewrite !prop_if_set by discriminate; rewrite prop_delete_other by discriminate;
      rewrite prop_set_other by discriminate; rewrite prop_if_set by discriminate;
      apply line_item_budget_step;
      solve [ rewrite !prop_if_set_delete by discriminate; reflexivity
            | exact Hb | exact Hl ].
Qed.

(** X12: what [lineItems.create] resolves to: a reply with a truthy
    [id] is wrapped as [{success: true, payload}] with [line_item_id]
    equal to [id]; a reply with a [success] property is passed on, and
    its [success] is never [false] (such a reply is thrown by [request]);
    any other reply gives the client's own
    [{success: false, message: 'Unexpected response format'}]. *)
Theorem line_item_create_result (body : value) :
  resolves_in (LineItemResource.create body)
    (fun r =>
       (prop r "success" = VBool true
        /\ truthy (prop (prop r "payload") "id") = true
        /\ prop (prop r "payload") "line_item_id" = prop (prop r "payload") "id")
       \/ (is_undefined (prop r "success") = false
           /\ is_false (prop r "success") = false)
       \/ (prop r "success" = VBool false
           /\ prop r "message" = VStr "Unexpected response format")).
Proof.
  unfold LineItemResource.create.
  apply resolves_in_bind. intros _.
  eapply resolves_in_bind_with; [apply request_resolves_in|].
  intros response [_ Hnotfalse]. cbv beta.
  destruct (truthy response && truthy (prop response "id")) eqn:Eid.
  - apply resolves_in_ret. left.
    apply andb_prop in Eid. destruct Eid as [_ Eid].
    destruct response as [| | | | | |fields|]; try (simpl in Eid; discriminate Eid).
    cbn [spread].
    cbn [obj assign fold_left prop own String.eqb Ascii.eqb Bool.eqb fst snd].
    cbn [set_field String.eqb Ascii.eqb Bool.eqb own].
    split; [reflexivity|].
    fold (prop (VObj (set_field fields "line_item_id" (prop (VObj fields) "id"))) "id").
    fold (prop (VObj (set_field fields "line_item_id" (prop (VObj fields) "id")))
            "line_item_id").
    rewrite prop_set_same. rewrite prop_set_other by discriminate.
    split; [exact Eid | reflexivity].
  - destruct (truthy response && negb (is_undefined (prop response "success"))) eqn:Es.
    + apply resolves_in_ret. right. left.
      apply andb_prop in Es. destruct Es as [_ Es].
      split; [now apply negb_true_iff in Es | exact Hnotfalse].
    + apply resolves_in_ret. right. right. split; reflexivity.
Qed.
End LineItemFacts.

(** ** The helpers of the client *)

Section HelperFacts.
Context {number : Type} `{JsRuntime number}.
#[local] Abbreviation value := (value number).




(** X13: [createLineItem] needs the campaign.  When the lookup of
    [params.campaign_id] returns no record, the helper rejects with
    [Error('Campaign not found')] after this one GET: nothing is posted. *)
Theorem createLineItem_needs_the_campaign
        (params : value) (w : world number) (r : response number) :
  nullish params = false ->
  replies w (cursor w) = Fulfils r ->
  nullish (data r) = false ->
  is_false (prop (data r) "success") = false ->
  truthy (opt_first (prop (data r) "payload")) = false ->
  BeeswaxClientHelpers.createLineItem params w
  = (Rejected (JsError "Campaign not found"),
     after_call w (mkCall "GET" "/rest/campaign"
                     (VObj [("campaign_id", prop params "campaign_id")])
                     VUndefined VUndefined)).
Proof.
  intros Hparams Hreply Hdata Hsuccess Hempty.
  unfold BeeswaxClientHelpers.createLineItem, getp. rewrite Hparams.
  unfold bind at 1, ret at 1. unfold bind at 1.
  unfold BaseResource.find, bind at 1. rewrite request_run, Hreply, Hdata, Hsuccess.
  unfold ret at 1.
  cbn [obj assign fold_left set_field prop own String.eqb Ascii.eqb Bool.eqb fst snd
       truthy negb orb].
  rewrite Hempty. reflexivity.
Qed.


(** X15: [uploadCreativeAsset] survives a failed size probe.  With a
    source URL and no [size_in_bytes], the HEAD request comes first; when
    it fails, the asset is still posted to [/rest/creative_asset], without
    [size_in_bytes], under the given name or else the last path segment
    of the URL, and active unless [params.active] says otherwise. *)
Theorem upload_survives_a_failed_size_probe
        (pfields : list (string * value)) (url : string) (w : world number)
        (m : string) (resp : option (response number)) :
  let params := VObj pfields in
  prop params "sourceUrl" = VStr url ->
  url <> "" ->
  truthy (prop params "size_in_bytes") = false ->
  replies w (cursor w) = Rejects m resp ->
  exists body cs,
    sent (snd (BeeswaxClientHelpers.uploadCreativeAsset params w))
    = (sent w ++ mkCall "HEAD" url VUndefined VUndefined VUndefined
               :: mkCall "POST" "/rest/creative_asset" VUndefined body VUndefined
               :: cs)%list
    /\ prop body "size_in_bytes" = VUndefined
    /\ prop body "creative_asset_name"
       = (if truthy (prop params "creative_asset_name")
          then prop params "creative_asset_name"
          else VStr (last_segment url))
    /\ prop body "advertiser_id" = prop params "advertiser_id"
    /\ prop body "active"
       = (if is_undefined (prop params "active") then VBool true
          else prop params "active").
Proof.
  cbv zeta. intros Hurl Hne Hsize Hhead.
  unfold BeeswaxClientHelpers.uploadCreativeAsset, getp. cbn [nullish].
  unfold bind at 1, ret at 1. rewrite Hurl.
  assert (Htruthy : truthy (VStr url : value) = true).
  { simpl. destruct url; [contradiction | reflexivity]. }
  rewrite Htruthy. cbn [negb]. cbv zeta.
  unfold BeeswaxClientHelpers.field.
  set (assetDef := assign [] _).
  set (named := if negb (truthy (prop (VObj assetDef) "creative_asset_name"))
                then ret (set_field assetDef "creative_asset_name"
                            (VStr (last_segment url)))
                else ret assetDef).
  set (assetDef' := if truthy (prop (VObj pfields) "creative_asset_name")
                    then assetDef
                    else set_field assetDef "creative_asset_name"
                           (VStr (last_segment url))).
  assert (Hnamed : named = ret assetDef').
  { subst named assetDef' assetDef.
    cbn [assign fold_left set_field prop own String.eqb Ascii.eqb Bool.eqb fst snd].
    destruct (truthy (match own pfields "creative_asset_name" with
                      | Some x => x | None => VUndefined end)); reflexivity. }
  rewrite Hnamed. unfold bind at 1, ret at 1.
  rewrite Hsize. cbn [negb].
  unfold bind at 1. unfold try_catch, bind at 1, axios at 1. rewrite Hhead.
  cbn [js_String]. unfold ret at 1.
  set (w1 := mkWorld (replies w) (S (cursor w)) _).
  match goal with
  | |- context [bind ?m ?k w1] =>
      destruct (sent_bind_appends (fun _ => True) m k w1) as (cs & E & _)
  end.
  { intros createResponse. cbv zeta.
    destruct (negb (truthy (opt_prop (prop createResponse "payload") "id")));
      [apply appends_only_throw|].
    apply appends_only_bind; [now apply appends_only_axios|]. intros _.
    apply appends_only_bind; [now apply appends_only_request|]. intros _.
    apply appends_only_bind; [apply appends_only_find; trivial|]. intros a.
    destruct (negb (truthy (prop a "payload")));
      [apply appends_only_throw | apply appends_only_ret]. }
  exists (VObj assetDef'), cs. split.
  - rewrite E. rewrite request_post_sends. subst w1. unfold after_call.
    cbn [sent BeeswaxClient.with_body o_params o_body o_headers].
    rewrite <- !app_assoc. reflexivity.
  - subst assetDef' assetDef.
    cbn [assign fold_left set_field prop own String.eqb Ascii.eqb Bool.eqb fst snd].
    destruct (truthy (match own pfields "creative_asset_name" with
                      | Some x => x | None => VUndefined end));
      cbn [set_field prop own String.eqb Ascii.eqb Bool.eqb];
      repeat split; try reflexivity;
        destruct (is_undefined _); reflexivity.
Qed.
End HelperFacts.

(** ** createFullCampaign: targeting templates *)

Ltac keeps_step :=
  cbv zeta;
  lazymatch goal with
  | |- resolves_in (bind _ _) _ => apply resolves_in_bind; intros
  | |- resolves_in (if ?c then _ else _) _ => destruct c
  | |- resolves_in (throw _) _ => apply resolves_in_throw
  | |- resolves_in (ret _) _ => apply resolves_in_ret; try assumption
  end.


Section TemplateFacts.
Context {number : Type} `{JsRuntime number}.
#[local] Abbreviation value := (value number).

Lemma resolves_in_for_each {A S} (body : S -> A -> M number S) (I : S -> Prop) :
  (forall s x, I s -> resolves_in (body s x) I) ->
  forall xs s, I s -> resolves_in (for_each xs s body) I.
Proof.
  intros Hb xs. induction xs as [|x rest IH]; intros s Hs; simpl.
  - now apply resolves_in_ret.
  - eapply resolves_in_bind_with; [apply Hb, Hs | intros s' Hs'; now apply IH].
Qed.

Lemma template_step_keeps (options : value) (result : full_campaign number)
      (templateOptions : value) :
  targeting_templates result = [] ->
  resolves_in (CampaignMacros.createFullCampaign_template options result templateOptions)
    (fun result' => targeting_templates result' = []).
Proof.
  intros Hres. unfold CampaignMacros.createFullCampaign_template.
  apply resolves_in_bind. intros name. cbv zeta.
  unfold TargetingTemplateResource.create, bind, ret.
  cbn [obj assign fold_left set_field prop own String.eqb Ascii.eqb Bool.eqb fst snd
       truthy andb].
  intros w a w' E. inversion E. now subst.
Qed.

Lemma creative_step_keeps (options lineItem : value) (result : full_campaign number)
      (creativeOptions : value) :
  targeting_templates result = [] ->
  resolves_in (CampaignMacros.createFullCampaign_creative options lineItem result
                 creativeOptions)
    (fun result' => targeting_templates result' = []).
Proof.
  intros Hres. unfold CampaignMacros.createFullCampaign_creative.
  repeat keeps_step.
Qed.

Lemma line_item_step_keeps (options campaign : value) (result : full_campaign number)
      (lineItemOptions : value) :
  targeting_templates result = [] ->
  resolves_in (CampaignMacros.createFullCampaign_line_item options campaign result
                 lineItemOptions)
    (fun result' => targeting_templates result' = []).
Proof.
  intros Hres. unfold CampaignMacros.createFullCampaign_line_item.
  apply resolves_in_bind. intros name.
  apply resolves_in_bind. intros lineItemResponse. cbv zeta.
  destruct (negb (truthy (prop lineItemResponse "success")) || _);
    [now apply resolves_in_ret|].
  destruct (truthy (prop lineItemOptions "creatives")); [|now apply resolves_in_ret].
  apply resolves_in_bind. intros creativeList.
  apply resolves_in_for_each; [|exact Hres].
  intros s x Hs. now apply creative_step_keeps.
Qed.

(** X16: [createFullCampaign] creates no targeting template.  The
    creation of a template always returns the deprecation response, so
    whatever [options.targeting_templates] holds, a successful result has
    an empty [targeting_templates] list. *)
Theorem createFullCampaign_creates_no_targeting_template (options : value) :
  resolves_in (CampaignMacros.createFullCampaign options)
    (fun r => prop r "success" = VBool true ->
              prop (prop r "payload") "targeting_templates" = VArr []).
Proof.
  unfold CampaignMacros.createFullCampaign. apply resolves_in_catch.
  - apply resolves_in_bind. intros advertiser_id. cbv zeta.
    apply resolves_in_bind. intros campaignResponse.
    destruct (negb (truthy (prop campaignResponse "success")) || _);
      [apply resolves_in_throw|].
    destruct (negb (truthy (prop (prop campaignResponse "payload") "campaign_id")));
      [apply resolves_in_throw|].
    eapply resolves_in_bind_with
      with (P := fun result => targeting_templates result = []).
    + destruct (truthy (prop options "targeting_templates"));
        [|now apply resolves_in_ret].
      apply resolves_in_bind. intros templates.
      apply resolves_in_for_each; [|reflexivity].
      intros s x Hs. now apply template_step_keeps.
    + intros result Hres. apply resolves_in_bind. intros lineItemList.
      eapply resolves_in_bind_with
        with (P := fun result => targeting_templates result = []).
      * apply resolves_in_for_each; [|exact Hres].
        intros s x Hs. now apply line_item_step_keeps.
      * intros result' Hres'. unfold CampaignMacros.succeeded.
        apply resolves_in_ret. intros _.
        unfold CampaignMacros.payload_of. rewrite Hres'. reflexivity.
  - intros e. apply resolves_in_ret. intros Hs. discriminate Hs.
Qed.
End TemplateFacts.

(** ** The methods of the calls *)

Section MethodFacts.
Context {number : Type} `{JsRuntime number}.
#[local] Abbreviation value := (value number).
Variable P : call number -> Prop.

Lemma appends_only_request_method (method url : string) (options : req_options number) :
  (forall c, c_method c = method -> P c) ->
  appends_only P (BeeswaxClient.request method url options).
Proof.
  intros Hm w. rewrite request_run. cbn [snd after_call sent].
  eexists [_]. split; [reflexivity|]. constructor; [|constructor].
  apply Hm. destruct (String.eqb (toUpperCase method) "GET"); reflexivity.
Qed.

Hypothesis HGET : forall c, c_method c = "GET" -> P c.
Hypothesis HPOST : forall c, c_method c = "POST" -> P c.

Lemma appends_only_find_method (this : resource) (id : value) :
  appends_only P (BaseResource.find this id).
Proof.
  unfold BaseResource.find. apply appends_only_bind.
  - now apply appends_only_request_method.
  - intros r. apply appends_only_ret.
Qed.

Lemma appends_only_query_method (this : resource) (body : value) :
  appends_only P (BaseResource.query this body).
Proof.
  unfold BaseResource.query. apply appends_only_bind.
  - now apply appends_only_request_method.
  - intros r. apply appends_only_ret.
Qed.

Lemma appends_only_create_method (this : resource) (body : value) :
  appends_only P (BaseResource.create this body).
Proof.
  unfold BaseResource.create.
  destruct (negb (isPOJO body) || no_keys body); [apply appends_only_ret|].
  apply appends_only_bind.
  - now apply appends_only_request_method.
  - intros r. destruct (truthy (prop r "success") && _);
      [apply appends_only_find_method | apply appends_only_ret].
Qed.

Lemma appends_only_line_item_create_method (body : value) :
  appends_only P (LineItemResource.create body).
Proof.
  unfold LineItemResource.create.
  apply appends_only_bind; [apply appends_only_getp|]. intros _.
  apply appends_only_bind; [now apply appends_only_request_method|]. intros response.
  destruct (truthy response && truthy (prop response "id")); [apply appends_only_ret|].
  destruct (truthy response && _); apply appends_only_ret.
Qed.
End MethodFacts.

Ltac calls_step :=
  cbv zeta;
  lazymatch goal with
  | |- appends_only _ (BaseResource.find _ _) =>
      apply appends_only_find_method; auto
  | |- appends_only _ (BaseResource.query _ _) =>
      apply appends_only_query_method; auto
  | |- appends_only _ (BaseResource.create _ _) =>
      apply appends_only_create_method; auto
  | |- appends_only _ (LineItemResource.create _) =>
      apply appends_only_line_item_create_method; auto
  | |- appends_only _ (BeeswaxClient.request _ _ _) =>
      apply appends_only_request_method; auto
  | |- appends_only _ (axios _) => apply appends_only_axios; auto
  | |- appends_only _ (bind _ _) => apply appends_only_bind; [|intros]
  | |- appends_only _ (try_catch _ _) => apply appends_only_catch; [|intros]
  | |- appends_only _ (for_each _ _ _) => apply appends_only_for_each; intros
  | |- appends_only _ (if ?c then _ else _) => destruct c
  | |- appends_only _ (match ?v with VStr _ => _ | _ => _ end) => destruct v
  | |- appends_only _ (ret _) => apply appends_only_ret
  | |- appends_only _ (throw _) => apply appends_only_throw
  | |- appends_only _ (getp _ _) => apply appends_only_getp
  | |- appends_only _ (iterate _) => apply appends_only_iterate
  | |- appends_only _ (delay _) => apply appends_only_ret
  | |- appends_only _ (to_String _) => apply appends_only_completed
  | |- appends_only _ (completed _) => apply appends_only_completed
  end.

Section MacroCalls.
Context {number : Type} `{JsRuntime number}.
#[local] Abbreviation value := (value number).
Variable P : call number -> Prop.
Hypothesis HGET : forall c, c_method c = "GET" -> P c.
Hypothesis HPOST : forall c, c_method c = "POST" -> P c.
Hypothesis HHEAD : forall c, c_method c = "HEAD" -> P c.

Lemma uploadCreativeAsset_calls (params : value) :
  appends_only P (BeeswaxClientHelpers.uploadCreativeAsset params).
Proof.
  unfold BeeswaxClientHelpers.uploadCreativeAsset. repeat calls_step.
Qed.

Lemma createLineItem_calls (params : value) :
  appends_only P (BeeswaxClientHelpers.createLineItem params).
Proof.
  unfold BeeswaxClientHelpers.createLineItem. repeat calls_step.
Qed.

Lemma createFullCampaign_calls (options : value) :
  appends_only P (CampaignMacros.createFullCampaign options).
Proof.
  unfold CampaignMacros.createFullCampaign, CampaignMacros.createFullCampaign_template,
    CampaignMacros.createFullCampaign_line_item,
    CampaignMacros.createFullCampaign_creative, CampaignMacros.succeeded,
    CampaignResource.create, CreativeResource.create, TargetingTemplateResource.create.
  repeat first [ apply createLineItem_calls | apply uploadCreativeAsset_calls
               | calls_step ].
Qed.

Lemma cloneCampaign_calls (campaignId newName options : value) :
  appends_only P (CampaignMacros.cloneCampaign campaignId newName options).
Proof.
  unfold CampaignMacros.cloneCampaign, CampaignMacros.cloneCampaign_line_item,
    CampaignMacros.cloneCampaign_cli, CampaignMacros.succeeded, CampaignResource.create.
  repeat calls_step.
Qed.

Lemma bulkCreateLineItems_calls (campaignId : value)
      (items : list (list (string * value))) :
  appends_only P (CampaignMacros.bulkCreateLineItems campaignId items).
Proof.
  unfold CampaignMacros.bulkCreateLineItems, CampaignMacros.bulkCreate_step.
  repeat first [ apply createLineItem_calls | calls_step ].
Qed.

Lemma getCampaignPerformance_calls (campaignId startDate endDate : value) :
  appends_only P (CampaignMacros.getCampaignPerformance campaignId startDate endDate).
Proof.
  unfold CampaignMacros.getCampaignPerformance, CampaignMacros.create_report.
  repeat calls_step.
Qed.
End MacroCalls.

Section MacroNever.
Context {number : Type} `{JsRuntime number}.
#[local] Abbreviation value := (value number).

(** X17: the macros that create never update or delete.  Every call of
    [createFullCampaign], [cloneCampaign], [bulkCreateLineItems] and
    [getCampaignPerformance] is a GET, a POST or a HEAD, whatever the
    replies: what was created before a failure is left in place. *)
Theorem macros_never_update_or_delete :
  (forall options : value,
      appends_only reads_or_creates (CampaignMacros.createFullCampaign options))
  /\ (forall campaignId newName options : value,
         appends_only reads_or_creates
           (CampaignMacros.cloneCampaign campaignId newName options))
  /\ (forall (campaignId : value) (items : list (list (string * value))),
         appends_only reads_or_creates
           (CampaignMacros.bulkCreateLineItems campaignId items))
  /\ (forall campaignId startDate endDate : value,
         appends_only reads_or_creates
           (CampaignMacros.getCampaignPerformance campaignId startDate endDate)).
Proof.
  assert (HGET : forall c : call number, c_method c = "GET" -> reads_or_creates c)
    by (intros c E; now left).
  assert (HPOST : forall c : call number, c_method c = "POST" -> reads_or_creates c)
    by (intros c E; right; now left).
  assert (HHEAD : forall c : call number, c_method c = "HEAD" -> reads_or_creates c)
    by (intros c E; right; now right).
  split; [|split; [|split]]; intros.
  - now apply createFullCampaign_calls.
  - now apply cloneCampaign_calls.
  - now apply bulkCreateLineItems_calls.
  - now apply getCampaignPerformance_calls.
Qed.
End MacroNever.

(** ** cloneCampaign: the options *)

Section CloneOptions.
Context {number : Type} `{JsRuntime number}.
#[local] Abbreviation value := (value number).

Lemma for_each_ext {A S} (f g : S -> A -> M number S) :
  (forall s x w, f s x w = g s x w) ->
  forall xs s w, for_each xs s f w = for_each xs s g w.
Proof.
  intros Hfg xs. induction xs as [|x rest IH]; intros s w; [reflexivity|].
  cbn [for_each]. unfold bind. rewrite Hfg.
  destruct (g s x w) as [[s'|e] w1]; [apply IH | reflexivity].
Qed.

Lemma opt_prop_set_other (fields : list (string * value)) k k' v :
  k <> k' ->
  opt_prop (VObj (set_field fields k v)) k' = opt_prop (VObj fields) k'.
Proof. intros Hne. unfold opt_prop. cbn [nullish]. now apply prop_set_other. Qed.

(** X18: the option [clone_targeting] of [cloneCampaign] has no effect:
    with the option set to any value the macro makes the same calls and
    returns the same result as without it. *)
Theorem cloneCampaign_ignores_clone_targeting
        (campaignId newName v : value) (fields : list (string * value))
        (w : world number) :
  CampaignMacros.cloneCampaign campaignId newName
    (VObj (set_field fields "clone_targeting" v)) w
  = CampaignMacros.cloneCampaign campaignId newName (VObj fields) w.
Proof.
  set (options' := VObj (set_field fields "clone_targeting" v)).
  set (options := VObj fields).
  assert (Hopt : forall k, "clone_targeting" <> k ->
                           opt_prop options' k = opt_prop options k).
  { intros k Hk. now apply opt_prop_set_other. }
  assert (Hprop : forall k, "clone_targeting" <> k -> prop options' k = prop options k).
  { intros k Hk. now apply prop_set_other. }
  assert (Hcampaign : forall original,
             CampaignMacros.cloned_campaign original newName options'
             = CampaignMacros.cloned_campaign original newName options).
  { intros original. unfold CampaignMacros.cloned_campaign. cbv zeta.
    rewrite !Hopt by discriminate. rewrite !Hprop by discriminate. reflexivity. }
  assert (Hitem : forall newCampaign lineItem,
             CampaignMacros.cloned_line_item newCampaign options' lineItem
             = CampaignMacros.cloned_line_item newCampaign options lineItem).
  { intros newCampaign lineItem. unfold CampaignMacros.cloned_line_item. cbv zeta.
    rewrite !Hopt by discriminate. rewrite !Hprop by discriminate. reflexivity. }
  assert (Hstep : forall newCampaign result lineItem w0,
             CampaignMacros.cloneCampaign_line_item newCampaign options' result
               lineItem w0
             = CampaignMacros.cloneCampaign_line_item newCampaign options result
                 lineItem w0).
  { intros newCampaign result lineItem w0.
    unfold CampaignMacros.cloneCampaign_line_item.
    rewrite Hitem. rewrite Hopt by discriminate. reflexivity. }
  unfold CampaignMacros.cloneCampaign, try_catch, bind.
  destruct (BaseResource.find campaigns campaignId w) as [[campaignResponse|e] w1];
    [|reflexivity].
  destruct (negb (truthy (prop campaignResponse "success")) || _); [reflexivity|].
  rewrite Hcampaign.
  destruct (CampaignResource.create _ w1) as [[newCampaignResponse|e] w2];
    [|reflexivity].
  destruct (negb (truthy (prop newCampaignResponse "success")) || _); [reflexivity|].
  destruct (negb (truthy (prop (prop newCampaignResponse "payload") "campaign_id")));
    [reflexivity|].
  destruct (BaseResource.query lineItems _ w2) as [[lineItemsResponse|e] w3];
    [|reflexivity].
  destruct (truthy (prop lineItemsResponse "success") && _); [|reflexivity].
  destruct (iterate (prop lineItemsResponse "payload") w3) as [[lineItemList|e] w4];
    [|reflexivity].
  rewrite (for_each_ext _ _ (Hstep (prop newCampaignResponse "payload"))).
  reflexivity.
Qed.

(** X19: the dates given to [cloneCampaign] apply to the campaign only.
    With [options.start_date] and [options.end_date] the new campaign is
    created with these dates, while every cloned line item is created
    with the dates of its source line item. *)
Theorem clone_dates_apply_to_the_campaign_only
        (originalCampaign newName options newCampaign : value)
        (fields : list (string * value)) :
  truthy (opt_prop options "start_date") = true ->
  truthy (opt_prop options "end_date") = true ->
  let campaignBody :=
    CampaignResource.normalize
      (CampaignMacros.cloned_campaign originalCampaign newName options) in
  let lineItemBody :=
    LineItemResource.normalize
      (CampaignMacros.cloned_line_item newCampaign options (VObj fields)) in
  prop campaignBody "start_date" = prop options "start_date"
  /\ prop campaignBody "end_date" = prop options "end_date"
  /\ prop lineItemBody "start_date" = prop (VObj fields) "start_date"
  /\ prop lineItemBody "end_date" = prop (VObj fields) "end_date".
Proof.
  intros Hs He. cbv zeta.
  assert (Hc : forall k, k = "start_date" \/ k = "end_date" ->
                         prop (CampaignResource.normalize
                                 (CampaignMacros.cloned_campaign originalCampaign
                                    newName options)) k = prop options k).
  { intros k Hk. unfold CampaignResource.normalize. cbv zeta. cbn [prop].
    rewrite map_names_keeps by (destruct Hk as [-> | ->]; discriminate).
    rewrite own_assign_one.
    replace (String.eqb "budget_type" k) with false
      by (destruct Hk as [-> | ->]; reflexivity).
    unfold CampaignMacros.cloned_campaign. cbv zeta. rewrite Hs, He. cbn [spread].
    change (match own ?l k with Some x => x | None => VUndefined end)
      with (prop (VObj l) k).
    destruct Hk as [-> | ->]; peel; now rewrite prop_set_same. }
  assert (Hl : forall k, k = "start_date" \/ k = "end_date" ->
                         prop (LineItemResource.normalize
                                 (CampaignMacros.cloned_line_item newCampaign options
                                    (VObj fields))) k = prop (VObj fields) k).
  { intros k Hk. unfold CampaignMacros.cloned_line_item. cbv zeta.
    rewrite line_item_normalize_other by (destruct Hk as [-> | ->]; discriminate).
    rewrite prop_if_set by (destruct Hk as [-> | ->]; discriminate).
    rewrite prop_set_other by (destruct Hk as [-> | ->]; discriminate).
    apply rest_without_other. unfold CampaignMacros.line_item_read_only. simpl.
    destruct Hk as [-> | ->]; intuition discriminate. }
  repeat split; [apply Hc | apply Hc | apply Hl | apply Hl]; auto.
Qed.
End CloneOptions.

(** ** bulkCreateLineItems *)

Section BulkCreateFacts.
Context {number : Type} `{JsRuntime number}.
#[local] Abbreviation value := (value number).

End BulkCreateFacts.

(** ** bulkUpdateCampaignStatus: the calls *)

Section BulkUpdateCalls.
Context {number : Type} `{JsRuntime number}.
#[local] Abbreviation value := (value number).

Lemma status_edit_sends (active id : value) (w : world number) :
  exists cs,
    sent (snd (CampaignResource.edit id (obj [("active", active)]) false w))
    = (sent w ++ status_update active id :: cs)%list
    /\ Forall (fun c => c_method c = "GET") cs.
Proof.
  unfold CampaignResource.edit, getp.
  cbn [obj assign fold_left set_field fst snd nullish].
  unfold bind at 1, ret at 1.
  unfold CampaignResource.map_names. cbv zeta.
  cbn [prop own String.eqb Ascii.eqb Bool.eqb or_else truthy is_undefined negb orb
       spread].
  destruct (base_edit_sends campaigns id [("active", active)] false w)
    as (cs & E & Hcs & _); [discriminate | reflexivity |].
  exists cs. split; [exact E|].
  eapply Forall_impl; [|exact Hcs]. intros c ->. reflexivity.
Qed.

Lemma bulkUpdate_step_sends (active : value) (counts : Z * Z) (id : value)
      (w : world number) :
  exists cs,
    sent (snd (CampaignMacros.bulkUpdate_step active counts id w))
    = (sent w ++ status_update active id :: cs)%list
    /\ Forall (fun c => c_method c = "GET") cs.
Proof.
  destruct (status_edit_sends active id w) as (cs & E & Hcs).
  exists cs. split; [|exact Hcs]. rewrite <- E.
  rewrite bulkUpdate_step_outcome. reflexivity.
Qed.

Lemma filter_reads (cs : list (call number)) :
  Forall (fun c => c_method c = "GET") cs -> filter is_update cs = [].
Proof.
  induction 1 as [|c cs Hc _ IH]; [reflexivity|].
  simpl. unfold is_update. rewrite Hc. exact IH.
Qed.

(** X21: [bulkUpdateCampaignStatus] changes nothing but [active].  For
    each id of the list, in order, exactly one
    [PUT /rest/campaign/strict] is sent, with the body
    [{active, campaign_id: id}]; every other call of the macro is a GET
    (the [find] after a successful update). *)
Theorem bulk_update_sends_one_status_update_per_id (ids : list value) (active : value) :
  forall w : world number,
    filter is_update (sent (snd (CampaignMacros.bulkUpdateCampaignStatus ids active w)))
    = (filter is_update (sent w) ++ map (status_update active) ids)%list
    /\ exists cs,
         sent (snd (CampaignMacros.bulkUpdateCampaignStatus ids active w))
         = (sent w ++ cs)%list
         /\ Forall (fun c => c_method c = "GET"
                             \/ exists id, In id ids /\ c = status_update active id) cs.
Proof.
  assert (Hloop : forall (counts : Z * Z) (w : world number),
             filter is_update
               (sent (snd (for_each ids counts (CampaignMacros.bulkUpdate_step active) w)))
             = (filter is_update (sent w) ++ map (status_update active) ids)%list
             /\ exists cs,
                  sent (snd (for_each ids counts
                               (CampaignMacros.bulkUpdate_step active) w))
                  = (sent w ++ cs)%list
                  /\ Forall (fun c => c_method c = "GET"
                                      \/ exists id, In id ids
                                                    /\ c = status_update active id) cs).
  { induction ids as [|id rest IH]; intros counts w.
    - simpl. rewrite app_nil_r. split; [reflexivity|]. exists [].
      now rewrite app_nil_r.
    - cbn [for_each]. unfold bind.
      destruct (bulkUpdate_step_sends active counts id w) as (cs & E & Hcs).
      pose proof (bulkUpdate_step_outcome active counts id w) as Hout.
      destruct (CampaignMacros.bulkUpdate_step active counts id w) as [[counts'|e] w1];
        [|discriminate Hout].
      cbn [snd] in E.
      destruct (IH counts' w1) as (Hfilter & cs' & E' & Hcs').
      split.
      + rewrite Hfilter, E. rewrite !filter_app. cbn [filter map is_update].
        change (String.eqb (c_method (status_update active id)) "PUT") with true.
        cbv iota. rewrite (filter_reads cs Hcs). cbn [app].
        rewrite <- app_assoc. reflexivity.
      + exists (status_update active id :: cs ++ cs')%list. split.
        * rewrite E', E. rewrite <- !app_assoc. reflexivity.
        * constructor; [right; exists id; split; [now left | reflexivity]|].
          apply Forall_app. split.
          -- eapply Forall_impl; [|exact Hcs]. intros c Hc. now left.
          -- eapply Forall_impl; [|exact Hcs']. intros c [Hc|(id' & Hin & Hc)];
               [now left | right; exists id'; split; [now right | exact Hc]]. }
  intros w. unfold CampaignMacros.bulkUpdateCampaignStatus, bind.
  destruct (Hloop (0, 0)%Z w) as (Hfilter & cs & E & Hcs).
  pose proof (bulkUpdate_loop active ids (0, 0)%Z w) as Hres.
  destruct (for_each ids (0, 0)%Z (CampaignMacros.bulkUpdate_step active) w)
    as [[counts|e] w1]; [|discriminate Hres].
  split; [exact Hfilter | exists cs; split; [exact E | exact Hcs]].
Qed.
End BulkUpdateCalls.

(** ** cloneCampaign: the endpoints *)

Section UrlFacts.
Context {number : Type} `{JsRuntime number}.
#[local] Abbreviation value := (value number).
Variable P : call number -> Prop.

Lemma appends_only_line_item_create (body : value) :
  (forall c, c_url c = "/rest/v2/line-items" -> P c) ->
  appends_only P (LineItemResource.create body).
Proof.
  intros Hurl. unfold LineItemResource.create.
  apply appends_only_bind; [apply appends_only_getp|]. intros _.
  apply appends_only_bind; [now apply appends_only_request|]. intros response.
  destruct (truthy response && truthy (prop response "id")); [apply appends_only_ret|].
  destruct (truthy response && _); apply appends_only_ret.
Qed.
End UrlFacts.

Ltac other_url Eurl :=
  simpl in Eurl; unfold creative_call, association_call; rewrite Eurl;
  repeat split; intros [E|E]; discriminate E.

Ltac urls_step :=
  cbv zeta;
  lazymatch goal with
  | |- appends_only _ (BaseResource.find _ _) =>
      apply appends_only_find; intros ? Eurl; other_url Eurl
  | |- appends_only _ (BaseResource.query _ _) =>
      apply appends_only_query; intros ? Eurl; other_url Eurl
  | |- appends_only _ (BaseResource.create _ _) =>
      apply appends_only_create; intros ? Eurl; other_url Eurl
  | |- appends_only _ (LineItemResource.create _) =>
      apply appends_only_line_item_create; intros ? Eurl; other_url Eurl
  | |- appends_only _ (bind _ _) => apply appends_only_bind; [|intros]
  | |- appends_only _ (try_catch _ _) => apply appends_only_catch; [|intros]
  | |- appends_only _ (for_each _ _ _) => apply appends_only_for_each; intros
  | |- appends_only _ (if ?c then _ else _) => destruct c
  | |- appends_only _ (ret _) => apply appends_only_ret
  | |- appends_only _ (throw _) => apply appends_only_throw
  | |- appends_only _ (getp _ _) => apply appends_only_getp
  | |- appends_only _ (iterate _) => apply appends_only_iterate
  | |- appends_only _ (delay _) => apply appends_only_ret
  end.

Section CloneUrls.
Context {number : Type} `{JsRuntime number}.
#[local] Abbreviation value := (value number).

(** X22: [cloneCampaign] reuses the creatives of the source.  No call
    of the macro goes to the creative endpoints: the associations of the
    cloned line items point to the creatives of the source campaign.
    With [clone_creatives: false] no call goes to the association
    endpoints either. *)
Theorem cloneCampaign_reuses_the_creatives (campaignId newName options : value) :
  appends_only (fun c => ~ creative_call c)
    (CampaignMacros.cloneCampaign campaignId newName options)
  /\ (is_false (opt_prop options "clone_creatives") = true ->
      appends_only (fun c => ~ creative_call c /\ ~ association_call c)
        (CampaignMacros.cloneCampaign campaignId newName options)).
Proof.
  split.
  - unfold CampaignMacros.cloneCampaign, CampaignMacros.cloneCampaign_line_item,
      CampaignMacros.cloneCampaign_cli, CampaignMacros.succeeded,
      CampaignResource.create.
    repeat urls_step.
  - intros Hoff.
    unfold CampaignMacros.cloneCampaign, CampaignMacros.cloneCampaign_line_item,
      CampaignMacros.succeeded, CampaignResource.create.
    rewrite Hoff. cbn [negb].
    repeat urls_step.
Qed.
End CloneUrls.

(** ** createFullCampaign: the campaign *)

Section FullCampaignFacts.
Context {number : Type} `{JsRuntime number}.
#[local] Abbreviation value := (value number).

Lemma try_catch_ret_sent {A} (m : M number A) (h : thrown number -> A)
      (w : world number) :
  sent (snd (try_catch m (fun e => ret (h e)) w)) = sent (snd (m w)).
Proof. unfold try_catch, ret. destruct (m w) as [[a|e] w1]; reflexivity. Qed.

Lemma or_else_defined (a b : value) :
  is_undefined b = false -> is_undefined (or_else a b) = false.
Proof.
  intros Hb. unfold or_else. destruct (truthy a) eqn:E; [|exact Hb].
  destruct a; try reflexivity. discriminate E.
Qed.

(** X23: the first call of [createFullCampaign].  For every options
    object the macro starts by posting the campaign to
    [/rest/campaign/strict], inactive whatever the options say, with
    [budget_type] 2 unless a truthy one is given, the budget
    [options.budget || options.campaign_budget] sent as
    [campaign_budget], and the name [options.name ||
    options.campaign_name] sent as [campaign_name]: here [name] wins over
    [campaign_name]. *)
Theorem createFullCampaign_creates_the_campaign_inactive
        (fields : list (string * value)) (w : world number) :
  let options := VObj fields in
  exists body cs,
    sent (snd (CampaignMacros.createFullCampaign options w))
    = (sent w ++ mkCall "POST" "/rest/campaign/strict" VUndefined body VUndefined
               :: cs)%list
    /\ prop body "active" = VBool false
    /\ prop body "advertiser_id" = prop options "advertiser_id"
    /\ prop body "budget_type" = or_else (prop options "budget_type") (num 2)
    /\ prop body "campaign_budget"
       = or_else (prop options "budget") (prop options "campaign_budget")
    /\ (truthy (or_else (prop options "name") (prop options "campaign_name")) = true ->
        prop body "campaign_name"
        = or_else (prop options "name") (prop options "campaign_name")
        /\ prop body "name" = VUndefined).
Proof.
  cbv zeta. unfold CampaignMacros.createFullCampaign.
  rewrite try_catch_ret_sent.
  unfold getp. cbn [nullish]. unfold bind at 1, ret at 1.
  match goal with
  | |- context [CampaignResource.create (obj ?l)] =>
      let d := eval cbv [obj assign fold_left set_field fst snd String.eqb Ascii.eqb
                         Bool.eqb] in (obj l) in
      change (obj l) with d
  end.
  match goal with
  | |- context [CampaignResource.create (VObj ?l)] => set (campaignData := l)
  end.
  match goal with
  | |- context [bind (CampaignResource.create (VObj campaignData)) ?k w] =>
      destruct (sent_bind_appends (fun _ => True)
                  (CampaignResource.create (VObj campaignData)) k w) as (cs & E & _)
  end.
  { intros campaignResponse.
    unfold CampaignMacros.createFullCampaign_template,
      CampaignMacros.createFullCampaign_line_item,
      CampaignMacros.createFullCampaign_creative, CampaignMacros.succeeded,
      CreativeResource.create, TargetingTemplateResource.create.
    repeat first [ apply createLineItem_calls; trivial
                 | apply uploadCreativeAsset_calls; trivial
                 | calls_step ]. }
  destruct (campaign_create_sends campaignData w eq_refl) as (cs1 & E1 & _ & _).
  exists (CampaignResource.normalize (VObj campaignData)), (cs1 ++ cs)%list.
  split.
  { rewrite E, E1. rewrite <- app_assoc. reflexivity. }
  set (body := VObj campaignData).
  assert (Hname : prop body "name"
                  = or_else (prop (VObj fields) "name") (prop (VObj fields) "campaign_name"))
    by reflexivity.
  assert (Hcname : prop body "campaign_name" = VUndefined) by reflexivity.
  assert (Hbudget : prop body "budget"
                    = or_else (prop (VObj fields) "budget")
                        (prop (VObj fields) "campaign_budget"))
    by reflexivity.
  assert (Hcbudget : prop body "campaign_budget" = VUndefined) by reflexivity.
  assert (Hkeep : forall k, k <> "campaign_name" -> k <> "name" ->
                            k <> "campaign_budget" -> k <> "budget" ->
                            k <> "budget_type" ->
                            prop (CampaignResource.normalize body) k = prop body k).
  { intros k H1 H2 H3 H4 H5. unfold CampaignResource.normalize. cbv zeta. cbn [prop].
    rewrite map_names_keeps by assumption. rewrite own_assign_one.
    destruct (String.eqb "budget_type" k) eqn:Ek;
      [apply String.eqb_eq in Ek; congruence | reflexivity]. }
  split; [rewrite Hkeep by discriminate; reflexivity|].
  split; [rewrite Hkeep by discriminate; reflexivity|].
  split.
  { rewrite (proj1 (campaign_normalize_budget_type campaignData)). fold body.
    change (prop body "budget_type")
      with (or_else (prop (VObj fields) "budget_type") (num 2)).
    now rewrite or_else_defined. }
  pose proof (map_names_wins body
                (assign (spread body)
                   [("budget_type",
                     if negb (is_undefined (prop body "budget_type"))
                     then prop body "budget_type" else num 2)]))
    as (_ & Hn & _ & Hb).
  fold (CampaignResource.normalize body) in Hn, Hb.
  split.
  - rewrite <- Hbudget. destruct (is_undefined (prop body "budget")) eqn:Eb.
    + unfold CampaignResource.normalize, CampaignResource.map_names. cbv zeta.
      rewrite Hcbudget, Eb. cbn [is_undefined negb orb].
      destruct (prop body "budget") eqn:Ebody; try discriminate Eb.
      destruct (truthy (or_else (prop body "name") (prop body "campaign_name")));
        peel; cbn [prop]; rewrite own_assign_one; reflexivity.
    + apply Hb; [rewrite Hcbudget; reflexivity | reflexivity].
  - intros Ht. rewrite <- Hname. apply Hn; [rewrite Hcname; reflexivity|].
    rewrite Hname. exact Ht.
Qed.
End FullCampaignFacts.

(** ** cleanObject *)

Section CleanObjectFacts.
Context {number : Type} `{JsRuntime number}.
#[local] Abbreviation value := (value number).

Lemma own_notin (fields : list (string * value)) k :
  ~ In k (map fst fields) -> own fields k = None.
Proof.
  induction fields as [|[k' v] rest IH]; intros Hnotin; [reflexivity|].
  simpl. destruct (String.eqb k' k) eqn:E.
  - apply String.eqb_eq in E. subst k'. exfalso. apply Hnotin. now left.
  - apply IH. intros Hin. apply Hnotin. now right.
Qed.

Lemma own_store (acc : list (string * value)) k v k' :
  own (store acc k v) k'
  = if String.eqb k "__proto__" then own acc k'
    else if String.eqb k k' then Some v else own acc k'.
Proof.
  unfold store. destruct (String.eqb k "__proto__"); [reflexivity|].
  destruct (String.eqb k k') eqn:E.
  - apply String.eqb_eq in E. subst k'. apply own_set_same.
  - apply String.eqb_neq in E. now apply own_set_other.
Qed.

Lemma cleanObject_fold (entries : list (string * value)) (k : string) :
  NoDup (map fst entries) ->
  forall acc : list (string * value),
    own (fold_left
           (fun cleaned kv =>
              if negb (is_undefined (snd kv)) && negb (is_null (snd kv))
                 && negb (is_empty_string (snd kv))
              then store cleaned (fst kv) (snd kv)
              else cleaned)
           entries acc) k
    = match own entries k with
      | Some v =>
          if is_undefined v || is_null v || is_empty_string v
             || String.eqb k "__proto__"
          then own acc k
          else Some v
      | None => own acc k
      end.
Proof.
  induction entries as [|[k' v'] rest IH]; intros Hnodup acc; [reflexivity|].
  inversion Hnodup as [|? ? Hnotin Hrest]. subst.
  cbn [fold_left fst snd]. rewrite IH by exact Hrest.
  cbn [own]. destruct (String.eqb k' k) eqn:E.
  - apply String.eqb_eq in E. subst k'.
    rewrite (own_notin rest k Hnotin).
    destruct (is_undefined v'), (is_null v'), (is_empty_string v');
      cbn [negb andb orb]; try reflexivity.
    rewrite own_store. rewrite String.eqb_refl.
    destruct (String.eqb k "__proto__"); reflexivity.
  - assert (Hacc : own (if negb (is_undefined v') && negb (is_null v')
                           && negb (is_empty_string v')
                        then store acc k' v' else acc) k = own acc k).
    { destruct (negb (is_undefined v') && negb (is_null v')
                && negb (is_empty_string v')); [|reflexivity].
      rewrite own_store, E. destruct (String.eqb k' "__proto__"); reflexivity. }
    rewrite Hacc. reflexivity.
Qed.

(** X24: what [cleanObject] keeps.  A property of the object is copied
    with its value unless the value is [undefined], [null] or the empty
    string; [0], [false] and [NaN] are kept.  An own property named
    [__proto__] is never copied (the assignment reaches the setter of
    the prototype). *)
Theorem cleanObject_drops_only_blank_values
        (entries : list (string * value)) (k : string) :
  NoDup (map fst entries) ->
  own (cleanObject entries) k
  = match own entries k with
    | Some v =>
        if is_undefined v || is_null v || is_empty_string v
           || String.eqb k "__proto__"
        then None
        else Some v
    | None => None
    end.
Proof.
  intros Hnodup. unfold cleanObject. rewrite cleanObject_fold by exact Hnodup.
  reflexivity.
Qed.

Lemma set_field_new (acc : list (string * value)) k v :
  ~ In k (map fst acc) -> set_field acc k v = (acc ++ [(k, v)])%list.
Proof.
  induction acc as [|[k' v'] rest IH]; intros Hnotin; [reflexivity|].
  simpl. destruct (String.eqb k' k) eqn:E.
  - apply String.eqb_eq in E. subst k'. exfalso. apply Hnotin. now left.
  - rewrite IH; [reflexivity|]. intros Hin. apply Hnotin. now right.
Qed.

Lemma set_field_keys_in (acc : list (string * value)) k v :
  In k (map fst acc) -> map fst (set_field acc k v) = map fst acc.
Proof.
  induction acc as [|[k' v'] rest IH]; intros Hin; [destruct Hin|].
  simpl. destruct (String.eqb k' k) eqn:E.
  - apply String.eqb_eq in E. now subst k'.
  - simpl. rewrite IH; [reflexivity|]. destruct Hin as [Hk|Hin]; [|exact Hin].
    simpl in Hk. subst k'. rewrite String.eqb_refl in E. discriminate E.
Qed.

Lemma set_field_forall (Q : string * value -> Prop) (acc : list (string * value)) k v :
  Forall Q acc -> Q (k, v) -> Forall Q (set_field acc k v).
Proof.
  intros Hacc Hkv. induction Hacc as [|[k' v'] rest Hx Hrest IH]; simpl.
  - now constructor.
  - destruct (String.eqb k' k); constructor; assumption.
Qed.

Lemma set_field_nodup (acc : list (string * value)) k v :
  NoDup (map fst acc) -> NoDup (map fst (set_field acc k v)).
Proof.
  intros Hacc. destruct (in_dec string_dec k (map fst acc)) as [Hin|Hnotin].
  - now rewrite set_field_keys_in.
  - rewrite set_field_new by exact Hnotin. rewrite map_app. simpl.
    apply NoDup_app; [exact Hacc | repeat constructor; intros [] |].
    intros x Hx [Hk|[]]. subst x. contradiction.
Qed.

Lemma cleanObject_fold_clean (entries : list (string * value)) :
  forall acc : list (string * value),
    NoDup (map fst acc) -> Forall (fun kv => kept kv = true) acc ->
    let cleaned :=
      fold_left
        (fun cleaned kv =>
           if negb (is_undefined (snd kv)) && negb (is_null (snd kv))
              && negb (is_empty_string (snd kv))
           then store cleaned (fst kv) (snd kv)
           else cleaned)
        entries acc in
    NoDup (map fst cleaned) /\ Forall (fun kv => kept kv = true) cleaned.
Proof.
  induction entries as [|[k v] rest IH]; intros acc Hnodup Hkept; [now split|].
  cbn [fold_left fst snd]. apply IH.
  - destruct (negb (is_undefined v) && negb (is_null v) && negb (is_empty_string v));
      [|exact Hnodup].
    unfold store. destruct (String.eqb k "__proto__"); [exact Hnodup|].
    now apply set_field_nodup.
  - destruct (negb (is_undefined v) && negb (is_null v) && negb (is_empty_string v))
      eqn:Ev; [|exact Hkept].
    unfold store. destruct (String.eqb k "__proto__") eqn:Ek; [exact Hkept|].
    apply set_field_forall; [exact Hkept|]. unfold kept. cbn [fst snd].
    now rewrite Ev, Ek.
Qed.

Lemma cleanObject_fold_kept (entries : list (string * value)) :
  NoDup (map fst entries) -> Forall (fun kv => kept kv = true) entries ->
  forall acc : list (string * value),
    (forall k, In k (map fst entries) -> ~ In k (map fst acc)) ->
    fold_left
      (fun cleaned kv =>
         if negb (is_undefined (snd kv)) && negb (is_null (snd kv))
            && negb (is_empty_string (snd kv))
         then store cleaned (fst kv) (snd kv)
         else cleaned)
      entries acc
    = (acc ++ entries)%list.
Proof.
  induction entries as [|[k v] rest IH]; intros Hnodup Hkept acc Hfresh.
  - simpl. now rewrite app_nil_r.
  - inversion Hnodup as [|? ? Hnotin Hrest]. subst.
    inversion Hkept as [|? ? Hkv Hkrest]. subst.
    cbn [fold_left fst snd]. unfold kept in Hkv. cbn [fst snd] in Hkv.
    apply andb_prop in Hkv. destruct Hkv as [Hv Hk]. rewrite Hv.
    unfold store. apply negb_true_iff in Hk. rewrite Hk.
    rewrite set_field_new by (apply Hfresh; now left).
    rewrite IH; [now rewrite <- app_assoc | exact Hrest | exact Hkrest |].
    intros k' Hin. rewrite map_app. simpl. intros Hin'.
    apply in_app_or in Hin'. destruct Hin' as [Hin'|[Hin'|[]]].
    + apply (Hfresh k'); [now right | exact Hin'].
    + subst k'. contradiction.
Qed.

(** X25: [cleanObject] is idempotent: cleaning a cleaned object gives
    the same properties, with the same values, in the same order. *)
Theorem cleanObject_is_idempotent (entries : list (string * value)) :
  cleanObject (cleanObject entries) = cleanObject entries.
Proof.
  destruct (cleanObject_fold_clean entries [] (NoDup_nil _) (Forall_nil _))
    as [Hnodup Hkept].
  fold (cleanObject entries) in Hnodup, Hkept.
  unfold cleanObject at 1.
  rewrite cleanObject_fold_kept; [reflexivity | exact Hnodup | exact Hkept |].
  intros k _ [].
Qed.
End CleanObjectFacts.

(** ** The utility methods and the cookies *)

Section UtilityFacts.
Context {number : Type} `{JsRuntime number}.
#[local] Abbreviation value := (value number).

(** X26: [getCurrentUser] resolves where [getAccountInfo] rejects.
    [getCurrentUser] makes one GET to [apiRoot/rest/user/current] with
    the stored cookies and returns the body of the response, also when
    the body has [success: false] and also when the status is an error
    (with a truthy body); it rejects only when no truthy body came back.
    [getAccountInfo] goes through [request]: on the same replies it
    rejects, with an [Error] or with the body. *)
Theorem current_user_resolves_where_account_info_rejects
        (apiRoot : string) (sessionCookies : value) (w : world number) :
  (forall r,
      replies w (cursor w) = Fulfils r ->
      fst (BeeswaxClientUtilities.getCurrentUser apiRoot sessionCookies w)
      = Resolved (data r)
      /\ (nullish (data r) = false -> is_false (prop (data r) "success") = true ->
          fst (BeeswaxClientUtilities.getAccountInfo w)
          = Rejected (JsError (JSON_stringify (data r)))))
  /\ (forall m r,
         replies w (cursor w) = Rejects m (Some r) ->
         truthy (data r) = true ->
         fst (BeeswaxClientUtilities.getCurrentUser apiRoot sessionCookies w)
         = Resolved (data r)
         /\ fst (BeeswaxClientUtilities.getAccountInfo w)
            = Rejected (ThrownValue (data r)))
  /\ (forall m,
         replies w (cursor w) = Rejects m None ->
         fst (BeeswaxClientUtilities.getCurrentUser apiRoot sessionCookies w)
         = Rejected (AxiosError m None))
  /\ sent (snd (BeeswaxClientUtilities.getCurrentUser apiRoot sessionCookies w))
     = (sent w ++ [mkCall "GET" (apiRoot ++ "/rest/user/current") VUndefined VUndefined
                     (VObj [("Cookie", or_else sessionCookies (VStr ""))])])%list
  /\ sent (snd (BeeswaxClientUtilities.getAccountInfo w))
     = (sent w ++ [mkCall "GET" "/rest/account" VUndefined VUndefined VUndefined])%list.
Proof.
  unfold BeeswaxClientUtilities.getAccountInfo. rewrite request_run.
  unfold BeeswaxClientUtilities.getCurrentUser, try_catch, bind, axios, ret, throw.
  split; [|split; [|split; [|split]]].
  - intros r ->. split; [reflexivity|]. intros -> ->. reflexivity.
  - intros m r -> Hd. cbn [error_response_data]. rewrite Hd. split; reflexivity.
  - intros m ->. reflexivity.
  - destruct (replies w (cursor w)) as [r|m [r|]|m]; cbn [error_response_data];
      try reflexivity.
    destruct (truthy (data r)); reflexivity.
  - reflexivity.
Qed.

Lemma cookies_after_lost (rs : list (reply number)) :
  fold_left
    (fun jar r =>
       match jar, r with
       | Some c, Fulfils resp => Interceptors.save_cookies c resp
       | Some c, _ => Some c
       | None, _ => None
       end) rs None = None.
Proof. induction rs as [|r rest IH]; [reflexivity | exact IH]. Qed.

(** X27: the cookies sent are those of the last response that set
    some.  After any list of replies, the stored cookie string is the
    ['; ']-join of the [set-cookie] list of the last fulfilled response
    that carried one (earlier cookies are replaced, not merged, and
    rejected responses never change them); if no response carried one it
    is the initial value.  The next request gets this string as its
    [Cookie] header, and no [Cookie] header when the string is empty. *)
Theorem cookies_are_those_of_the_last_response
        (rs : list (reply number)) (sessionCookies jar : value) :
  Interceptors.cookies_after sessionCookies rs = Some jar ->
  match Interceptors.last_cookies rs with
  | Some (VArr items) =>
      jar = VStr (Interceptors.join "; " items)
      /\ forall config_headers,
           Interceptors.add_cookies jar config_headers
           = (if String.eqb (Interceptors.join "; " items) "" then config_headers
              else set_field config_headers "Cookie" jar)
  | Some _ => False
  | None => jar = sessionCookies
  end.
Proof.
  revert sessionCookies. unfold Interceptors.cookies_after.
  induction rs as [|r rest IH]; intros c0 Hjar.
  - simpl in *. now inversion Hjar.
  - cbn [fold_left] in Hjar. cbn [Interceptors.last_cookies].
    destruct (match r with
              | Fulfils resp => Interceptors.save_cookies c0 resp
              | _ => Some c0
              end) as [c1|] eqn:Estep;
      [|rewrite cookies_after_lost in Hjar; discriminate Hjar].
    specialize (IH c1 Hjar).
    destruct (Interceptors.last_cookies rest) as [c|]; [exact IH|].
    subst jar.
    destruct r as [resp|m resp|m]; try (inversion Estep; reflexivity).
    unfold Interceptors.save_cookies in Estep. cbv zeta in Estep.
    destruct (truthy (prop (headers resp) "set-cookie")) eqn:Et.
    + destruct (prop (headers resp) "set-cookie"); try discriminate Estep.
      inversion Estep. split; [reflexivity|].
      intros config_headers. unfold Interceptors.add_cookies. cbn [truthy].
      destruct (String.eqb (Interceptors.join "; " items) ""); reflexivity.
    + now inversion Estep.
Qed.
End UtilityFacts.

(** ** The Session Manager: further properties *)

Module SessionMore.
Import Session SessionFacts SessionTerms.
#[local] Open Scope list_scope.

(** *** No login before the first [authenticate()] or 401 *)

Lemma quiet_step (e : event) (s : client) :
  quiet e = true ->
  attempts s = [] -> calls s = [] -> microtasks s = [] ->
  attempts (step e s) = [] /\ calls (step e s) = [] /\ microtasks (step e s) = []
  /\ authPromise (step e s) = authPromise s
  /\ login_posts (step e s) = login_posts s.
Proof.
  intros Hq Ea Ec Em. destruct e as [| |p st|r st|]; simpl.
  - discriminate Hq.
  - auto.
  - unfold login_response. rewrite Ea. destruct p; simpl; auto.
  - unfold request_response.
    destruct (nth_error (requests s) r) as [q|]; [|auto].
    destruct (at_phase q); auto.
    destruct st; simpl; auto. discriminate Hq.
  - unfold tick. rewrite Em. auto.
Qed.

(** X28: the client does not log in by itself.  As long as user code
    does not call [authenticate()] and no request is answered by 401, no
    login POST is sent and no promise is stored, whatever else happens;
    every request is handed to axios once. *)
Theorem no_login_before_authenticate_or_401 (events : list event) :
  forallb quiet events = true ->
  login_posts (run events init) = 0
  /\ authPromise (run events init) = None
  /\ calls (run events init) = []
  /\ (forall r q, nth_error (requests (run events init)) r = Some q ->
                  dispatches q = 1 /\ authentications q = 0).
Proof.
  intros Hq.
  assert (Hgen : forall s,
             attempts s = [] -> calls s = [] -> microtasks s = [] ->
             (forall r q, nth_error (requests s) r = Some q ->
                          dispatches q = 1 /\ authentications q = 0) ->
             login_posts (run events s) = login_posts s
             /\ authPromise (run events s) = authPromise s
             /\ calls (run events s) = []
             /\ (forall r q, nth_error (requests (run events s)) r = Some q ->
                             dispatches q = 1 /\ authentications q = 0)).
  { induction events as [|e rest IH]; intros s Ea Ec Em Hr; [auto|].
    simpl in Hq. apply andb_prop in Hq. destruct Hq as [He Hrest].
    destruct (quiet_step e s He Ea Ec Em) as (Ea' & Ec' & Em' & Eh' & Ep').
    simpl. destruct (IH Hrest (step e s) Ea' Ec' Em') as (H1 & H2 & H3 & H4).
    - intros r q. destruct e as [| |p st|r' st|]; simpl.
      + discriminate He.
      + intros E. destruct (nth_error_snoc _ _ _ _ E) as [Hold|[_ ->]];
          [now apply (Hr r) | split; reflexivity].
      + unfold login_response. rewrite Ea. destruct p; apply Hr.
      + unfold request_response.
        destruct (nth_error (requests s) r') as [q'|] eqn:Eq'; [|apply Hr].
        destruct (at_phase q') eqn:Ephase; try apply Hr.
        destruct st; try discriminate He.
        * intros E. rewrite with_request_lookup in E.
          destruct (nth_error (requests s) r) as [old|] eqn:Eold; [|discriminate E].
          inversion E. destruct (Nat.eqb r r'); [|now apply (Hr r)].
          simpl. now apply (Hr r').
        * intros E. rewrite with_request_lookup in E.
          destruct (nth_error (requests s) r) as [old|] eqn:Eold; [|discriminate E].
          inversion E. destruct (Nat.eqb r r'); [|now apply (Hr r)].
          simpl. now apply (Hr r').
      + unfold tick. rewrite Em. apply Hr.
    - rewrite H1, H2, Ep', Eh'. auto. }
  destruct (Hgen init eq_refl eq_refl eq_refl) as (H1 & H2 & H3 & H4).
  - intros r q E. destruct r; discriminate E.
  - auto.
Qed.

(** *** The callers of one attempt share its outcome *)

Lemma settle_call_calls (c : nat) (o : settlement) (s : client) :
  calls (settle_call c o s) = calls (with_outcome s c o)
  \/ calls (settle_call c o s) = calls s.
Proof.
  unfold settle_call. destruct (nth_error (calls s) c) as [call|]; [|now right].
  left. destruct (from call) as [|r|p].
  - reflexivity.
  - destruct (nth_error (requests (with_outcome s c o)) r); [destruct o|]; reflexivity.
  - destruct o.
    + cbn [calls]. apply with_attempt_frame.
    + apply settle_attempt_calls.
Qed.

Lemma resume_outcome (c : nat) (s : client) (c' : nat) (call' : auth_call)
      (o : settlement) :
  nth_error (calls (resume c s)) c' = Some call' ->
  outcome call' = Some o ->
  (exists call, nth_error (calls s) c' = Some call
                /\ joined call = joined call' /\ outcome call = Some o)
  \/ exists a, nth_error (attempts s) (joined call') = Some a /\ state a = Settled o.
Proof.
  intros E Hout. unfold resume in E.
  destruct (nth_error (calls s) c) as [call|] eqn:Ecall;
    [|left; exists call'; repeat split; assumption].
  destruct (outcome call) as [|] eqn:Eout; [left; exists call'; repeat split; assumption|].
  destruct (nth_error (attempts s) (joined call)) as [a|] eqn:Ea;
    [|left; exists call'; repeat split; assumption].
  destruct (state a) as [| |o'] eqn:Hst;
    try solve [left; exists call'; repeat split; assumption].
  destruct (settle_call_calls c o' s) as [Hc|Hc]; rewrite Hc in E;
    [|left; exists call'; repeat split; assumption].
  rewrite with_outcome_lookup in E.
  destruct (nth_error (calls s) c') as [old|] eqn:Eold; [|discriminate E].
  inversion E. clear E.
  destruct (Nat.eqb c' c) eqn:Ec.
  - apply Nat.eqb_eq in Ec. subst c'. rewrite Ecall in Eold. inversion Eold. subst old.
    subst call'. simpl in *. inversion Hout. subst o'.
    right. exists a. now split.
  - subst call'. left. exists old. repeat split; assumption.
Qed.

Lemma step_outcome (e : event) (s : client) (c : nat) (call : auth_call)
      (o : settlement) :
  nth_error (calls (step e s)) c = Some call ->
  outcome call = Some o ->
  (exists old, nth_error (calls s) c = Some old
               /\ joined old = joined call /\ outcome old = Some o)
  \/ exists a, nth_error (attempts s) (joined call) = Some a /\ state a = Settled o.
Proof.
  intros E Hout.
  assert (Hauth : forall who,
             nth_error (calls (fst (authenticate who s))) c = Some call ->
             exists old, nth_error (calls s) c = Some old
                         /\ joined old = joined call /\ outcome old = Some o).
  { intros who E'. unfold authenticate in E'.
    destruct (authPromise s) as [p|].
    - assert (E0 : nth_error (calls s ++ [mkAuthCall p false who None]) c = Some call).
      { destruct (attempt_settled s p); exact E'. }
      destruct (nth_error_snoc _ _ _ _ E0) as [Hold|[_ ->]];
        [exists call; repeat split; assumption | discriminate Hout].
    - simpl in E'. destruct (nth_error_snoc _ _ _ _ E') as [Hold|[_ ->]];
        [exists call; repeat split; assumption | discriminate Hout]. }
  destruct e as [| |p st|r st|]; simpl in E.
  - left. now apply (Hauth User).
  - left. exists call. repeat split; assumption.
  - left. unfold login_response in E.
    destruct (nth_error (attempts s) p) as [a0|]; [|exists call; repeat split; assumption].
    destruct (state a0) as [retried| |]; try solve [exists call; repeat split; assumption].
    assert (Hset : forall o', nth_error (calls (settle_attempt p o' s)) c = Some call ->
                              exists old, nth_error (calls s) c = Some old
                                          /\ joined old = joined call
                                          /\ outcome old = Some o).
    { intros o' E'. rewrite settle_attempt_calls in E'. exists call. repeat split; assumption. }
    destruct st; try (now apply (Hset _ E)).
    destruct retried; [now apply (Hset _ E)|].
    apply (Hauth (LoginInterceptor p)).
    destruct (authenticate (LoginInterceptor p) s) as [s' c0]. cbn [fst].
    destruct (with_attempt_frame s' p (AwaitingCall c0)) as (_ & Fc & _).
    now rewrite Fc in E.
  - left. unfold request_response in E.
    destruct (nth_error (requests s) r) as [q|]; [|exists call; repeat split; assumption].
    destruct (at_phase q); try solve [exists call; repeat split; assumption].
    destruct st; try solve [exists call; repeat split; assumption].
    destruct (retry q); [exists call; repeat split; assumption|].
    apply (Hauth (RequestInterceptor r)).
    destruct (authenticate (RequestInterceptor r) s) as [s' c0]. exact E.
  - unfold tick in E. destruct (microtasks s) as [|j rest]; [left; exists call; repeat split; assumption|].
    destruct j as [c0|c0]; apply (resume_outcome c0 _ c call o E Hout).
Qed.

Lemma outcomes_agree_step (e : event) (s : client) :
  invariant s -> outcomes_agree s -> outcomes_agree (step e s).
Proof.
  intros Hinv Hagree c call o E Hout.
  assert (Hs : exists a, nth_error (attempts s) (joined call) = Some a
                         /\ state a = Settled o).
  { destruct (step_outcome e s c call o E Hout) as [(old & Eold & Hj & Ho)|Hnew];
      [|exact Hnew].
    rewrite <- Hj. now apply (Hagree c old o). }
  destruct Hs as (a & Ea & Hst).
  destruct (step_attempts e s (joined call) a Hinv Ea) as (a' & Ea' & Hsame).
  exists a'. split; [exact Ea'|]. rewrite Hsame; [exact Hst|].
  intros retried Hr. rewrite Hr in Hst. discriminate Hst.
Qed.

Lemma outcomes_agree_run (events : list event) :
  forall s, invariant s -> outcomes_agree s -> outcomes_agree (run events s).
Proof.
  induction events as [|e rest IH]; intros s Hinv Hagree; [exact Hagree|].
  simpl. apply IH; [now apply invariant_step | now apply outcomes_agree_step].
Qed.

(** X29: the callers of one attempt share its outcome.  In every
    reachable state, a call of [authenticate()] that has settled did so
    with the settlement of the attempt it started or was handed; two
    settled calls of the same attempt therefore both resolved or both
    rejected. *)
Theorem callers_share_the_outcome_of_the_attempt (s : client) :
  reachable s ->
  outcomes_agree s
  /\ forall c1 c2 call1 call2 o1 o2,
       nth_error (calls s) c1 = Some call1 -> nth_error (calls s) c2 = Some call2 ->
       joined call1 = joined call2 ->
       outcome call1 = Some o1 -> outcome call2 = Some o2 ->
       o1 = o2.
Proof.
  intros (events & ->).
  assert (Hagree : outcomes_agree (run events init)).
  { apply outcomes_agree_run; [apply invariant_init|].
    intros c call o E. destruct c; discriminate E. }
  split; [exact Hagree|].
  intros c1 c2 call1 call2 o1 o2 E1 E2 Hj H1 H2.
  destruct (Hagree c1 call1 o1 E1 H1) as (a1 & Ea1 & Hs1).
  destruct (Hagree c2 call2 o2 E2 H2) as (a2 & Ea2 & Hs2).
  rewrite Hj in Ea1. rewrite Ea1 in Ea2. inversion Ea2. subst a2.
  rewrite Hs1 in Hs2. now inversion Hs2.
Qed.

(** *** A login that settles frees the handle *)

Lemma resume_microtasks (c : nat) (s : client) :
  exists extra, microtasks (resume c s) = microtasks s ++ extra.
Proof.
  unfold resume.
  destruct (nth_error (calls s) c) as [call|] eqn:Ecall;
    [|exists []; now rewrite app_nil_r].
  destruct (outcome call); [exists []; now rewrite app_nil_r|].
  destruct (nth_error (attempts s) (joined call)) as [a|];
    [|exists []; now rewrite app_nil_r].
  destruct (state a) as [| |o]; try (exists []; now rewrite app_nil_r).
  unfold settle_call. rewrite Ecall.
  destruct (with_outcome_frame s c o) as (Fh & Fa & Fr & Fm & Fp).
  destruct (from call) as [|r|p].
  - exists []. now rewrite app_nil_r.
  - destruct (nth_error (requests (with_outcome s c o)) r); [destruct o|];
      exists []; unfold with_request; cbn [microtasks]; now rewrite app_nil_r.
  - destruct o.
    + exists []. cbn [microtasks].
      destruct (with_attempt_frame (with_outcome s c Fulfilled) p (InFlight true))
        as (_ & _ & _ & Fm' & _).
      now rewrite Fm', Fm, app_nil_r.
    + unfold settle_attempt.
      destruct (nth_error (attempts (with_outcome s c Failed)) p) as [a'|];
        [|exists []; now rewrite Fm, app_nil_r].
      eexists. unfold enqueue. cbn [microtasks].
      destruct (with_attempt_frame (with_outcome s c Failed) p (Settled Failed))
        as (_ & _ & _ & Fm' & _).
      rewrite Fm', Fm. reflexivity.
Qed.

(** The jobs queued before the [finally] of a settled attempt are
    adoptions; when they have run, the [finally] is at the head of the
    queue and the stored promise is the same. *)
Lemma adoptions_run (pre : list job) :
  forall (s : client) (c : nat) (post : list job),
    invariant s ->
    microtasks s = pre ++ Finally c :: post ->
    (forall j, In j pre -> is_finally j = false) ->
    exists post',
      microtasks (run (repeat Tick (List.length pre)) s) = Finally c :: post'
      /\ invariant (run (repeat Tick (List.length pre)) s)
      /\ authPromise (run (repeat Tick (List.length pre)) s) = authPromise s.
Proof.
  induction pre as [|j pre IH]; intros s c post Hinv Equeue Hpre.
  - exists post. simpl. auto.
  - assert (Hj : is_finally j = false) by (apply Hpre; now left).
    destruct j as [c0|c0]; [discriminate Hj|].
    cbn [List.length repeat run fold_left step].
    fold (run (repeat Tick (List.length pre)) (tick s)).
    assert (Etick : tick s = resume c0 (mkClient (authPromise s) (attempts s) (calls s)
                                          (requests s) (pre ++ Finally c :: post)
                                          (login_posts s))).
    { unfold tick. rewrite Equeue. reflexivity. }
    destruct (resume_microtasks c0 (mkClient (authPromise s) (attempts s) (calls s)
                                      (requests s) (pre ++ Finally c :: post)
                                      (login_posts s))) as (extra & Eextra).
    rewrite <- Etick in Eextra. cbn [microtasks] in Eextra.
    rewrite <- app_assoc in Eextra. cbn [app] in Eextra.
    destruct (IH (tick s) c (post ++ extra)) as (post' & E1 & E2 & E3).
    + now apply invariant_tick.
    + exact Eextra.
    + intros j Hin. apply Hpre. now right.
    + exists post'. split; [exact E1|]. split; [exact E2|].
      rewrite E3, Etick. now rewrite resume_stored.
Qed.

(** X30: a login that settles frees the handle.  When the login POST of
    an attempt in flight is answered by a success, by a failure other
    than 401, or by a 401 after the replay, the attempt settles; once the
    microtasks queued until then and the [finally] block have run,
    [authPromise] is [undefined] again and the next [authenticate()]
    sends a new login POST. *)
Theorem settled_login_frees_the_handle
        (s : client) (p : nat) (a : attempt) (retried : bool) (st : status) :
  reachable s ->
  nth_error (attempts s) p = Some a ->
  state a = InFlight retried ->
  (st = Status401 -> retried = true) ->
  let s' := run (LoginResponse p st :: repeat Tick (S (List.length (microtasks s)))) s in
  authPromise s' = None
  /\ (exists a', nth_error (attempts s') p = Some a'
                 /\ state a' = Settled (match st with Ok => Fulfilled | _ => Failed end))
  /\ login_posts (step Authenticate s') = S (login_posts s').
Proof.
  intros Hreach Ea Hst Hretry. cbv zeta.
  pose proof (invariant_reachable s Hreach) as Hinv.
  set (o := match st with Ok => Fulfilled | _ => Failed end).
  assert (Estep : step (LoginResponse p st) s = settle_attempt p o s).
  { simpl. unfold login_response. rewrite Ea, Hst. subst o.
    destruct st; try reflexivity. now rewrite Hretry. }
  assert (Hqueue : microtasks (settle_attempt p o s)
                   = microtasks s ++ Finally (creator a) :: adopters_from p 0 (calls s))
    by (now apply settled_attempt_queues_finally).
  assert (Hu : unsettled s p) by (exists a; split; [exact Ea | now rewrite Hst]).
  assert (Hadopts : forall j, In j (microtasks s) -> is_finally j = false).
  { intros [c|c] Hin; [|reflexivity].
    destruct (finally_of_stored s Hinv c Hin) as (p1 & Ep1 & Hp1).
    rewrite (unsettled_is_stored s Hinv p Hu) in Ep1. inversion Ep1. subst p1.
    rewrite (attempt_settled_unsettled s p Hu) in Hp1. discriminate Hp1. }
  assert (Hinv1 : invariant (settle_attempt p o s)).
  { rewrite <- Estep. now apply invariant_step. }
  destruct (adoptions_run (microtasks s) (settle_attempt p o s) (creator a)
              (adopters_from p 0 (calls s)) Hinv1 Hqueue Hadopts)
    as (post & Ehead & Hinv2 & Ehandle).
  assert (Erun : run (LoginResponse p st :: repeat Tick (S (List.length (microtasks s)))) s
                 = tick (run (repeat Tick (List.length (microtasks s)))
                           (settle_attempt p o s))).
  { cbn [run fold_left]. rewrite Estep.
    change (repeat Tick (S (List.length (microtasks s))))
      with (Tick :: repeat Tick (List.length (microtasks s))).
    rewrite repeat_cons. rewrite fold_left_app. reflexivity. }
  rewrite Erun.
  destruct (finally_clears_stored_promise _ (creator a) post Ehead) as [Hnone Hpost].
  split; [exact Hnone|]. split; [|exact Hpost].
  assert (Ea1 : exists a1, nth_error (attempts (settle_attempt p o s)) p = Some a1
                           /\ state a1 = Settled o).
  { unfold settle_attempt. rewrite Ea. unfold enqueue. cbn [attempts].
    rewrite with_attempt_lookup, Ea, Nat.eqb_refl. eexists. split; reflexivity. }
  destruct Ea1 as (a1 & Ea1 & Hst1). exists a1. split; [|exact Hst1].
  change (tick ?x) with (run [Tick] x).
  unfold run. rewrite <- fold_left_app. fold (run (repeat Tick (List.length (microtasks s)) ++ [Tick]) (settle_attempt p o s)).
  apply run_settled_stays; [exact Hinv1 | exact Ea1 | now rewrite Hst1].
Qed.
End SessionMore.

(* ================================================================= *)
(** * Part V: the further properties on concrete inputs *)
(* ================================================================= *)

Section MoreRuns.
#[local] Abbreviation value := (value Z).
#[local] Open Scope Z_scope.

(** *** BaseResource *)

(** [campaigns.edit(1, {})] and [advertisers.create({})]-like calls with
    the empty object are refused without a request. *)
Lemma empty_body_is_refused_offline :
  BaseResource.create advertisers (VObj [] : value) (script [])
  = (Resolved BaseResource.bad_body, script [])
  /\ BaseResource.edit advertisers (VNum 1) (VObj []) false (script [])
     = (Resolved BaseResource.bad_body, script []).
Proof.
  exact (create_and_edit_refuse_bad_bodies_without_a_request
           advertisers (VNum 1) (VObj []) false (script []) I).
Defined.

(** The identity given to [edit] replaces the one of the body. *)
Lemma edit_overrides_the_identity_of_the_body :
  exists cs,
    sent (snd (BaseResource.edit campaigns (VNum 7)
                 (VObj [("campaign_id", VNum 9); ("active", VBool false)])
                 false (script [])))
    = ([] ++ mkCall "PUT" "/rest/campaign/strict" VUndefined
                (VObj [("campaign_id", VNum 7); ("active", VBool false)])
                VUndefined :: cs)%list
    /\ Forall (fun c => c = mkCall "GET" "/rest/campaign"
                              (VObj [("campaign_id", VNum 7)]) VUndefined VUndefined) cs
    /\ (List.length cs <= 1)%nat
    /\ prop (VObj [("campaign_id", VNum 7); ("active", VBool false)] : value)
            "campaign_id" = VNum 7
    /\ (forall k, k <> "campaign_id" ->
                  prop (VObj [("campaign_id", VNum 7); ("active", VBool false)] : value) k
                  = prop (VObj [("campaign_id", VNum 9); ("active", VBool false)]) k).
Proof.
  apply (edit_puts_the_body_under_the_given_id campaigns (VNum 7)
           [("campaign_id", VNum 9); ("active", VBool false)] false (script [])).
  - discriminate.
  - reflexivity.
Defined.

(** A delete answered by the not-found error of the API. *)
Lemma delete_of_a_missing_record :
  fst (BaseResource.delete campaigns (VNum 7) false
         (script [Rejects "Request failed"
                    (Some (not_found_response "Could not load object 7 to delete"))]))
  = Resolved BaseResource.not_found.
Proof.
  exact (proj1 (edit_and_delete_report_not_found campaigns (VNum 7)
                  [("active", VBool true)] false
                  (script [Rejects "Request failed"
                             (Some (not_found_response
                                      "Could not load object 7 to delete"))])
                  "Request failed"
                  (not_found_response "Could not load object 7 to delete")
                  eq_refl eq_refl)).
Defined.

(** *** queryAll *)

Lemma queryAll_three_full_pages :
  fst (BaseResource.queryAll advertisers 3 (VUndefined : value) endless_pages)
  = Resolved None
  /\ cursor (snd (BaseResource.queryAll advertisers 3 (VUndefined : value)
                    endless_pages)) = 3%nat.
Proof.
  apply (queryAll_keeps_paging_while_pages_are_full advertisers VUndefined endless_pages).
  intros i. exists full_page. split.
  - eexists. repeat split; reflexivity.
  - simpl. lia.
Defined.

Lemma queryAll_loses_the_first_page :
  fst (BaseResource.queryAll advertisers 5 (VUndefined : value) one_page_then_offline)
  = Rejected (AxiosError "Network Error" None)
  /\ cursor (snd (BaseResource.queryAll advertisers 5 (VUndefined : value)
                    one_page_then_offline)) = 2%nat.
Proof.
  apply (queryAll_rejects_when_a_page_fails advertisers VUndefined [full_page]
           "Network Error" 5 one_page_then_offline).
  - repeat constructor.
  - intros i p Hp. destruct i as [|i]; simpl in Hp.
    + inversion Hp. subst p. eexists. repeat split; reflexivity.
    + destruct i; discriminate Hp.
  - reflexivity.
  - simpl. lia.
Defined.

(** *** Campaigns and line items *)

(** [campaigns.create({})] is posted, with [budget_type: 2]. *)
Lemma empty_campaign_is_posted :
  exists cs,
    sent (snd (CampaignResource.create (VObj [] : value) (script [])))
    = ([] ++ mkCall "POST" "/rest/campaign/strict" VUndefined
                (VObj [("budget_type", VNum 2)]) VUndefined :: cs)%list
    /\ (List.length cs <= 1)%nat
    /\ Forall (fun c => c_method c = "GET" /\ c_url c = "/rest/campaign") cs
    /\ prop (VObj [("budget_type", VNum 2)] : value) "budget_type" = VNum 2
    /\ is_undefined (prop (VObj [("budget_type", VNum 2)] : value) "budget_type")
       = false.
Proof.
  exact (campaign_create_always_sends_a_budget_type [] (script []) eq_refl).
Defined.

(** With both names the legacy one is sent. *)
Lemma campaign_with_both_names :
  prop (CampaignResource.normalize
          (VObj [("name", VStr "New"); ("campaign_name", VStr "Old")] : value))
       "campaign_name" = VStr "Old"
  /\ prop (CampaignResource.normalize
             (VObj [("name", VStr "New"); ("campaign_name", VStr "Old")] : value))
          "name" = VUndefined.
Proof.
  exact (proj1 (campaign_legacy_names_win
                  [("name", VStr "New"); ("campaign_name", VStr "Old")]
                  _ (or_introl eq_refl))
           eq_refl).
Defined.

(** A reply of the v2 API: the object itself, with its [id]. *)
Lemma line_item_reply_is_wrapped :
  let r : value := obj [("success", VBool true);
                        ("payload", VObj [("id", VNum 6); ("line_item_id", VNum 6)])] in
  (prop r "success" = VBool true
   /\ truthy (prop (prop r "payload") "id") = true
   /\ prop (prop r "payload") "line_item_id" = prop (prop r "payload") "id")
  \/ (is_undefined (prop r "success") = false /\ is_false (prop r "success") = false)
  \/ (prop r "success" = VBool false
      /\ prop r "message" = VStr "Unexpected response format").
Proof.
  exact (line_item_create_result (VObj [("name", VStr "First")])
           (script [ok (obj [("id", VNum 6)])]) _ _ eq_refl).
Defined.

(** *** The helpers *)

Lemma createLineItem_without_campaign :
  BeeswaxClientHelpers.createLineItem (VObj line_item_params) (script [empty_page])
  = (Rejected (JsError "Campaign not found"),
     after_call (script [empty_page])
       (mkCall "GET" "/rest/campaign" (VObj [("campaign_id", VNum 1)])
          VUndefined VUndefined)).
Proof.
  exact (createLineItem_needs_the_campaign (VObj line_item_params) (script [empty_page])
           (mkResponse 200 (obj [("success", VBool true); ("payload", VArr [])])
                       (VObj []))
           eq_refl eq_refl eq_refl eq_refl eq_refl).
Defined.


Lemma upload_offline :
  exists body cs,
    sent (snd (BeeswaxClientHelpers.uploadCreativeAsset (VObj asset_params) (script [])))
    = ([] ++ mkCall "HEAD" "https://cdn.example.com/assets/banner.png"
                VUndefined VUndefined VUndefined
             :: mkCall "POST" "/rest/creative_asset" VUndefined body VUndefined
             :: cs)%list
    /\ prop body "size_in_bytes" = VUndefined
    /\ prop body "creative_asset_name" = VStr "banner.png"
    /\ prop body "advertiser_id" = VNum 3
    /\ prop body "active" = VBool true.
Proof.
  apply (upload_survives_a_failed_size_probe asset_params
           "https://cdn.example.com/assets/banner.png" (script [])
           "Network Error" None).
  - reflexivity.
  - discriminate.
  - reflexivity.
  - reflexivity.
Defined.

(** *** The macros *)

Lemma full_campaign_with_a_template :
  exists r w',
    CampaignMacros.createFullCampaign template_options template_server
    = (Resolved r, w')
    /\ prop r "success" = VBool true
    /\ prop (prop r "payload") "targeting_templates" = VArr [].
Proof.
  eexists _, _. split; [vm_compute; reflexivity|].
  split; [reflexivity|].
  eapply (createFullCampaign_creates_no_targeting_template template_options
            template_server).
  - vm_compute. reflexivity.
  - reflexivity.
Defined.

Lemma clone_with_new_dates :
  prop (CampaignResource.normalize
          (CampaignMacros.cloned_campaign (VObj source_campaign) (VStr "Copy") new_dates))
       "start_date" = VStr "2027-01-01"
  /\ prop (CampaignResource.normalize
             (CampaignMacros.cloned_campaign (VObj source_campaign) (VStr "Copy")
                new_dates))
          "end_date" = VStr "2027-03-31"
  /\ prop (LineItemResource.normalize
             (CampaignMacros.cloned_line_item new_campaign new_dates
                (VObj dated_line_item)))
          "start_date" = VStr "2026-01-01"
  /\ prop (LineItemResource.normalize
             (CampaignMacros.cloned_line_item new_campaign new_dates
                (VObj dated_line_item)))
          "end_date" = VStr "2026-03-31".
Proof.
  exact (clone_dates_apply_to_the_campaign_only (VObj source_campaign) (VStr "Copy")
           new_dates new_campaign dated_line_item eq_refl eq_refl).
Defined.


(** *** cleanObject and the cookies *)

Lemma cleanObject_keeps_zero :
  own (cleanObject sparse_entries) "a" = Some (VNum 0).
Proof.
  apply (cleanObject_drops_only_blank_values sparse_entries "a").
  repeat (constructor; [simpl; intuition discriminate|]). constructor.
Defined.

Lemma cookies_of_the_first_response :
  VStr "sessionid=1; csrf=2"
  = (VStr (Interceptors.join "; " [VStr "sessionid=1"; VStr "csrf=2"]) : value)
  /\ forall config_headers : list (string * value),
       Interceptors.add_cookies (VStr "sessionid=1; csrf=2") config_headers
       = set_field config_headers "Cookie" (VStr "sessionid=1; csrf=2").
Proof.
  exact (cookies_are_those_of_the_last_response cookie_replies VUndefined
           (VStr "sessionid=1; csrf=2") eq_refl).
Defined.
End MoreRuns.

Module SessionMoreRuns.
Import Session SessionFacts SessionTerms SessionMore.
#[local] Open Scope list_scope.

(** Two requests, one failing with a server error: no login. *)
Lemma two_requests_without_login :
  let s := run [Send; Response 0 OtherFailure; Send; Response 1 Ok; Tick;
                LoginResponse 0 Ok] init in
  login_posts s = 0
  /\ authPromise s = None
  /\ calls s = []
  /\ (forall r q, nth_error (requests s) r = Some q ->
                  dispatches q = 1 /\ authentications q = 0).
Proof.
  exact (no_login_before_authenticate_or_401
           [Send; Response 0 OtherFailure; Send; Response 1 Ok; Tick; LoginResponse 0 Ok]
           eq_refl).
Defined.

(** Two callers of a login that fails. *)
Lemma two_callers_of_a_failed_login :
  let s := run [Authenticate; Authenticate; LoginResponse 0 OtherFailure; Tick; Tick]
               init in
  outcomes_agree s
  /\ forall c1 c2 call1 call2 o1 o2,
       nth_error (calls s) c1 = Some call1 -> nth_error (calls s) c2 = Some call2 ->
       joined call1 = joined call2 ->
       outcome call1 = Some o1 -> outcome call2 = Some o2 ->
       o1 = o2.
Proof.
  exact (callers_share_the_outcome_of_the_attempt
           (run [Authenticate; Authenticate; LoginResponse 0 OtherFailure; Tick; Tick]
                init)
           (ex_intro _ [Authenticate; Authenticate; LoginResponse 0 OtherFailure;
                        Tick; Tick] eq_refl)).
Defined.

(** A login that fails with a server error, with a second caller. *)
Lemma failed_login_frees_the_handle :
  let s := run [Authenticate; Authenticate] init in
  let s' := run (LoginResponse 0 OtherFailure
                   :: repeat Tick (S (List.length (microtasks s)))) s in
  authPromise s' = None
  /\ (exists a', nth_error (attempts s') 0 = Some a' /\ state a' = Settled Failed)
  /\ login_posts (step Authenticate s') = S (login_posts s').
Proof.
  apply (settled_login_frees_the_handle (run [Authenticate; Authenticate] init) 0
           (mkAttempt (InFlight false) 0) false OtherFailure).
  - exists [Authenticate; Authenticate]. reflexivity.
  - reflexivity.
  - reflexivity.
  - discriminate.
Defined.
End SessionMoreRuns.
